(** * webScraper.py: a shallow embedding of [scrape_company_profile]

    The scraper fetches one company web site and fills a nested profile
    record by keyword and regular-expression heuristics over the parsed
    page.  The embedding follows [src/webScraper.py] section by section.

    Boundaries of the model.
    - The HTTP client ([requests]) and the HTML parser ([html.parser] behind
      BeautifulSoup) are inputs: a response carries its status code, its
      final URL and the already parsed document tree.
    - [urllib.parse] is an interface ([UrlLib]); every general theorem holds
      for any implementation, and [urllib_parse] is an executable one that
      follows CPython's algorithm on plain URLs.
    - Python [str] values are Rocq strings.  The model is exact on ASCII
      text; a byte above 127 stands for a piece of a UTF-8 encoded character
      and is neither whitespace, nor a letter, nor changed by [lower].
    - Console output ([print]) and the debug dump of the page do not touch
      the profile and are left out. *)

From Stdlib Require Import String Ascii List Bool Arith ZArith Lia Sorted.
From Stdlib Require Import DecimalString DecimalNat.
Import ListNotations.
Open Scope string_scope.

(** ** Python [str] operations used by the scraper *)

Definition len (s : string) : nat := String.length s.

(** [str.isspace] on ASCII: TAB..CR, FS..US and the space. *)
Definition isspace (c : ascii) : bool :=
  let n := nat_of_ascii c in
  (((9 <=? n) && (n <=? 13)) || ((28 <=? n) && (n <=? 32)))%nat.

Definition isdigit (c : ascii) : bool :=
  let n := nat_of_ascii c in ((48 <=? n) && (n <=? 57))%nat.

Definition isupper (c : ascii) : bool :=
  let n := nat_of_ascii c in ((65 <=? n) && (n <=? 90))%nat.

Definition islower (c : ascii) : bool :=
  let n := nat_of_ascii c in ((97 <=? n) && (n <=? 122))%nat.

Definition isalpha (c : ascii) : bool := isupper c || islower c.

(** The class [\w] of [re]. *)
Definition isword (c : ascii) : bool :=
  isalpha c || isdigit c || Ascii.eqb c "_"%char.

Definition lower_ascii (c : ascii) : ascii :=
  if isupper c then ascii_of_nat (nat_of_ascii c + 32) else c.

(** [s.lower()] *)
Fixpoint lower (s : string) : string :=
  match s with
  | EmptyString => EmptyString
  | String c s' => String (lower_ascii c) (lower s')
  end.

Fixpoint lstrip (s : string) : string :=
  match s with
  | EmptyString => EmptyString
  | String c s' => if isspace c then lstrip s' else s
  end.

Fixpoint rstrip (s : string) : string :=
  match s with
  | EmptyString => EmptyString
  | String c s' =>
      match rstrip s' with
      | EmptyString => if isspace c then EmptyString else String c EmptyString
      | t => String c t
      end
  end.

(** [s.strip()] *)
Definition strip (s : string) : string := rstrip (lstrip s).

(** [sub in s] *)
Fixpoint contains (sub s : string) : bool :=
  String.prefix sub s ||
  match s with
  | EmptyString => false
  | String _ s' => contains sub s'
  end.

(** [s.split(sep)[0]]: the text before the first occurrence of [sep]. *)
Fixpoint split_head (sep s : string) : string :=
  match s with
  | EmptyString => EmptyString
  | String c s' =>
      if String.prefix sep s then EmptyString else String c (split_head sep s')
  end.

(** [s.replace(old, "")] for a non-empty [old]: [skip] counts the characters
    of the occurrence being dropped. *)
Fixpoint remove_from (old : string) (skip : nat) (s : string) : string :=
  match s with
  | EmptyString => EmptyString
  | String c s' =>
      match skip with
      | S k => remove_from old k s'
      | O =>
          if String.prefix old s then remove_from old (len old - 1) s'
          else String c (remove_from old 0 s')
      end
  end.

Definition remove_all (old s : string) : string := remove_from old 0 s.

(** [sep.join(parts)] *)
Definition join (sep : string) (parts : list string) : string :=
  String.concat sep parts.

(** [s[:n]] *)
Definition slice_to (n : nat) (s : string) : string := String.substring 0 n s.

(** Python truthiness of a string and of an optional string. *)
Definition truthy (s : string) : bool := negb (String.eqb s "").

Definition truthy_opt (o : option string) : bool :=
  match o with
  | Some s => truthy s
  | None => false
  end.

(** [x in xs] for a list of strings. *)
Definition str_in (x : string) (xs : list string) : bool :=
  existsb (String.eqb x) xs.

(** ** Regular expressions: the backtracking matcher of [re]

    Only the constructs of the scraper's six patterns are present.
    Repetition is greedy; alternatives are tried from the left; a match is
    the first one the backtracking search reaches, as in [re]. *)

Inductive regex : Type :=
| Eps
| Chr (p : ascii -> bool)
| Seq (r1 r2 : regex)
| Alt (r1 r2 : regex)
| Rep (lo : nat) (hi : option nat) (r : regex)
| Grp (i : nat) (r : regex)
| WordB
| Eos.

(** A position in the subject: the character just before it, the text from
    it on, and the groups captured so far. *)
Record mstate : Type := MState {
  prev : option ascii;
  rest : string;
  caps : list (nat * string)
}.

Definition isword_opt (o : option ascii) : bool :=
  match o with
  | Some c => isword c
  | None => false
  end.

Definition next_char (s : string) : option ascii :=
  match s with
  | EmptyString => None
  | String c _ => Some c
  end.

Definition below (n : nat) (hi : option nat) : bool :=
  match hi with
  | Some h => (n <? h)%nat
  | None => true
  end.

Definition consumed (st st' : mstate) : string :=
  String.substring 0 (len (rest st) - len (rest st')) (rest st).

Fixpoint rmatch (r : regex) (st : mstate) (k : mstate -> option mstate)
  {struct r} : option mstate :=
  match r with
  | Eps => k st
  | Chr p =>
      match rest st with
      | String c s' =>
          if p c then k (MState (Some c) s' (caps st)) else None
      | EmptyString => None
      end
  | Seq r1 r2 => rmatch r1 st (fun st' => rmatch r2 st' k)
  | Alt r1 r2 =>
      match rmatch r1 st k with
      | Some st' => Some st'
      | None => rmatch r2 st k
      end
  | Rep lo hi r0 =>
      (fix rep (fuel cnt : nat) (st : mstate) {struct fuel} : option mstate :=
         let stop := if (lo <=? cnt)%nat then k st else None in
         match fuel with
         | O => stop
         | S fuel' =>
             if below cnt hi then
               match rmatch r0 st (fun st' =>
                       if (len (rest st') <? len (rest st))%nat
                       then rep fuel' (S cnt) st' else None) with
               | Some st' => Some st'
               | None => stop
               end
             else stop
         end) (len (rest st)) 0 st
  | Grp i r0 =>
      rmatch r0 st (fun st' =>
        k (MState (prev st') (rest st') ((i, consumed st st') :: caps st')))
  | WordB =>
      if xorb (isword_opt (prev st)) (isword_opt (next_char (rest st)))
      then k st else None
  | Eos =>
      if String.eqb (rest st) "" || String.eqb (rest st) (String "010" "")
      then k st else None
  end.

(** A match found by a search: the matched text, the groups, and the
    position after it. *)
Record rmatch_result : Type := Match {
  matched : string;
  groups : list (nat * string);
  after : mstate
}.

Definition match_at (r : regex) (p : option ascii) (s : string)
  : option rmatch_result :=
  let st := MState p s [] in
  match rmatch r st (fun st' => Some st') with
  | Some st' => Some (Match (consumed st st') (caps st') st')
  | None => None
  end.

(** [group i] of a match; a group that did not take part is empty here. *)
Fixpoint group (i : nat) (gs : list (nat * string)) : string :=
  match gs with
  | [] => ""
  | (j, s) :: gs' => if (i =? j)%nat then s else group i gs'
  end.

(** [re.search]: the leftmost position where the pattern matches. *)
Fixpoint search_from (r : regex) (p : option ascii) (s : string)
  : option rmatch_result :=
  match match_at r p s with
  | Some m => Some m
  | None =>
      match s with
      | EmptyString => None
      | String c s' => search_from r (Some c) s'
      end
  end.

Definition re_search (r : regex) (s : string) : bool :=
  match search_from r None s with
  | Some _ => true
  | None => false
  end.

(** [re.findall] and [re.sub(pattern, "", s)] walk the non-overlapping
    matches from the left.  [skip] counts the characters of the current
    match still to pass. *)
Fixpoint finditer (r : regex) (skip : nat) (p : option ascii) (s : string)
  : list rmatch_result :=
  match skip with
  | S k =>
      match s with
      | EmptyString => []
      | String c s' => finditer r k (Some c) s'
      end
  | O =>
      match match_at r p s with
      | Some m =>
          m :: match s with
               | EmptyString => []
               | String c s' => finditer r (len (matched m) - 1) (Some c) s'
               end
      | None =>
          match s with
          | EmptyString => []
          | String c s' => finditer r 0 (Some c) s'
          end
      end
  end.

Definition re_finditer (r : regex) (s : string) : list rmatch_result :=
  finditer r 0 None s.

Fixpoint sub_empty (r : regex) (skip : nat) (p : option ascii) (s : string)
  : string :=
  match s with
  | EmptyString => EmptyString
  | String c s' =>
      match skip with
      | S k => sub_empty r k (Some c) s'
      | O =>
          match match_at r p s with
          | Some m =>
              match len (matched m) with
              | O => String c (sub_empty r 0 (Some c) s')
              | S k => sub_empty r k (Some c) s'
              end
          | None => String c (sub_empty r 0 (Some c) s')
          end
      end
  end.

(** Building blocks for patterns. *)
Definition chr (c : ascii) : regex := Chr (Ascii.eqb c).

Definition chr_i (c : ascii) : regex :=
  Chr (fun x => Ascii.eqb (lower_ascii x) (lower_ascii c)).

Fixpoint lit (s : string) : regex :=
  match s with
  | EmptyString => Eps
  | String c s' => Seq (chr c) (lit s')
  end.

(** A literal under [re.IGNORECASE]. *)
Fixpoint lit_i (s : string) : regex :=
  match s with
  | EmptyString => Eps
  | String c s' => Seq (chr_i c) (lit_i s')
  end.

Definition one_of (cs : string) : ascii -> bool :=
  fun x => existsb (Ascii.eqb x) (list_ascii_of_string cs).

Definition opt (r : regex) : regex := Rep 0 (Some 1) r.
Definition plus (r : regex) : regex := Rep 1 None r.
Definition times (n : nat) (r : regex) : regex := Rep n (Some n) r.

(** [cat [r1; ...; rn]] is the concatenation r1 ... rn. *)
Definition cat (rs : list regex) : regex := fold_right Seq Eps rs.

(** [alts [r1; ...; rn]] is r1|...|rn. *)
Fixpoint alts (rs : list regex) : regex :=
  match rs with
  | [] => Chr (fun _ => false)
  | [r] => r
  | r :: rs' => Alt r (alts rs')
  end.

(** *** The patterns of the scraper *)

(** [re.compile(r"logo", re.IGNORECASE)] (line 138) *)
Definition logo_pattern : regex := lit_i "logo".

(** [r'We (offer|provide|deliver|specialize in) ([^.!?]{10,100})'] with
    [re.IGNORECASE] (line 258) *)
Definition service_pattern : regex :=
  cat [ lit_i "We ";
        Grp 1 (alts [lit_i "offer"; lit_i "provide"; lit_i "deliver";
                     lit_i "specialize in"]);
        chr_i " ";
        Grp 2 (Rep 10 (Some 100) (Chr (fun c => negb (one_of ".!?" c)))) ].

(** [r'\s+(logo|icon|image)$'] with [re.IGNORECASE] (line 289) *)
Definition suffix_pattern : regex :=
  cat [ plus (Chr isspace);
        Grp 1 (alts [lit_i "logo"; lit_i "icon"; lit_i "image"]);
        Eos ].

(** [r'\b\d+\b'] (line 334) *)
Definition number_pattern : regex :=
  cat [ WordB; plus (Chr isdigit); WordB ].

(** [r'\b[A-Za-z0-9._%+-]+@[A-Za-z0-9.-]+\.[A-Z|a-z]{2,}\b'] (line 387);
    the last class holds the bar as a literal character. *)
Definition email_pattern : regex :=
  cat [ WordB;
        plus (Chr (fun c => isalpha c || isdigit c || one_of "._%+-" c));
        chr "@";
        plus (Chr (fun c => isalpha c || isdigit c || one_of ".-" c));
        chr ".";
        Rep 2 None (Chr (fun c => isalpha c || Ascii.eqb c "|"%char));
        WordB ].

(** [r'(?:\+?1[-.\s]?)?\(?([0-9]{3})\)?[-.\s]?([0-9]{3})[-.\s]?([0-9]{4})']
    (line 396) *)
Definition phone_pattern : regex :=
  let sep := Chr (fun c => one_of "-." c || isspace c) in
  cat [ opt (cat [opt (chr "+"); chr "1"; opt sep]);
        opt (chr "(");
        Grp 1 (times 3 (Chr isdigit));
        opt (chr ")");
        opt sep;
        Grp 2 (times 3 (Chr isdigit));
        opt sep;
        Grp 3 (times 4 (Chr isdigit)) ].

(** ** The document tree of BeautifulSoup

    A [Tag] has a name, attributes and contents; a [NavigableString] is a
    piece of text; [Comment] stands for the string kinds that [get_text]
    passes over (comments, declarations and the like).  The
    [BeautifulSoup] object itself is the tag named [[document]]. *)

#[warning="-register-all"]
Inductive node : Type :=
| Tag (name : string) (attrs : list (string * string)) (contents : list node)
| NavigableString (text : string)
| Comment (text : string).

Definition soup (contents : list node) : node := Tag "[document]" [] contents.

(** [tag.descendants]: every node below [n], in document order. *)
Fixpoint descendants (n : node) : list node :=
  match n with
  | Tag _ _ cs => flat_map (fun c => c :: descendants c) cs
  | _ => []
  end.

(** The descendants of [n], each with its chain of ancestors, the nearest
    first; [anc] is the chain of [n] itself. *)
Fixpoint located (anc : list node) (n : node) : list (node * list node) :=
  match n with
  | Tag _ _ cs =>
      flat_map (fun c => (c, n :: anc) :: located (n :: anc) c) cs
  | _ => []
  end.

Definition is_tag (names : list string) (n : node) : bool :=
  match n with
  | Tag nm _ _ => str_in nm names
  | _ => false
  end.

Fixpoint lookup (key : string) (kvs : list (string * string)) : option string :=
  match kvs with
  | [] => None
  | (k, v) :: kvs' => if String.eqb k key then Some v else lookup key kvs'
  end.

(** [tag.get(attr)] *)
Definition get (attr : string) (n : node) : option string :=
  match n with
  | Tag _ ats _ => lookup attr ats
  | _ => None
  end.

(** [tag.get(attr, "")] *)
Definition get_or_empty (attr : string) (n : node) : string :=
  match get attr n with
  | Some v => v
  | None => ""
  end.

(** The keyword filter [attr=True]: the attribute is present. *)
Definition has_attr (attr : string) (n : node) : bool :=
  match get attr n with
  | Some _ => true
  | None => false
  end.

Definition any_tag (n : node) : bool := true.

Definition limited {A : Type} (limit : option nat) (l : list A) : list A :=
  match limit with
  | Some k => firstn k l
  | None => l
  end.

(** [root.find_all(names, <attribute filter>, limit=...)] *)
Definition find_all (names : list string) (test : node -> bool)
  (limit : option nat) (root : node) : list node :=
  limited limit
    (filter (fun n => is_tag names n && test n) (descendants root)).

(** [root.find(names, <attribute filter>)] *)
Definition find_tag (names : list string) (test : node -> bool) (root : node)
  : option node :=
  hd_error (find_all names test (Some 1) root).

(** [soup.find_all(names)] keeping, for each element found, its ancestors. *)
Definition find_all_located (names : list string) (root : node)
  : list (node * list node) :=
  filter (fun e => is_tag names (fst e)) (located [] root).

(** [tag.find_parent(names)] on the chain of ancestors of the tag. *)
Definition find_parent (names : list string) (ancestors : list node)
  : option node :=
  List.find (is_tag names) ancestors.

Definition node_string (strip_it : bool) (n : node) : list string :=
  match n with
  | NavigableString s =>
      if strip_it
      then (if truthy (strip s) then [strip s] else [])
      else [s]
  | _ => []
  end.

(** [tag.get_text()] and [tag.get_text(strip=True)]: the strings below the
    tag, each stripped and dropped when empty under [strip=True], joined
    without a separator. *)
Definition get_text (strip_it : bool) (n : node) : string :=
  String.concat "" (flat_map (node_string strip_it) (descendants n)).

(** [tag.decompose()] for every tag named in [names]: the tree without
    those elements. *)
Fixpoint decompose_all (names : list string) (n : node) : node :=
  match n with
  | Tag nm ats cs =>
      Tag nm ats
        ((fix kept (cs : list node) : list node :=
            match cs with
            | [] => []
            | c :: cs' =>
                if is_tag names c then kept cs'
                else decompose_all names c :: kept cs'
            end) cs)
  | _ => n
  end.

(** ** [urllib.parse]

    [urljoin] and [urlparse] raise [ValueError] on some malformed URLs;
    [None] stands for the exception. *)

Class UrlLib : Type := {
  urljoin : string -> string -> option string;
  urlparse_netloc : string -> option string;
  urlparse_path : string -> option string
}.

(** *** An executable [urllib.parse]

    [urlsplit], [urlparse], [urlunparse] and [urljoin] after CPython's
    [Lib/urllib/parse.py], for URLs without control characters.  Of the
    netloc checks, the one for unbalanced brackets is kept. *)

Module Urllib.

(** The text before the first character satisfying [p], and the text from
    that character on. *)
Fixpoint break_at (p : ascii -> bool) (s : string) : string * string :=
  match s with
  | EmptyString => (EmptyString, EmptyString)
  | String c s' =>
      if p c then (EmptyString, s)
      else let (a, b) := break_at p s' in (String c a, b)
  end.

Definition tail (s : string) : string :=
  match s with
  | EmptyString => EmptyString
  | String _ s' => s'
  end.

Definition has_char (c : ascii) (s : string) : bool :=
  existsb (Ascii.eqb c) (list_ascii_of_string s).

(** [s.split(c)] *)
Fixpoint split_on (c : ascii) (s : string) : list string :=
  match s with
  | EmptyString => [EmptyString]
  | String x s' =>
      if Ascii.eqb x c then EmptyString :: split_on c s'
      else match split_on c s' with
           | [] => [String x EmptyString]
           | w :: ws => String x w :: ws
           end
  end.

Record split_result : Type := SplitResult {
  scheme : string;
  netloc : string;
  path : string;
  params : string;
  query : string;
  fragment : string
}.

Definition scheme_char (c : ascii) : bool :=
  isalpha c || isdigit c || one_of "+-." c.

Definition uses_relative : list string :=
  [""; "ftp"; "http"; "gopher"; "nntp"; "imap"; "wais"; "file"; "https";
   "shttp"; "mms"; "prospero"; "rtsp"; "rtspu"; "sftp"; "svn"; "svn+ssh";
   "ws"; "wss"].

Definition uses_netloc : list string :=
  [""; "ftp"; "http"; "gopher"; "nntp"; "telnet"; "imap"; "wais"; "file";
   "mms"; "https"; "shttp"; "snews"; "prospero"; "rtsp"; "rtspu"; "rsync";
   "svn"; "svn+ssh"; "sftp"; "nfs"; "git"; "git+ssh"; "ws"; "wss"].

Definition uses_params : list string :=
  [""; "ftp"; "hdl"; "prospero"; "http"; "imap"; "https"; "shttp"; "rtsp";
   "rtspu"; "sip"; "sips"; "mms"; "sftp"; "tel"].

(** The scheme of [url], when it has one, and the text after the colon. *)
Definition split_scheme (default : string) (url : string) : string * string :=
  let (head, from_colon) := break_at (Ascii.eqb ":"%char) url in
  match from_colon, head with
  | String _ after_colon, String c0 _ =>
      if isalpha c0 && forallb scheme_char (list_ascii_of_string head)
      then (lower head, after_colon)
      else (default, url)
  | _, _ => (default, url)
  end.

(** [_splitparams] *)
Definition splitparams (url : string) : string * string :=
  let segs := split_on "/"%char url in
  let last_seg := last segs EmptyString in
  let (seg, from_semi) := break_at (Ascii.eqb ";"%char) last_seg in
  match from_semi with
  | EmptyString => (url, EmptyString)
  | String _ ps =>
      (String.concat "/" (removelast segs ++ [seg])%list, ps)
  end.

(** [urlparse(url, scheme=default)] *)
Definition urlparse (default : string) (url : string) : option split_result :=
  let (sch, url1) := split_scheme default url in
  let (loc, url2) :=
    if String.prefix "//" url1
    then break_at (one_of "/?#") (tail (tail url1))
    else (EmptyString, url1) in
  if xorb (has_char "["%char loc) (has_char "]"%char loc) then None
  else
    let (url3, from_hash) := break_at (Ascii.eqb "#"%char) url2 in
    let (url4, from_mark) := break_at (Ascii.eqb "?"%char) url3 in
    let (url5, ps) :=
      if str_in sch uses_params && has_char ";"%char url4
      then splitparams url4 else (url4, EmptyString) in
    Some (SplitResult sch loc url5 ps (tail from_mark) (tail from_hash)).

(** [urlunparse] *)
Definition urlunparse (r : split_result) : string :=
  let url0 :=
    if truthy (params r) then path r ++ ";" ++ params r else path r in
  let url1 :=
    if truthy (netloc r) ||
       (truthy (scheme r) && str_in (scheme r) uses_netloc
        && negb (String.prefix "//" url0))
    then "//" ++ netloc r ++
         (if truthy url0 && negb (String.prefix "/" url0)
          then "/" ++ url0 else url0)
    else url0 in
  let url2 := if truthy (scheme r) then scheme r ++ ":" ++ url1 else url1 in
  let url3 := if truthy (query r) then url2 ++ "?" ++ query r else url2 in
  if truthy (fragment r) then url3 ++ "#" ++ fragment r else url3.

(** The loop of [urljoin] over the path segments. *)
Fixpoint resolve (segments resolved : list string) : list string :=
  match segments with
  | [] => resolved
  | seg :: segments' =>
      if String.eqb seg ".." then resolve segments' (removelast resolved)
      else if String.eqb seg "." then resolve segments' resolved
      else resolve segments' (resolved ++ [seg])%list
  end.

(** [segments[1:-1] = filter(None, segments[1:-1])] *)
Definition drop_empty_inner (segments : list string) : list string :=
  match segments with
  | [] => []
  | [s] => [s]
  | s :: more =>
      (s :: filter truthy (removelast more) ++ [last more EmptyString])%list
  end.

Definition join_path (bpath upath : string) : string :=
  let base_parts :=
    let parts := split_on "/"%char bpath in
    if truthy (last parts EmptyString) then removelast parts else parts in
  let segments :=
    if String.prefix "/" upath then split_on "/"%char upath
    else drop_empty_inner (base_parts ++ split_on "/"%char upath)%list in
  let resolved := resolve segments [] in
  let resolved' :=
    if str_in (last segments EmptyString) ["."; ".."]
    then (resolved ++ [EmptyString])%list else resolved in
  let joined := String.concat "/" resolved' in
  if truthy joined then joined else "/".

Definition urljoin (base url : string) : option string :=
  if negb (truthy base) then Some url
  else if negb (truthy url) then Some base
  else
    match urlparse EmptyString base with
    | None => None
    | Some b =>
        match urlparse (scheme b) url with
        | None => None
        | Some u =>
            if negb (String.eqb (scheme u) (scheme b)) ||
               negb (str_in (scheme u) uses_relative)
            then Some url
            else if str_in (scheme u) uses_netloc && truthy (netloc u)
            then Some (urlunparse u)
            else
              let loc :=
                if str_in (scheme u) uses_netloc then netloc b else netloc u in
              if negb (truthy (path u)) && negb (truthy (params u))
              then Some (urlunparse
                     (SplitResult (scheme u) loc (path b) (params b)
                        (if truthy (query u) then query u else query b)
                        (fragment u)))
              else Some (urlunparse
                     (SplitResult (scheme u) loc (join_path (path b) (path u))
                        (params u) (query u) (fragment u)))
        end
    end.

End Urllib.

Definition urllib_parse : UrlLib := {|
  urljoin := Urllib.urljoin;
  urlparse_netloc := fun u => option_map Urllib.netloc (Urllib.urlparse "" u);
  urlparse_path := fun u => option_map Urllib.path (Urllib.urlparse "" u)
|}.

(** ** [requests]

    What [requests.get] gives for one call: it raises a
    [RequestException] (connection error, timeout, invalid URL, ...) or
    returns a response.  The response carries [status_code], the final
    [url] after redirects, and its [text] as parsed by
    [BeautifulSoup(response.text, "html.parser")]. *)

Inductive fetch_result : Type :=
| RequestException
| Response (status_code : Z) (final_url : string) (document : node).

(** The web as one run sees it: the answer to each of the three [get]
    calls of [scrape_company_profile], as a function of the URL asked. *)
Record web : Type := Web {
  fetch_main : string -> fetch_result;
  fetch_blog : string -> fetch_result;
  fetch_about : string -> fetch_result
}.

(** [response.raise_for_status()] raises [HTTPError] for the client and
    server error codes, 400 to 599, and for no other status. *)
Definition raises_for_status (status_code : Z) : bool :=
  ((400 <=? status_code) && (status_code <? 600))%Z.

(** ** The profile (lines 65-90) *)

Record about_us_t : Type := AboutUs {
  description : option string;
  page_url : option string
}.

Record process_step : Type := ProcessStep {
  step : nat;
  step_description : string
}.

Record article : Type := Article {
  title : string;
  url : option string
}.

Record contact_info_t : Type := ContactInfo {
  contact_page : option string;
  email : option string;
  phone : option string;
  address : option string
}.

Record careers_t : Type := Careers {
  careers_page_url : option string
}.

Record policies_t : Type := Policies {
  privacy_policy : option string;
  returns_policy : option string;
  terms_of_service : option string
}.

Record profile : Type := Profile {
  company_name : option string;
  website : string;
  about_us : about_us_t;
  services : list string;
  clients : list string;
  process : list process_step;
  articles : list article;
  contact_info : contact_info_t;
  careers : careers_t;
  policies : policies_t
}.

Definition initial_profile (target : string) : profile := {|
  company_name := None;
  website := target;
  about_us := {| description := None; page_url := None |};
  services := [];
  clients := [];
  process := [];
  articles := [];
  contact_info :=
    {| contact_page := None; email := None; phone := None; address := None |};
  careers := {| careers_page_url := None |};
  policies :=
    {| privacy_policy := None; returns_policy := None;
       terms_of_service := None |}
|}.

(** Assignments to one key of the profile. *)

Definition set_company_name (v : option string) (p : profile) : profile :=
  Profile v (website p) (about_us p) (services p) (clients p) (process p)
    (articles p) (contact_info p) (careers p) (policies p).

Definition set_about_page_url (v : option string) (p : profile) : profile :=
  Profile (company_name p) (website p)
    (AboutUs (description (about_us p)) v)
    (services p) (clients p) (process p) (articles p) (contact_info p)
    (careers p) (policies p).

Definition set_about_description (v : option string) (p : profile) : profile :=
  Profile (company_name p) (website p)
    (AboutUs v (page_url (about_us p)))
    (services p) (clients p) (process p) (articles p) (contact_info p)
    (careers p) (policies p).

Definition set_services (v : list string) (p : profile) : profile :=
  Profile (company_name p) (website p) (about_us p) v (clients p) (process p)
    (articles p) (contact_info p) (careers p) (policies p).

Definition set_clients (v : list string) (p : profile) : profile :=
  Profile (company_name p) (website p) (about_us p) (services p) v (process p)
    (articles p) (contact_info p) (careers p) (policies p).

Definition set_process (v : list process_step) (p : profile) : profile :=
  Profile (company_name p) (website p) (about_us p) (services p) (clients p) v
    (articles p) (contact_info p) (careers p) (policies p).

Definition set_articles (v : list article) (p : profile) : profile :=
  Profile (company_name p) (website p) (about_us p) (services p) (clients p)
    (process p) v (contact_info p) (careers p) (policies p).

Definition set_contact_info (v : contact_info_t) (p : profile) : profile :=
  Profile (company_name p) (website p) (about_us p) (services p) (clients p)
    (process p) (articles p) v (careers p) (policies p).

Definition set_contact_page (v : option string) (p : profile) : profile :=
  let c := contact_info p in
  set_contact_info (ContactInfo v (email c) (phone c) (address c)) p.

Definition set_email (v : option string) (p : profile) : profile :=
  let c := contact_info p in
  set_contact_info (ContactInfo (contact_page c) v (phone c) (address c)) p.

Definition set_phone (v : option string) (p : profile) : profile :=
  let c := contact_info p in
  set_contact_info (ContactInfo (contact_page c) (email c) v (address c)) p.

Definition set_careers_page_url (v : option string) (p : profile) : profile :=
  Profile (company_name p) (website p) (about_us p) (services p) (clients p)
    (process p) (articles p) (contact_info p) (Careers v) (policies p).

Definition set_policies (v : policies_t) (p : profile) : profile :=
  Profile (company_name p) (website p) (about_us p) (services p) (clients p)
    (process p) (articles p) (contact_info p) (careers p) v.

Definition set_privacy_policy (v : option string) (p : profile) : profile :=
  let q := policies p in
  set_policies (Policies v (returns_policy q) (terms_of_service q)) p.

Definition set_returns_policy (v : option string) (p : profile) : profile :=
  let q := policies p in
  set_policies (Policies (privacy_policy q) v (terms_of_service q)) p.

Definition set_terms_of_service (v : option string) (p : profile) : profile :=
  let q := policies p in
  set_policies (Policies (privacy_policy q) (returns_policy q) v) p.

(** An entry of [all_links] (lines 154-158). *)
Record link_entry : Type := LinkEntry {
  link_url : string;
  link_text : string;
  link_href : string
}.

(** Exceptions: a computation that may raise gives [None]. *)
Definition bind {A B : Type} (m : option A) (f : A -> option B) : option B :=
  match m with
  | Some a => f a
  | None => None
  end.

Notation "x <- m ;; k" := (bind m (fun x => k))
  (at level 61, m at next level, right associativity).

(** [enumerate(xs, start)] *)
Definition enumerate {A : Type} (start : nat) (xs : list A) : list (nat * A) :=
  combine (seq start (List.length xs)) xs.

Definition is_some {A : Type} (o : option A) : bool :=
  match o with
  | Some _ => true
  | None => false
  end.

Definition or_empty (o : option string) : string :=
  match o with
  | Some s => s
  | None => ""
  end.

Definition option_eqb (a b : option string) : bool :=
  match a, b with
  | Some x, Some y => String.eqb x y
  | None, None => true
  | _, _ => false
  end.

(** Equality of two article dictionaries. *)
Definition article_eqb (a b : article) : bool :=
  String.eqb (title a) (title b) && option_eqb (url a) (url b).

Definition article_in (a : article) (l : list article) : bool :=
  existsb (article_eqb a) l.

Definition headings : list string := ["h1"; "h2"; "h3"; "h4"; "h5"].
Definition containers : list string := ["div"; "section"; "article"; "main"].
Definition inner_headings : list string := ["h3"; "h4"; "h5"].

(** [any(keyword in text for keyword in keywords)] *)
Definition any_in (keywords : list string) (text : string) : bool :=
  existsb (fun keyword => contains keyword text) keywords.

(** [any(word in link["href"] or word in link["text"] for word in words)] *)
Definition link_mentions (words : list string) (link : link_entry) : bool :=
  existsb (fun word =>
             contains word (link_href link) || contains word (link_text link))
    words.

(** ** [scrape_company_profile] (lines 61-429) *)

Section Scraper.

Context {U : UrlLib}.

(** *** Company name (lines 127-141) *)

(** The third separator of line 129, the three characters U+00E2 U+20AC
    U+201C (a mis-decoded dash), as its UTF-8 bytes. *)
Definition dash_separator : string :=
  String "195" (String "162" (String "226" (String "130" (String "172"
    (String "226" (String "128" (String "156" EmptyString))))))).

Definition name_from_title (title_tag : node) : string :=
  let title_text := strip (get_text false title_tag) in
  strip (split_head dash_separator
           (split_head "-" (split_head "|" title_text))).

Definition is_og_site_name (n : node) : bool :=
  match get "property" n with
  | Some v => String.eqb v "og:site_name"
  | None => false
  end.

Definition alt_has_logo (n : node) : bool :=
  match get "alt" n with
  | Some v => re_search logo_pattern v
  | None => false
  end.

Definition name_from_logo (alt : string) : string :=
  strip (remove_all "Logo" (remove_all "logo" alt)).

Definition extract_company_name (doc : node) (p : profile) : profile :=
  let p1 :=
    match find_tag ["title"] any_tag doc with
    | Some title_tag => set_company_name (Some (name_from_title title_tag)) p
    | None => p
    end in
  let p2 :=
    match find_tag ["meta"] is_og_site_name doc with
    | Some og_site_name =>
        if truthy_opt (get "content" og_site_name)
        then set_company_name
               (Some (strip (get_or_empty "content" og_site_name))) p1
        else p1
    | None => p1
    end in
  match find_tag ["img"] alt_has_logo doc with
  | Some logo =>
      if truthy_opt (get "alt" logo)
      then set_company_name
             (Some (name_from_logo (get_or_empty "alt" logo))) p2
      else p2
  | None => p2
  end.

(** *** The link catalog (lines 145-158) *)

(** The test of line 153; the right operand of [or] is evaluated only when
    the left one is false. *)
Definition same_domain (final_url href full_url : string) : option bool :=
  a <- urlparse_netloc full_url;;
  b <- urlparse_netloc final_url;;
  if String.eqb a b then Some true
  else c <- urlparse_netloc href;; Some (negb (truthy c)).

Fixpoint collect_links (final_url : string) (anchors : list node)
  (all_links : list link_entry) : option (list link_entry) :=
  match anchors with
  | [] => Some all_links
  | a :: anchors' =>
      let href := get_or_empty "href" a in
      let text := get_text true a in
      full_url <- urljoin final_url href;;
      keep <- same_domain final_url href full_url;;
      collect_links final_url anchors'
        (if keep
         then (all_links ++ [LinkEntry full_url (lower text) (lower href)])%list
         else all_links)
  end.

(** *** Key pages (lines 166-217) *)

Definition about_like (link : link_entry) : bool :=
  contains "about" (link_href link) || contains "about" (link_text link).

(** The test of line 168 for a candidate [link] against the page chosen so
    far. *)
Definition about_replaces (link : link_entry) (chosen : option string)
  : option bool :=
  if negb (truthy_opt chosen) then Some true
  else
    chosen_path <- urlparse_path (or_empty chosen);;
    Some (len (link_href link) <? len chosen_path)%nat.

Fixpoint find_about (all_links : list link_entry) (chosen : option string)
  : option (option string) :=
  match all_links with
  | [] => Some chosen
  | link :: all_links' =>
      if about_like link then
        replace <- about_replaces link chosen;;
        find_about all_links' (if replace then Some (link_url link) else chosen)
      else find_about all_links' chosen
  end.

(** A loop that assigns the first matching link and breaks. *)
Definition first_link (test : link_entry -> bool) (all_links : list link_entry)
  : option string :=
  option_map link_url (List.find test all_links).

Definition is_contact (link : link_entry) : bool :=
  contains "contact" (link_href link) || contains "contact" (link_text link).

Definition is_careers (link : link_entry) : bool :=
  link_mentions ["career"; "job"; "hiring"; "join"] link.

Definition is_privacy (link : link_entry) : bool :=
  contains "privacy" (link_href link) || contains "privacy" (link_text link).

(** Line 203. *)
Definition is_returns (link : link_entry) : bool :=
  contains "return" (link_href link) || contains "refund" (link_href link)
  || contains "return" (link_text link).

Definition is_terms (link : link_entry) : bool :=
  link_mentions ["term"; "condition"; "tos"] link.

(** A key of the profile is assigned only when a link was found. *)
Definition assign_found (set : option string -> profile -> profile)
  (found : option string) (p : profile) : profile :=
  match found with
  | Some u => set (Some u) p
  | None => p
  end.

Definition find_key_pages (all_links : list link_entry) (p : profile)
  : option profile :=
  about <- find_about all_links (page_url (about_us p));;
  let p1 := set_about_page_url about p in
  let p2 := assign_found set_contact_page (first_link is_contact all_links) p1 in
  let p3 :=
    assign_found set_careers_page_url (first_link is_careers all_links) p2 in
  let p4 :=
    assign_found set_privacy_policy (first_link is_privacy all_links) p3 in
  let p5 :=
    assign_found set_returns_policy (first_link is_returns all_links) p4 in
  Some (assign_found set_terms_of_service (first_link is_terms all_links) p5).

(** *** Services (lines 223-263) *)

Definition service_keywords : list string :=
  ["service"; "solution"; "offer"; "product"; "expertise"; "specialization"].

(** Lines 235-241. *)
Definition services_from_lists (parent : node) (found : list string)
  : list string :=
  fold_left
    (fun acc ul =>
       fold_left
         (fun acc li =>
            let service := get_text true li in
            if truthy service && (3 <? len service)%nat
               && (len service <? 200)%nat
            then if negb (str_in service acc)
                 then (acc ++ [service])%list else acc
            else acc)
         (find_all ["li"] any_tag None ul) acc)
    (find_all ["ul"; "ol"] any_tag (Some 5) parent) found.

(** Lines 244-254. *)
Definition services_from_cards (parent : node) (found : list string)
  : list string :=
  fold_left
    (fun acc div =>
       let text := get_text true div in
       if (10 <? len text)%nat && (len text <? 300)%nat then
         match find_tag inner_headings any_tag div with
         | Some inner_heading =>
             let service := get_text true inner_heading in
             if negb (str_in service acc) && (3 <? len service)%nat
             then (acc ++ [service])%list else acc
         | None => acc
         end
       else acc)
    (find_all ["div"] (has_attr "class") (Some 20) parent) found.

(** The loop over the headings of the page, shared by the three heading
    anchored extractors: [visit parent acc] is the body run for a heading
    whose text mentions a keyword and that has a container. *)
Definition for_keyword_headings {A : Type} (keywords : list string)
  (visit : node -> A -> A) (doc : node) (found : A) : A :=
  fold_left
    (fun acc heading =>
       let heading_text := lower (get_text true (fst heading)) in
       if any_in keywords heading_text then
         match find_parent containers (snd heading) with
         | Some parent => visit parent acc
         | None => acc
         end
       else acc)
    (find_all_located headings doc) found.

(** Lines 257-263. *)
Definition services_from_text (doc : node) (found : list string)
  : list string :=
  let body_text := get_text false doc in
  fold_left
    (fun acc m =>
       let service := strip (group 2 (groups m)) in
       if negb (str_in service acc) && (10 <? len service)%nat
       then (acc ++ [service])%list else acc)
    (re_finditer service_pattern body_text) found.

Definition extract_services (doc : node) (p : profile) : profile :=
  let method1 :=
    for_keyword_headings service_keywords
      (fun parent acc => services_from_cards parent (services_from_lists parent acc))
      doc (services p) in
  set_services (services_from_text doc method1) p.

(** *** Clients (lines 271-300) *)

Definition client_keywords : list string :=
  ["client"; "customer"; "partner"; "trust"; "work with"; "portfolio"].

(** Lines 282-292. *)
Definition clients_from_images (parent : node) (found : list string)
  : list string :=
  fold_left
    (fun acc img =>
       let alt := strip (get_or_empty "alt" img) in
       let img_title := strip (get_or_empty "title" img) in
       let client_name := if truthy alt then alt else img_title in
       if truthy client_name && (1 <? len client_name)%nat
          && (len client_name <? 100)%nat
       then
         let client_name' := sub_empty suffix_pattern 0 None client_name in
         if negb (str_in client_name' acc)
         then (acc ++ [client_name'])%list else acc
       else acc)
    (find_all ["img"] any_tag None parent) found.

(** Lines 295-300. *)
Definition clients_from_text (parent : node) (found : list string)
  : list string :=
  fold_left
    (fun acc elem =>
       let text := get_text true elem in
       if (2 <? len text)%nat && (len text <? 50)%nat
          && negb (str_in text acc)
       then (acc ++ [text])%list else acc)
    (find_all ["li"; "span"; "p"; "div"] any_tag None parent) found.

Definition extract_clients (doc : node) (p : profile) : profile :=
  set_clients
    (for_keyword_headings client_keywords
       (fun parent acc => clients_from_text parent (clients_from_images parent acc))
       doc (clients p))
    p.

(** *** Process (lines 307-339) *)

Definition process_keywords : list string :=
  ["process"; "methodology"; "approach"; "how we"; "workflow"; "step"].

(** Lines 318-326: the items of every ordered list, counted from 1 in each
    list. *)
Definition steps_from_list (ol : node) (found : list process_step)
  : list process_step :=
  fold_left
    (fun acc item =>
       let step_text := get_text true (snd item) in
       if truthy step_text && (5 <? len step_text)%nat
       then (acc ++ [ProcessStep (fst item) step_text])%list else acc)
    (enumerate 1 (find_all ["li"] any_tag None ol)) found.

Definition steps_from_lists (parent : node) (found : list process_step)
  : list process_step :=
  fold_left (fun acc ol => steps_from_list ol acc)
    (find_all ["ol"] any_tag None parent) found.

(** Lines 329-339: the counter starts one past the number of steps held
    when the loop begins. *)
Definition steps_from_divs (parent : node) (found : list process_step)
  : list process_step :=
  let step_divs := find_all ["div"; "article"] (has_attr "class") (Some 10) parent in
  fold_left
    (fun acc item =>
       let text := get_text true (snd item) in
       if (10 <? len text)%nat && (len text <? 500)%nat then
         if re_search number_pattern (slice_to 50 text)
            || is_some (find_tag inner_headings any_tag (snd item))
         then (acc ++ [ProcessStep (fst item) (slice_to 300 text)])%list
         else acc
       else acc)
    (enumerate (List.length found + 1) step_divs) found.

Definition process_section (parent : node) (found : list process_step)
  : list process_step :=
  steps_from_divs parent (steps_from_lists parent found).

Definition extract_process (doc : node) (p : profile) : profile :=
  set_process
    (for_keyword_headings process_keywords process_section doc (process p)) p.

(** *** Articles (lines 347-377) *)

Definition blog_keywords : list string :=
  ["blog"; "article"; "news"; "insight"; "resource"; "post"].

Definition title_tags : list string := ["h1"; "h2"; "h3"; "h4"; "a"].

(** The loop of lines 361-375 inside the [try]: an exception raised by
    [urljoin] leaves the loop, and the [except] clause keeps the articles
    appended so far. *)
Fixpoint scan_articles (blog_url : string) (elems : list node)
  (found : list article) : list article :=
  match elems with
  | [] => found
  | elem :: elems' =>
      match find_tag title_tags any_tag elem with
      | None => scan_articles blog_url elems' found
      | Some title_elem =>
          let title_text := get_text true title_elem in
          let link :=
            if is_tag ["a"] title_elem then get "href" title_elem else None in
          if truthy title_text && (5 <? len title_text)%nat
             && (len title_text <? 200)%nat
          then
            let resolved :=
              if truthy_opt link
              then option_map Some (urljoin blog_url (or_empty link))
              else Some None in
            match resolved with
            | None => found
            | Some target =>
                let article_data := Article title_text target in
                scan_articles blog_url elems'
                  (if negb (article_in article_data found)
                   then (found ++ [article_data])%list else found)
            end
          else scan_articles blog_url elems' found
      end
  end.

Definition extract_articles (w : web) (all_links : list link_entry)
  (p : profile) : profile :=
  let blog_urls := map link_url (filter (link_mentions blog_keywords) all_links) in
  match blog_urls with
  | [] => p
  | blog_url :: _ =>
      match fetch_blog w blog_url with
      | RequestException => p
      | Response _ _ blog_soup =>
          set_articles
            (scan_articles blog_url
               (find_all ["article"; "div"] (has_attr "class") (Some 15) blog_soup)
               (articles p))
            p
      end
  end.

(** *** Contact information (lines 384-401) *)

Definition placeholder_domains : list string :=
  ["example.com"; "domain.com"; "email.com"].

(** The comprehension of line 390. *)
Definition keep_email (e : string) : bool :=
  negb (existsb (fun x => contains x (lower e)) placeholder_domains).

Definition find_emails (body_text : string) : list string :=
  filter keep_email (map matched (re_finditer email_pattern body_text)).

Definition format_phone (m : rmatch_result) : string :=
  group 1 (groups m) ++ "-" ++ group 2 (groups m) ++ "-" ++ group 3 (groups m).

Definition extract_contact_info (doc : node) (p : profile) : profile :=
  let body_text := get_text false doc in
  let p1 :=
    match find_emails body_text with
    | e :: _ => set_email (Some e) p
    | [] => p
    end in
  match re_finditer phone_pattern body_text with
  | m :: _ => set_phone (Some (format_phone m)) p1
  | [] => p1
  end.

(** *** The About Us page (lines 404-427) *)

(** The loop of lines 416-421, with its [break] at three paragraphs. *)
Fixpoint meaningful_paragraphs (ps : list node) (paragraphs : list string)
  : list string :=
  match ps with
  | [] => paragraphs
  | p :: ps' =>
      let text := get_text true p in
      if (50 <? len text)%nat then
        let paragraphs' := (paragraphs ++ [text])%list in
        if (3 <=? List.length paragraphs')%nat then paragraphs'
        else meaningful_paragraphs ps' paragraphs'
      else meaningful_paragraphs ps' paragraphs
  end.

Definition about_description (about_soup : node) : option string :=
  let cleaned :=
    decompose_all ["script"; "style"; "nav"; "footer"; "header"] about_soup in
  match meaningful_paragraphs (find_all ["p"] any_tag None cleaned) [] with
  | [] => None
  | paragraphs => Some (join " " paragraphs)
  end.

Definition scrape_about_page (w : web) (p : profile) : profile :=
  if truthy_opt (page_url (about_us p)) then
    match fetch_about w (or_empty (page_url (about_us p))) with
    | RequestException => p
    | Response _ _ about_soup =>
        match about_description about_soup with
        | Some text => set_about_description (Some text) p
        | None => p
        end
    end
  else p.

(** *** The whole run

    [None] is an exception that leaves [scrape_company_profile]: a
    [ValueError] of [urllib.parse] raised outside a [try], while the links
    are collected or the About page is chosen.  The parser call of line
    111 and the debug dump of lines 114-121 stand outside a [try] as well;
    they are not modelled, and an exception of theirs is not a [None]
    here. *)

Definition extract_profile (w : web) (final_url : string) (doc : node)
  (p : profile) : option profile :=
  let p1 := extract_company_name doc p in
  all_links <-
    collect_links final_url (find_all ["a"] (has_attr "href") None doc) [];;
  p2 <- find_key_pages all_links p1;;
  let p3 := extract_services doc p2 in
  let p4 := extract_clients doc p3 in
  let p5 := extract_process doc p4 in
  let p6 := extract_articles w all_links p5 in
  let p7 := extract_contact_info doc p6 in
  Some (scrape_about_page w p7).

Definition scrape_company_profile (w : web) (target : string)
  : option profile :=
  let p := initial_profile target in
  match fetch_main w target with
  | RequestException => Some p
  | Response status_code final_url doc =>
      if raises_for_status status_code then Some p
      else extract_profile w final_url doc p
  end.

End Scraper.

(** ** [print_profile] (lines 432-495)

    The report as the list of the strings handed to [print], one per
    call; [print] ends each with a newline. *)

(** [str(n)] for a natural number. *)
Definition str_of_nat (n : nat) : string :=
  NilEmpty.string_of_uint (Nat.to_uint n).

Definition newline : string := String "010" EmptyString.

















(** ** [save_to_json] (lines 498-504)

    The text that [json.dump(profile, f, indent=2, ensure_ascii=False)]
    writes: keys in insertion order, two spaces per level, [", "] never
    used (items are separated by a comma and a newline), [None] as
    [null], an empty list as [[]]. *)

Definition quote : string := String "034" EmptyString.
Definition backslash : string := String "092" EmptyString.

Definition hex_digit (n : nat) : string :=
  String.substring n 1 "0123456789abcdef".

(** The replacement of one character in [encode_basestring]: the quote,
    the backslash and the characters below U+0020 are escaped. *)
Definition escape_char (c : ascii) : string :=
  let n := nat_of_ascii c in
  if (n =? 34)%nat then backslash ++ quote
  else if (n =? 92)%nat then backslash ++ backslash
  else if (n =? 8)%nat then backslash ++ "b"
  else if (n =? 12)%nat then backslash ++ "f"
  else if (n =? 10)%nat then backslash ++ "n"
  else if (n =? 13)%nat then backslash ++ "r"
  else if (n =? 9)%nat then backslash ++ "t"
  else if (n <? 32)%nat
  then backslash ++ "u00" ++ hex_digit (n / 16) ++ hex_digit (n mod 16)
  else String c EmptyString.

Fixpoint escape (s : string) : string :=
  match s with
  | EmptyString => EmptyString
  | String c s' => escape_char c ++ escape s'
  end.

Definition json_string (s : string) : string := quote ++ escape s ++ quote.

Definition json_optional (o : option string) : string :=
  match o with
  | Some s => json_string s
  | None => "null"
  end.

(** The items of a non-empty list after the first, and the closing
    bracket: [inner] is the indentation of the items, [outer] that of the
    bracket. *)
Fixpoint json_items {A : Type} (item : A -> string) (inner outer : string)
  (l : list A) : string :=
  match l with
  | [] => newline ++ outer ++ "]"
  | x :: l' => "," ++ newline ++ inner ++ item x ++ json_items item inner outer l'
  end.

Definition json_list {A : Type} (item : A -> string) (inner outer : string)
  (l : list A) : string :=
  match l with
  | [] => "[]"
  | x :: l' => "[" ++ newline ++ inner ++ item x ++ json_items item inner outer l'
  end.

Definition json_key (indent key : string) : string :=
  indent ++ quote ++ key ++ quote ++ ": ".

Definition json_step (st : process_step) : string :=
  "{" ++ newline
  ++ json_key "      " "step" ++ str_of_nat (step st) ++ "," ++ newline
  ++ json_key "      " "description" ++ json_string (step_description st)
  ++ newline ++ "    }".

Definition json_article (a : article) : string :=
  "{" ++ newline
  ++ json_key "      " "title" ++ json_string (title a) ++ "," ++ newline
  ++ json_key "      " "url" ++ json_optional (url a)
  ++ newline ++ "    }".

Definition save_to_json (p : profile) : string :=
  "{" ++ newline
  ++ json_key "  " "company_name" ++ json_optional (company_name p)
  ++ "," ++ newline
  ++ json_key "  " "website" ++ json_string (website p) ++ "," ++ newline
  ++ json_key "  " "about_us" ++ "{" ++ newline
  ++ json_key "    " "description"
  ++ json_optional (description (about_us p)) ++ "," ++ newline
  ++ json_key "    " "page_url" ++ json_optional (page_url (about_us p))
  ++ newline ++ "  }," ++ newline
  ++ json_key "  " "services"
  ++ json_list json_string "    " "  " (services p) ++ "," ++ newline
  ++ json_key "  " "clients"
  ++ json_list json_string "    " "  " (clients p) ++ "," ++ newline
  ++ json_key "  " "process"
  ++ json_list json_step "    " "  " (process p) ++ "," ++ newline
  ++ json_key "  " "articles"
  ++ json_list json_article "    " "  " (articles p) ++ "," ++ newline
  ++ json_key "  " "contact_info" ++ "{" ++ newline
  ++ json_key "    " "contact_page"
  ++ json_optional (contact_page (contact_info p)) ++ "," ++ newline
  ++ json_key "    " "email"
  ++ json_optional (email (contact_info p)) ++ "," ++ newline
  ++ json_key "    " "phone"
  ++ json_optional (phone (contact_info p)) ++ "," ++ newline
  ++ json_key "    " "address"
  ++ json_optional (address (contact_info p))
  ++ newline ++ "  }," ++ newline
  ++ json_key "  " "careers" ++ "{" ++ newline
  ++ json_key "    " "page_url"
  ++ json_optional (careers_page_url (careers p))
  ++ newline ++ "  }," ++ newline
  ++ json_key "  " "policies" ++ "{" ++ newline
  ++ json_key "    " "privacy_policy"
  ++ json_optional (privacy_policy (policies p)) ++ "," ++ newline
  ++ json_key "    " "returns_policy"
  ++ json_optional (returns_policy (policies p)) ++ "," ++ newline
  ++ json_key "    " "terms_of_service"
  ++ json_optional (terms_of_service (policies p))
  ++ newline ++ "  }" ++ newline ++ "}".

(** ** Sample pages

    Small documents and webs on which the statements below are run. *)

Module Sample.

Definition txt : string -> node := NavigableString.
Definition anchor (href label : string) : node :=
  Tag "a" [("href", href)] [txt label].
Definition li (label : string) : node := Tag "li" [] [txt label].
Definition page (head body : list node) : node :=
  soup [Tag "html" [] [Tag "head" [] head; Tag "body" [] body]].
Definition title_tag (t : string) : node := Tag "title" [] [txt t].

Definition home_url : string := "https://acme.com/".

(** A web that serves [doc] as the main page and nothing else. *)
Definition only_main (status : Z) (doc : node) : web :=
  Web (fun _ => Response status home_url doc)
      (fun _ => RequestException)
      (fun _ => RequestException).

(** A home page with navigation, a process list, services, clients and
    contact details. *)
Definition home : node :=
  page
    [ title_tag " Acme Corp | Solutions " ]
    [ Tag "nav" []
        [ anchor "/about-us/our-story" "Our Story";
          anchor "/about" "About";
          anchor "https://other.org/contact" "Contact";
          anchor "/Contact-Us" "Reach us";
          anchor "/blog" "Blog";
          anchor "/jobs" "Jobs" ];
      Tag "div" []
        [ Tag "h2" [] [txt "Our Process"];
          Tag "ol" [] [li "Discover needs"; li "Design solution"; li "Deliver results"] ];
      Tag "section" []
        [ Tag "h2" [] [txt "Our Services"];
          Tag "ul" [] [li "Consulting"; li "Consulting"; li "Design"];
          Tag "div" [("class", "card")]
            [ Tag "h3" [] [txt "Cloud Migration"];
              Tag "p" [] [txt "We move you."] ] ];
      Tag "section" []
        [ Tag "h2" [] [txt "Trusted by our clients"];
          Tag "img" [("alt", "Globex Logo")] [];
          Tag "img" [("alt", "Initech")] [];
          Tag "span" [] [txt "Initech"] ];
      Tag "p" []
        [ txt "Contact us at sales@acme.com today or call (555) 123-4567." ] ].

Definition blog : node :=
  soup
    [ Tag "div" [("class", "post")] [anchor "/blog/one" "First post here"];
      Tag "div" [("class", "post")] [Tag "h2" [] [txt "Second post"]];
      Tag "div" [("class", "post")] [anchor "/blog/one" "First post here"] ].

Definition about : node :=
  soup
    [ Tag "nav" [] [Tag "p" [] [txt "Home, Products, Services, Customers, Company, Careers, Contact"]];
      Tag "p" []
        [txt "Acme Corp has been building rockets and anvils for coyotes since 1949."];
      Tag "p" [] [txt "Too short."] ].

Definition acme : web :=
  Web (fun _ => Response 200 home_url home)
      (fun _ => Response 200 "https://acme.com/blog" blog)
      (fun _ => Response 200 "https://acme.com/about" about).

(** The profile that [scrape_company_profile] returns on [acme]. *)
Definition acme_profile : profile := {|
  company_name := Some "Globex";
  website := "http://acme.com";
  about_us :=
    {| description :=
         Some "Acme Corp has been building rockets and anvils for coyotes since 1949.";
       page_url := Some "https://acme.com/about" |};
  services := ["Consulting"; "Design"; "Cloud Migration"];
  clients := ["Globex"; "Initech"];
  process :=
    [ ProcessStep 1 "Discover needs"; ProcessStep 2 "Design solution";
      ProcessStep 3 "Deliver results" ];
  articles :=
    [ Article "First post here" (Some "https://acme.com/blog/one");
      Article "Second post" None ];
  contact_info :=
    {| contact_page := Some "https://acme.com/Contact-Us";
       email := Some "sales@acme.com";
       phone := Some "555-123-4567";
       address := None |};
  careers := {| careers_page_url := Some "https://acme.com/jobs" |};
  policies :=
    {| privacy_policy := None; returns_policy := None;
       terms_of_service := None |}
|}.

(** The same web with both secondary pages unreachable. *)
Definition acme_offline_pages : web :=
  Web (fetch_main acme) (fun _ => RequestException) (fun _ => RequestException).

(** The two about-like links of the example, as root-relative hrefs and as
    absolute hrefs. *)
Definition about_relative : node :=
  page [] [ anchor "/about-us/our-story" "Our Story"; anchor "/about" "About" ].

Definition about_absolute : node :=
  page []
    [ anchor "https://acme.com/about-us/our-story" "Our Story";
      anchor "https://acme.com/about" "About" ].

(** Identity sources. *)
Definition og_meta (content : string) : node :=
  Tag "meta" [("property", "og:site_name"); ("content", content)] [].

Definition titled : node := page [title_tag "Acme Corp | Solutions"] [].

Definition titled_with_og : node :=
  page [title_tag "Acme Corp | Solutions"; og_meta "Acme"] [].

Definition titled_with_bare_logo : node :=
  page [title_tag "Acme Corp | Solutions"]
       [Tag "img" [("alt", "logo"); ("src", "/logo.png")] []].

(** A returns policy that only the link text announces, by "refund". *)
Definition refund_page : node :=
  page [] [ anchor "/policies/money-back" "Refund Policy" ].

(** Error pages served with a failing status. *)
Definition not_found_page : node :=
  soup
    [ Tag "div" [("class", "error")]
        [ Tag "h1" [] [txt "Page not found"];
          Tag "p" []
            [txt "The page you are looking for has moved or never existed on this server."] ] ].

Definition links_page : node :=
  page [] [ anchor "/about" "About"; anchor "/blog" "Blog" ].

Definition acme_missing_pages : web :=
  Web (fun _ => Response 200 home_url links_page)
      (fun _ => Response 404 "https://acme.com/blog" not_found_page)
      (fun _ => Response 404 "https://acme.com/about" not_found_page).

(** Pages whose visible text holds one e-mail address. *)
Definition text_page (body_text : string) : node :=
  page [] [Tag "p" [] [txt body_text]].

(** A process heading followed by an ordered list of three items. *)
Definition process_list : node :=
  Tag "ol" [] [li "Discover needs"; li "Design solution"; li "Deliver results"].

Definition process_container : node :=
  Tag "div" [] [Tag "h2" [] [txt "Our Process"]; process_list].

Definition process_page : node := page [] [process_container].

(** The same section with a second item of four characters. *)
Definition gap_list : node :=
  Tag "ol" [] [li "Discover needs"; li "Plan"; li "Deliver results"].

Definition gap_container : node :=
  Tag "div" [] [Tag "h2" [] [txt "Our Process"]; gap_list].

Definition gap_page : node := page [] [gap_container].

(** The link catalog of [home]: the off-site Contact link is left out. *)
Definition home_links : list link_entry :=
  [ LinkEntry "https://acme.com/about-us/our-story" "our story"
      "/about-us/our-story";
    LinkEntry "https://acme.com/about" "about" "/about";
    LinkEntry "https://acme.com/Contact-Us" "reach us" "/contact-us";
    LinkEntry "https://acme.com/blog" "blog" "/blog";
    LinkEntry "https://acme.com/jobs" "jobs" "/jobs" ].

(** A profile whose strings need escaping in JSON. *)
Definition odd_profile : profile := {|
  company_name := Some (String "034" "Acme" ++ String "034" (String "092" " Corp"));
  website := "http://acme.com";
  about_us := {| description := Some (String "009" "tab" ++ String "010" "line" ++ String "001" (String "031" (String "127" "end"))); page_url := None |};
  services := ["Consulting"];
  clients := [];
  process := [ ProcessStep 1 "Discover needs"; ProcessStep 12 "Deliver" ];
  articles := [ Article "First" (Some "https://acme.com/blog/one"); Article "Second" None ];
  contact_info :=
    {| contact_page := None; email := Some "sales@acme.com"; phone := None;
       address := None |};
  careers := {| careers_page_url := None |};
  policies :=
    {| privacy_policy := None; returns_policy := None;
       terms_of_service := Some "" |}
|}.

(** A page with a link that [urljoin] rejects: the bracket of an IPv6
    host is not closed. *)
Definition broken_link : node := anchor "http://[acme.com/about" "About".

Definition broken_link_page : node :=
  page [title_tag "Acme Corp"] [anchor "/contact" "Contact"; broken_link].

End Sample.

(** ** Vocabulary of the statements *)

(** The fields that a stage does not assign. *)
Definition same_lists (p p' : profile) : Prop :=
  services p' = services p /\ clients p' = clients p /\
  articles p' = articles p.

Definition same_address (p p' : profile) : Prop :=
  address (contact_info p') = address (contact_info p).

(** The three sequences of a profile hold no duplicates. *)
Definition unique_lists (p : profile) : Prop :=
  NoDup (services p) /\ NoDup (clients p) /\ NoDup (articles p).

(** The primary fetch fails: [requests.get] raised, or
    [raise_for_status] did (lines 102-109). *)
Definition primary_fetch_failed (r : fetch_result) : bool :=
  match r with
  | RequestException => true
  | Response status_code _ _ => raises_for_status status_code
  end.

(** A status outside 200..299. *)
Definition non_2xx (status_code : Z) : bool :=
  negb ((200 <=? status_code) && (status_code <? 300))%Z.

(** Every key of the profile at its initial value, [website] apart. *)
Definition all_defaults (p : profile) : Prop :=
  company_name p = None /\
  about_us p = AboutUs None None /\
  services p = [] /\ clients p = [] /\ process p = [] /\ articles p = [] /\
  contact_info p = ContactInfo None None None None /\
  careers p = Careers None /\
  policies p = Policies None None None.

(** The name that [og:site_name] proposes, when the tag is there and its
    [content] is not empty (lines 132-134). *)
Definition og_candidate (doc : node) : option string :=
  match find_tag ["meta"] is_og_site_name doc with
  | Some og_site_name =>
      if truthy_opt (get "content" og_site_name)
      then Some (strip (get_or_empty "content" og_site_name))
      else None
  | None => None
  end.

(** The links of a page served at [final_url], as lines 145-158 build
    them. *)
Definition catalog {U : UrlLib} (final_url : string) (doc : node)
  : option (list link_entry) :=
  collect_links final_url (find_all ["a"] (has_attr "href") None doc) [].

(** The returns policy as the specification words it: the first link whose
    href or text holds "return" or "refund". *)
Definition spec_is_returns (link : link_entry) : bool :=
  link_mentions ["return"; "refund"] link.

(** The text after the first [@] of an address. *)
Fixpoint email_domain (e : string) : string :=
  match e with
  | EmptyString => EmptyString
  | String c e' => if Ascii.eqb c "@" then e' else email_domain e'
  end.

(** The e-mail filter as the specification words it: the domain of the
    address is none of the placeholder domains. *)
Definition spec_keep_email (e : string) : bool :=
  negb (str_in (lower (email_domain e)) placeholder_domains).

Definition spec_email (body_text : string) : option string :=
  hd_error
    (filter spec_keep_email (map matched (re_finditer email_pattern body_text))).

(** The e-mail addresses that the pattern finds in the text of a page. *)
Definition email_matches (doc : node) : list string :=
  map matched (re_finditer email_pattern (get_text false doc)).

(** An address that the filter of line 390 drops: its lowercased text
    holds one of the placeholder domains as a substring. *)
Definition is_placeholder (e : string) : bool :=
  existsb (fun d => contains d (lower e)) placeholder_domains.

(** The items of an ordered list as steps: each numbered by its place in
    the list, counted from 1. *)
Definition numbered_steps (items : list node) : list process_step :=
  map (fun item => ProcessStep (fst item) (get_text true (snd item)))
    (enumerate 1 items).

(** An item that the test of line 320 lets through. *)
Definition is_long_item (item : node) : bool :=
  (5 <? len (get_text true item))%nat.

(** The items of an ordered list as steps, the short ones left out: each
    one kept carries its place among all the items of the list, counted
    from 1. *)
Definition positioned_steps (items : list node) : list process_step :=
  map (fun item => ProcessStep (fst item) (get_text true (snd item)))
    (filter (fun item => is_long_item (snd item)) (enumerate 1 items)).

(** The About rule as the specification words it: over the whole catalog,
    the about-like link with the fewest characters in its href, the
    earliest one among equals. *)
Fixpoint shortest_about (all_links : list link_entry)
  (best : option link_entry) : option link_entry :=
  match all_links with
  | [] => best
  | link :: all_links' =>
      if about_like link then
        match best with
        | None => shortest_about all_links' (Some link)
        | Some b =>
            if (len (link_href link) <? len (link_href b))%nat
            then shortest_about all_links' (Some link)
            else shortest_about all_links' best
        end
      else shortest_about all_links' best
  end.

(** [chosen] is the about-like link of the catalog with the shortest
    href, the earliest one among equals: the about-like links before it
    have a longer href, those after it none shorter. *)
Definition first_shortest_about (all_links : list link_entry)
  (chosen : link_entry) : Prop :=
  about_like chosen = true /\
  exists before after,
    all_links = (before ++ chosen :: after)%list /\
    (forall l, In l before -> about_like l = true ->
               len (link_href chosen) < len (link_href l)) /\
    (forall l, In l after -> about_like l = true ->
               len (link_href chosen) <= len (link_href l)).

(** A link whose href is, in length, the path of its own URL: what a
    root-relative href without query or fragment gives. *)
Definition href_is_path {U : UrlLib} (link : link_entry) : Prop :=
  truthy (link_url link) = true /\
  exists p, urlparse_path (link_url link) = Some p /\
            len p = len (link_href link).

(** ** Vocabulary of the further statements *)

(** What a first-match loop leaves in its key: the URL found, or the old
    value when no link matched. *)
Definition found_or (found old : option string) : option string :=
  match found with
  | Some u => Some u
  | None => old
  end.

(** The anchors that the catalog is built from (line 147). *)
Definition anchors (doc : node) : list node :=
  find_all ["a"] (has_attr "href") None doc.

(** The five keys filled by a first-match loop, with the test of each. *)
Definition first_match_pages (all_links : list link_entry) (p : profile)
  : Prop :=
  contact_page (contact_info p) = first_link is_contact all_links /\
  careers_page_url (careers p) = first_link is_careers all_links /\
  privacy_policy (policies p) = first_link is_privacy all_links /\
  returns_policy (policies p) = first_link is_returns all_links /\
  terms_of_service (policies p) = first_link is_terms all_links.

(** The URLs that a profile stores for key pages. *)
Definition key_page_urls (p : profile) : list (option string) :=
  [ page_url (about_us p); contact_page (contact_info p);
    careers_page_url (careers p); privacy_policy (policies p);
    returns_policy (policies p); terms_of_service (policies p) ].

(** [entry] is the catalog entry of the anchor [a] of a page served at
    [final_url]: the resolved URL, the lowercased text and href, and the
    same-domain test of line 153 passed. *)
Definition entry_of {U : UrlLib} (final_url : string) (a : node)
  (entry : link_entry) : Prop :=
  urljoin final_url (get_or_empty "href" a) = Some (link_url entry) /\
  link_text entry = lower (get_text true a) /\
  link_href entry = lower (get_or_empty "href" a) /\
  same_domain final_url (get_or_empty "href" a) (link_url entry) = Some true.

(** [u] is the URL of a link of the catalog that passes [test]. *)
Definition url_of_link (test : link_entry -> bool)
  (all_links : list link_entry) (u : string) : Prop :=
  exists link, In link all_links /\ test link = true /\ link_url link = u.



(** *** What a pattern matches

    The meaning of a pattern as a relation between the position where a
    match starts and the position where it ends, against which the
    backtracking matcher is checked. *)

(** [n] steps of a relation. *)
Fixpoint iter {A : Type} (n : nat) (R : A -> A -> Prop) (a b : A) : Prop :=
  match n with
  | O => b = a
  | S n' => exists m, R a m /\ iter n' R m b
  end.

Definition within (n : nat) (hi : option nat) : Prop :=
  match hi with
  | Some h => n <= h
  | None => True
  end.

Fixpoint sem (r : regex) (st st' : mstate) : Prop :=
  match r with
  | Eps => st' = st
  | Chr p =>
      exists c s,
        rest st = String c s /\ p c = true /\
        st' = MState (Some c) s (caps st)
  | Seq r1 r2 => exists m, sem r1 st m /\ sem r2 m st'
  | Alt r1 r2 => sem r1 st st' \/ sem r2 st st'
  | Rep lo hi r0 => exists n, lo <= n /\ within n hi /\ iter n (sem r0) st st'
  | Grp i r0 =>
      exists m,
        sem r0 st m /\
        st' = MState (prev m) (rest m) ((i, consumed st m) :: caps m)
  | WordB =>
      st' = st /\
      xorb (isword_opt (prev st)) (isword_opt (next_char (rest st))) = true
  | Eos =>
      st' = st /\
      (String.eqb (rest st) "" || String.eqb (rest st) (String "010" "")) = true
  end.

(** Every character of [s] passes [p]. *)
Definition all_chars (p : ascii -> bool) (s : string) : bool :=
  forallb p (list_ascii_of_string s).

(** The shape [ddd-ddd-dddd]. *)
Definition phone_shaped (s : string) : bool :=
  match list_ascii_of_string s with
  | [a; b; c; d1; e; f; g; d2; h; i; j; k] =>
      forallb isdigit [a; b; c; e; f; g; h; i; j; k]
      && Ascii.eqb d1 "-" && Ascii.eqb d2 "-"
  | _ => false
  end.

(** A pattern without capturing groups. *)
Fixpoint plain (r : regex) : bool :=
  match r with
  | Seq r1 r2 | Alt r1 r2 => plain r1 && plain r2
  | Rep _ _ r0 => plain r0
  | Grp _ _ => false
  | _ => true
  end.

(** The shape of an address: a local part, [@], a domain, a dot and a
    last label of two characters or more, each over the characters of its
    class in the pattern. *)
Definition email_shaped (e : string) : Prop :=
  exists l d t,
    e = l ++ "@" ++ d ++ "." ++ t /\
    1 <= len l /\ 1 <= len d /\ 2 <= len t /\
    all_chars (fun c => isalpha c || isdigit c || one_of "._%+-" c) l = true /\
    all_chars (fun c => isalpha c || isdigit c || one_of ".-" c) d = true /\
    all_chars (fun c => isalpha c || Ascii.eqb c "|") t = true.

(** The elements that the About enrichment removes before it reads the
    paragraphs (line 411). *)
Definition removed_tags : list string :=
  ["script"; "style"; "nav"; "footer"; "header"].

(** A profile without what the secondary pages contribute. *)
Definition without_secondary (p : profile) : profile :=
  set_articles [] (set_about_description None p).

(** A printer whose output can be read back from the front of a text,
    whatever follows it. *)
Definition self_delimiting {A : Type} (enc : A -> string) : Prop :=
  forall a b s t, enc a ++ s = enc b ++ t -> a = b /\ s = t.

Definition hex_value (c : ascii) : nat :=
  let n := nat_of_ascii c in
  if (n <? 58)%nat then n - 48 else n - 87.

(** Reading one escaped character back from the front of a text; the
    inverse of [escape_char], used to show that [escape] loses nothing. *)
Definition unescape_char (s : string) : option (ascii * string) :=
  match s with
  | EmptyString => None
  | String c r =>
      if (nat_of_ascii c =? 34)%nat then None
      else if (nat_of_ascii c =? 92)%nat then
        match r with
        | String e r' =>
            if (nat_of_ascii e =? 34)%nat then Some (e, r')
            else if (nat_of_ascii e =? 92)%nat then Some (e, r')
            else if Ascii.eqb e "b" then Some (ascii_of_nat 8, r')
            else if Ascii.eqb e "f" then Some (ascii_of_nat 12, r')
            else if Ascii.eqb e "n" then Some (ascii_of_nat 10, r')
            else if Ascii.eqb e "r" then Some (ascii_of_nat 13, r')
            else if Ascii.eqb e "t" then Some (ascii_of_nat 9, r')
            else
              match r' with
              | String _ (String _ (String h (String l r''))) =>
                  Some (ascii_of_nat (16 * hex_value h + hex_value l), r'')
              | _ => None
              end
        | EmptyString => None
        end
      else Some (c, r)
  end.

(** * Properties *)

(** ** Lists without duplicates *)

Lemma str_in_false (x : string) (l : list string) :
  str_in x l = false -> ~ In x l.
Proof.
  unfold str_in. intros Hnot Hin.
  assert (Hyes : existsb (String.eqb x) l = true).
  { apply existsb_exists. exists x. split; [exact Hin | apply String.eqb_refl]. }
  congruence.
Qed.

Lemma option_eqb_refl (o : option string) : option_eqb o o = true.
Proof. destruct o; simpl; [apply String.eqb_refl | reflexivity]. Qed.

Lemma article_in_false (a : article) (l : list article) :
  article_in a l = false -> ~ In a l.
Proof.
  unfold article_in. intros Hnot Hin.
  assert (Hyes : existsb (article_eqb a) l = true).
  { apply existsb_exists. exists a. split; [exact Hin |].
    unfold article_eqb. now rewrite String.eqb_refl, option_eqb_refl. }
  congruence.
Qed.

Lemma NoDup_snoc {A : Type} (l : list A) (x : A) :
  NoDup l -> ~ In x l -> NoDup (l ++ [x]).
Proof.
  induction l as [| y l IH]; simpl; intros Hl Hx.
  - constructor; [intros [] | constructor].
  - inversion Hl as [| ? ? Hy Hl']; subst. constructor.
    + rewrite in_app_iff. simpl. intros [Hin | [Heq | []]].
      * now apply Hy.
      * apply Hx. now left.
    + apply IH; [exact Hl' | intro Hin; apply Hx; now right].
Qed.

(** An append guarded by a membership test keeps a list duplicate-free. *)
Lemma guarded_append (x : string) (l : list string) :
  NoDup l -> NoDup (if negb (str_in x l) then l ++ [x] else l)%list.
Proof.
  intro Hl. destruct (str_in x l) eqn:Hin; simpl; [exact Hl |].
  apply NoDup_snoc; [exact Hl | now apply str_in_false].
Qed.

Lemma fold_left_invariant {A B : Type} (P : A -> Prop) (f : A -> B -> A)
  (l : list B) (a : A) :
  P a -> (forall a' b, P a' -> P (f a' b)) -> P (fold_left f l a).
Proof.
  intros Ha Hf. revert a Ha.
  induction l as [| b l IH]; simpl; intros a Ha; [exact Ha |].
  apply IH. now apply Hf.
Qed.

Lemma for_keyword_headings_invariant {A : Type} (P : A -> Prop)
  (keywords : list string) (visit : node -> A -> A) (doc : node) (found : A) :
  P found -> (forall parent acc, P acc -> P (visit parent acc)) ->
  P (for_keyword_headings keywords visit doc found).
Proof.
  intros Hfound Hvisit. unfold for_keyword_headings.
  apply fold_left_invariant; [exact Hfound |].
  intros acc heading Hacc.
  destruct (any_in keywords _); [| exact Hacc].
  destruct (find_parent containers _); [now apply Hvisit | exact Hacc].
Qed.

Lemma services_from_lists_NoDup (parent : node) (found : list string) :
  NoDup found -> NoDup (services_from_lists parent found).
Proof.
  intro Hfound. unfold services_from_lists.
  apply fold_left_invariant; [exact Hfound |].
  intros acc ul Hacc.
  apply fold_left_invariant; [exact Hacc |].
  intros acc' item Hacc'.
  destruct (truthy _ && _ && _); [| exact Hacc'].
  now apply guarded_append.
Qed.

Lemma services_from_cards_NoDup (parent : node) (found : list string) :
  NoDup found -> NoDup (services_from_cards parent found).
Proof.
  intro Hfound. unfold services_from_cards.
  apply fold_left_invariant; [exact Hfound |].
  intros acc div Hacc.
  destruct (_ && _); [| exact Hacc].
  destruct (find_tag inner_headings any_tag div) as [inner |]; [| exact Hacc].
  destruct (str_in (get_text true inner) acc) eqn:Hin; simpl; [exact Hacc |].
  destruct (3 <? _)%nat; [| exact Hacc].
  apply NoDup_snoc; [exact Hacc | now apply str_in_false].
Qed.

Lemma services_from_text_NoDup (doc : node) (found : list string) :
  NoDup found -> NoDup (services_from_text doc found).
Proof.
  intro Hfound. unfold services_from_text.
  apply fold_left_invariant; [exact Hfound |].
  intros acc m Hacc.
  destruct (str_in (strip (group 2 (groups m))) acc) eqn:Hin; simpl;
    [exact Hacc |].
  destruct (10 <? _)%nat; [| exact Hacc].
  apply NoDup_snoc; [exact Hacc | now apply str_in_false].
Qed.

Lemma clients_from_images_NoDup (parent : node) (found : list string) :
  NoDup found -> NoDup (clients_from_images parent found).
Proof.
  intro Hfound. unfold clients_from_images.
  apply fold_left_invariant; [exact Hfound |].
  intros acc img Hacc. cbv zeta.
  destruct (truthy _ && _ && _); [| exact Hacc].
  now apply guarded_append.
Qed.

Lemma clients_from_text_NoDup (parent : node) (found : list string) :
  NoDup found -> NoDup (clients_from_text parent found).
Proof.
  intro Hfound. unfold clients_from_text.
  apply fold_left_invariant; [exact Hfound |].
  intros acc elem Hacc. cbv zeta.
  destruct (str_in (get_text true elem) acc) eqn:Hin.
  - now rewrite !andb_false_r.
  - destruct (_ && _ && _); [| exact Hacc].
    apply NoDup_snoc; [exact Hacc | now apply str_in_false].
Qed.

Section RunProperties.

Context {U : UrlLib}.

Lemma scan_articles_NoDup (blog_url : string) (elems : list node)
  (found : list article) :
  NoDup found -> NoDup (scan_articles blog_url elems found).
Proof.
  revert found.
  induction elems as [| elem elems IH]; simpl; intros found Hfound;
    [exact Hfound |].
  destruct (find_tag title_tags any_tag elem) as [title_elem |];
    [| now apply IH].
  destruct (truthy _ && _ && _); [| now apply IH].
  match goal with
  | |- NoDup (match ?r with _ => _ end) => destruct r as [target |]
  end; [| exact Hfound].
  apply IH.
  destruct (article_in _ found) eqn:Hin; simpl; [exact Hfound |].
  apply NoDup_snoc; [exact Hfound | now apply article_in_false].
Qed.

(** *** What each stage leaves alone *)

Ltac by_cases :=
  repeat match goal with
         | |- context [match ?x with _ => _ end] => destruct x
         end;
  simpl; auto.

Lemma extract_company_name_frame (doc : node) (p : profile) :
  same_lists p (extract_company_name doc p) /\
  same_address p (extract_company_name doc p).
Proof. unfold same_lists, same_address, extract_company_name. by_cases. Qed.

Lemma assign_found_frame (set : option string -> profile -> profile)
  (found : option string) (p : profile) :
  (forall v q, same_lists q (set v q) /\ same_address q (set v q)) ->
  same_lists p (assign_found set found p) /\
  same_address p (assign_found set found p).
Proof.
  intro Hset. unfold assign_found. destruct found; [apply Hset |].
  unfold same_lists, same_address. auto.
Qed.

Lemma frame_trans (p q r : profile) :
  same_lists p q /\ same_address p q ->
  same_lists q r /\ same_address q r ->
  same_lists p r /\ same_address p r.
Proof.
  unfold same_lists, same_address.
  intros [(H1 & H2 & H3) H4] [(K1 & K2 & K3) K4].
  repeat split; congruence.
Qed.

Lemma find_key_pages_frame (all_links : list link_entry) (p p' : profile) :
  find_key_pages all_links p = Some p' ->
  same_lists p p' /\ same_address p p'.
Proof.
  unfold find_key_pages, bind.
  destruct (find_about all_links (page_url (about_us p))) as [about |];
    [| discriminate].
  intro H. injection H as <-.
  repeat (eapply frame_trans;
          [| apply assign_found_frame; intros v q;
             unfold same_lists, same_address; simpl; auto]).
  unfold same_lists, same_address. simpl. auto.
Qed.

Lemma extract_contact_info_frame (doc : node) (p : profile) :
  same_lists p (extract_contact_info doc p) /\
  same_address p (extract_contact_info doc p).
Proof. unfold same_lists, same_address, extract_contact_info. by_cases. Qed.

Lemma scrape_about_page_frame (w : web) (p : profile) :
  same_lists p (scrape_about_page w p) /\
  same_address p (scrape_about_page w p).
Proof. unfold same_lists, same_address, scrape_about_page. by_cases. Qed.

Lemma extract_articles_frame (w : web) (all_links : list link_entry)
  (p : profile) :
  services (extract_articles w all_links p) = services p /\
  clients (extract_articles w all_links p) = clients p /\
  same_address p (extract_articles w all_links p).
Proof. unfold same_address, extract_articles. by_cases. Qed.

Lemma extract_articles_NoDup (w : web) (all_links : list link_entry)
  (p : profile) :
  NoDup (articles p) -> NoDup (articles (extract_articles w all_links p)).
Proof.
  intro Hp. unfold extract_articles.
  destruct (map link_url _) as [| blog_url rest]; [exact Hp |].
  destruct (fetch_blog w blog_url); [exact Hp |].
  simpl. now apply scan_articles_NoDup.
Qed.

Lemma extract_services_NoDup (doc : node) (p : profile) :
  NoDup (services p) -> NoDup (services (extract_services doc p)).
Proof.
  intro Hp. unfold extract_services. simpl.
  apply services_from_text_NoDup.
  apply for_keyword_headings_invariant; [exact Hp |].
  intros parent acc Hacc.
  now apply services_from_cards_NoDup, services_from_lists_NoDup.
Qed.

Lemma extract_clients_NoDup (doc : node) (p : profile) :
  NoDup (clients p) -> NoDup (clients (extract_clients doc p)).
Proof.
  intro Hp. unfold extract_clients. simpl.
  apply for_keyword_headings_invariant; [exact Hp |].
  intros parent acc Hacc.
  now apply clients_from_text_NoDup, clients_from_images_NoDup.
Qed.

Lemma extract_profile_unique (w : web) (final_url : string) (doc : node)
  (p p' : profile) :
  unique_lists p ->
  extract_profile w final_url doc p = Some p' ->
  unique_lists p'.
Proof.
  intros (Hs & Hc & Ha). unfold extract_profile, bind.
  destruct (collect_links final_url _ []) as [all_links |]; [| discriminate].
  destruct (find_key_pages all_links (extract_company_name doc p))
    as [p2 |] eqn:Hkey; [| discriminate].
  intro H. injection H as <-.
  apply find_key_pages_frame in Hkey. destruct Hkey as [(K1 & K2 & K3) _].
  destruct (extract_company_name_frame doc p) as [(N1 & N2 & N3) _].
  rewrite N1 in K1. rewrite N2 in K2. rewrite N3 in K3.
  rewrite <- K1 in Hs. rewrite <- K2 in Hc. rewrite <- K3 in Ha.
  set (p3 := extract_services doc p2).
  set (p4 := extract_clients doc p3).
  set (p5 := extract_process doc p4).
  set (p6 := extract_articles w all_links p5).
  set (p7 := extract_contact_info doc p6).
  destruct (scrape_about_page_frame w p7) as [(A1 & A2 & A3) _].
  destruct (extract_contact_info_frame doc p6) as [(C1 & C2 & C3) _].
  destruct (extract_articles_frame w all_links p5) as (R1 & R2 & _).
  unfold unique_lists. rewrite A1, A2, A3. unfold p7. rewrite C1, C2, C3.
  unfold p6 at 1 2. rewrite R1, R2.
  repeat split.
  - change (services p5) with (services p3). now apply extract_services_NoDup.
  - change (clients p5) with (clients p4).
    apply extract_clients_NoDup. exact Hc.
  - apply extract_articles_NoDup. exact Ha.
Qed.

(** C2.  Whenever a run returns a profile, its [services] and [clients]
    hold no string twice and its [articles] hold no (title, url) pair
    twice, whatever the pages fetched. *)
Theorem profile_lists_have_no_duplicates (w : web) (target : string)
  (p : profile) :
  scrape_company_profile w target = Some p ->
  NoDup (services p) /\ NoDup (clients p) /\ NoDup (articles p).
Proof.
  assert (Hinit : unique_lists (initial_profile target)).
  { unfold unique_lists. simpl. repeat split; constructor. }
  unfold scrape_company_profile.
  destruct (fetch_main w target) as [| status_code final_url doc].
  - intro H. injection H as <-. exact Hinit.
  - destruct (raises_for_status status_code).
    + intro H. injection H as <-. exact Hinit.
    + now apply extract_profile_unique.
Qed.

End RunProperties.

(** ** The run as a whole *)

Section WholeRun.

Context {U : UrlLib}.

Lemma extract_services_frame (doc : node) (p : profile) :
  same_address p (extract_services doc p).
Proof. reflexivity. Qed.

Lemma extract_clients_frame (doc : node) (p : profile) :
  same_address p (extract_clients doc p).
Proof. reflexivity. Qed.

Lemma extract_process_frame (doc : node) (p : profile) :
  same_address p (extract_process doc p).
Proof. reflexivity. Qed.

Lemma extract_profile_address (w : web) (final_url : string) (doc : node)
  (p p' : profile) :
  extract_profile w final_url doc p = Some p' -> same_address p p'.
Proof.
  unfold extract_profile, bind.
  destruct (collect_links final_url _ []) as [all_links |]; [| discriminate].
  destruct (find_key_pages all_links (extract_company_name doc p))
    as [p2 |] eqn:Hkey; [| discriminate].
  intro H. injection H as <-.
  apply find_key_pages_frame in Hkey. destruct Hkey as [_ K].
  destruct (extract_company_name_frame doc p) as [_ N].
  unfold same_address in *.
  rewrite (proj2 (scrape_about_page_frame w _)).
  rewrite (proj2 (extract_contact_info_frame doc _)).
  rewrite (proj2 (proj2 (extract_articles_frame w all_links _))).
  rewrite extract_process_frame, extract_clients_frame, extract_services_frame.
  congruence.
Qed.

(** C10.  The [contact_info] record of every returned profile has its
    [address] key, and the key holds [None]: no step of the run assigns
    it. *)
Theorem address_is_always_none (w : web) (target : string) (p : profile) :
  scrape_company_profile w target = Some p ->
  address (contact_info p) = None.
Proof.
  unfold scrape_company_profile.
  destruct (fetch_main w target) as [| status_code final_url doc].
  - intro H. injection H as <-. reflexivity.
  - destruct (raises_for_status status_code).
    + intro H. injection H as <-. reflexivity.
    + intro H. apply extract_profile_address in H. exact H.
Qed.

(** C1, as the code has it.  When the primary fetch fails, by an exception
    of [requests.get] (network error, timeout) or by a status from 400 to
    599 that [raise_for_status] rejects, the run returns a profile, raises
    nothing, and every key holds its initial value except [website], which
    holds the requested URL. *)
Theorem primary_failure_returns_default_profile (w : web) (target : string) :
  primary_fetch_failed (fetch_main w target) = true ->
  exists p,
    scrape_company_profile w target = Some p /\
    website p = target /\ all_defaults p.
Proof.
  intro Hfail. exists (initial_profile target).
  unfold scrape_company_profile.
  destruct (fetch_main w target) as [| status_code final_url doc];
    simpl in Hfail.
  - repeat split.
  - rewrite Hfail. repeat split.
Qed.

End WholeRun.

(** C2 at the sample web. *)
Lemma profile_lists_have_no_duplicates_witness :
  scrape_company_profile (U := urllib_parse) Sample.acme "http://acme.com"
    = Some Sample.acme_profile /\
  (NoDup (services Sample.acme_profile) /\
   NoDup (clients Sample.acme_profile) /\
   NoDup (articles Sample.acme_profile)).
Proof.
  split; [vm_compute; reflexivity |].
  apply (profile_lists_have_no_duplicates (U := urllib_parse)
           Sample.acme "http://acme.com").
  vm_compute. reflexivity.
Defined.

(** C10 at the sample web. *)
Lemma address_is_always_none_witness :
  scrape_company_profile (U := urllib_parse) Sample.acme "http://acme.com"
    = Some Sample.acme_profile /\
  address (contact_info Sample.acme_profile) = None.
Proof.
  split; [vm_compute; reflexivity |].
  apply (address_is_always_none (U := urllib_parse)
           Sample.acme "http://acme.com").
  vm_compute. reflexivity.
Defined.

(** C1 at a server that answers 503. *)
Lemma primary_failure_returns_default_profile_witness :
  primary_fetch_failed
    (fetch_main (Sample.only_main 503 Sample.home) Sample.home_url) = true /\
  exists p,
    scrape_company_profile (U := urllib_parse)
      (Sample.only_main 503 Sample.home) Sample.home_url = Some p /\
    website p = Sample.home_url /\ all_defaults p.
Proof.
  split; [reflexivity |].
  apply (primary_failure_returns_default_profile (U := urllib_parse)
           (Sample.only_main 503 Sample.home) Sample.home_url).
  reflexivity.
Defined.

(** The statuses outside 2xx that [raise_for_status] lets through. *)
Lemma accepted_non_2xx (status_code : Z) :
  non_2xx status_code = true /\ raises_for_status status_code = false <->
  (status_code < 200 \/ 300 <= status_code < 400 \/ 600 <= status_code)%Z.
Proof.
  unfold non_2xx, raises_for_status.
  rewrite negb_true_iff, !andb_false_iff, !Z.leb_gt, !Z.ltb_ge. lia.
Qed.

(** C1 as claimed fails: a status outside 2xx that [raise_for_status]
    accepts.  The server answers 300 with a page; the page is parsed and
    its title becomes the company name. *)
Lemma primary_non_2xx_counterexample :
  non_2xx 300 = true /\
  scrape_company_profile (U := urllib_parse)
    (Sample.only_main 300 Sample.titled) Sample.home_url
  = Some (set_company_name (Some "Acme Corp")
            (initial_profile Sample.home_url)) /\
  ~ all_defaults (set_company_name (Some "Acme Corp")
                    (initial_profile Sample.home_url)).
Proof.
  split; [reflexivity |]. split; [vm_compute; reflexivity |].
  intros (Hname & _). discriminate Hname.
Qed.

(** ** Company name *)

Lemma find_tag_test (names : list string) (test : node -> bool) (root n : node) :
  find_tag names test root = Some n -> test n = true.
Proof.
  unfold find_tag, find_all, limited.
  set (l := filter _ (descendants root)).
  assert (Hl : forall x, In x l -> test x = true).
  { intros x Hx. apply filter_In in Hx. destruct Hx as [_ Hx].
    now apply andb_true_iff in Hx. }
  destruct l as [| x l']; simpl; [discriminate |].
  intro H. injection H as <-. apply Hl. now left.
Qed.

(** An [alt] that matches the logo pattern is not empty. *)
Lemma logo_alt_truthy (logo : node) :
  alt_has_logo logo = true -> truthy_opt (get "alt" logo) = true.
Proof.
  unfold alt_has_logo. destruct (get "alt" logo) as [v |]; [| discriminate].
  destruct v as [| c v]; [discriminate | reflexivity].
Qed.

(** C5, as the code has it.  The company name is resolved last-match-wins
    over the title's first segment, the [og:site_name] content and the logo
    alt text: a logo image, when there is one, decides; otherwise an
    [og:site_name] tag with a non-empty [content]; otherwise the title;
    otherwise the name is left as it was.  A source that is present
    assigns its result whether or not the result is empty.  On a page
    titled "Acme Corp | Solutions" the name is "Acme Corp", and "Acme"
    when an [og:site_name] of that content is added. *)
Theorem company_name_last_match_wins :
  (forall (doc : node) (p : profile),
     company_name (extract_company_name doc p) =
     match find_tag ["img"] alt_has_logo doc with
     | Some logo => Some (name_from_logo (get_or_empty "alt" logo))
     | None =>
         match og_candidate doc with
         | Some name => Some name
         | None =>
             match find_tag ["title"] any_tag doc with
             | Some title_tag => Some (name_from_title title_tag)
             | None => company_name p
             end
         end
     end) /\
  company_name
    (extract_company_name Sample.titled (initial_profile Sample.home_url))
    = Some "Acme Corp" /\
  company_name
    (extract_company_name Sample.titled_with_og
       (initial_profile Sample.home_url))
    = Some "Acme".
Proof.
  split; [| split; vm_compute; reflexivity].
  intros doc p. unfold extract_company_name, og_candidate.
  destruct (find_tag ["img"] alt_has_logo doc) as [logo |] eqn:Hlogo.
  - apply find_tag_test in Hlogo. rewrite (logo_alt_truthy logo Hlogo).
    reflexivity.
  - destruct (find_tag ["meta"] is_og_site_name doc) as [og |].
    + destruct (truthy_opt (get "content" og)); [reflexivity |].
      destruct (find_tag ["title"] any_tag doc); reflexivity.
    + destruct (find_tag ["title"] any_tag doc); reflexivity.
Qed.

(** C5 as claimed fails: an empty result does overwrite the name.  The
    page is titled "Acme Corp | Solutions" and carries an image whose alt
    is "logo"; stripping "logo" leaves nothing, and the empty string
    replaces "Acme Corp". *)
Lemma empty_name_overwrites_counterexample :
  name_from_logo "logo" = "" /\
  company_name
    (extract_company_name Sample.titled (initial_profile Sample.home_url))
    = Some "Acme Corp" /\
  company_name
    (extract_company_name Sample.titled_with_bare_logo
       (initial_profile Sample.home_url))
    = Some "".
Proof. repeat split; vm_compute; reflexivity. Qed.

(** ** Key pages *)

(** A first-match loop takes the first link of the catalog that passes
    its test. *)
Lemma first_link_is_first_match (test : link_entry -> bool)
  (all_links : list link_entry) (u : string) :
  first_link test all_links = Some u ->
  exists before link rest,
    all_links = (before ++ link :: rest)%list /\
    link_url link = u /\ test link = true /\
    forall l, In l before -> test l = false.
Proof.
  unfold first_link.
  induction all_links as [| l ls IH]; simpl; [discriminate |].
  destruct (test l) eqn:Hl.
  - simpl. intro H. injection H as <-.
    exists [], l, ls. repeat split; [exact Hl | intros ? []].
  - intro H. destruct (IH H) as (before & link & rest & -> & Hu & Ht & Hb).
    exists (l :: before), link, rest. repeat split; [exact Hu | exact Ht |].
    intros x [<- | Hx]; [exact Hl | now apply Hb].
Qed.

(** The test of line 203 is the rule of the specification without its
    case for "refund" in the link text. *)
Lemma is_returns_misses_refund_text (link : link_entry) :
  spec_is_returns link
  = is_returns link || contains "refund" (link_text link).
Proof.
  unfold spec_is_returns, is_returns, link_mentions. simpl.
  destruct (contains "return" (link_href link));
    destruct (contains "return" (link_text link));
    destruct (contains "refund" (link_href link));
    destruct (contains "refund" (link_text link)); reflexivity.
Qed.

(** C6, evaluated where it fails.  The page has one link, to
    [/policies/money-back], labelled "Refund Policy".  Its text holds
    "refund", so the rule of the specification selects it, but line 203
    looks for "refund" in the href only and the returns policy stays
    unset. *)
Theorem refund_in_link_text_is_not_matched :
  catalog (U := urllib_parse) Sample.home_url Sample.refund_page
    = Some [LinkEntry "https://acme.com/policies/money-back"
              "refund policy" "/policies/money-back"] /\
  first_link spec_is_returns
    [LinkEntry "https://acme.com/policies/money-back"
       "refund policy" "/policies/money-back"]
    = Some "https://acme.com/policies/money-back" /\
  option_map (fun p => returns_policy (policies p))
    (scrape_company_profile (U := urllib_parse)
       (Sample.only_main 200 Sample.refund_page) Sample.home_url)
    = Some None.
Proof. repeat split; vm_compute; reflexivity. Qed.

(** ** Secondary pages *)

(** An exception of a secondary [requests.get] is caught: the enrichment
    is skipped and the profile is left as it was. *)
Lemma secondary_exception_is_skipped {U : UrlLib} (w : web)
  (all_links : list link_entry) (p : profile) :
  (forall u, fetch_blog w u = RequestException) ->
  (forall u, fetch_about w u = RequestException) ->
  extract_articles w all_links p = p /\ scrape_about_page w p = p.
Proof.
  intros Hblog Habout. split.
  - unfold extract_articles.
    destruct (map link_url _); [reflexivity | now rewrite Hblog].
  - unfold scrape_about_page.
    destruct (truthy_opt _); [now rewrite Habout | reflexivity].
Qed.

(** The About enrichment does not depend on the status of the response. *)
Lemma about_status_is_ignored {U : UrlLib} (w1 w2 : web) (p : profile)
  (s1 s2 : Z) (u1 u2 : string) (about_soup : node) :
  (forall u, fetch_about w1 u = Response s1 u1 about_soup) ->
  (forall u, fetch_about w2 u = Response s2 u2 about_soup) ->
  scrape_about_page w1 p = scrape_about_page w2 p.
Proof.
  intros H1 H2. unfold scrape_about_page.
  destruct (truthy_opt _); [| reflexivity].
  now rewrite H1, H2.
Qed.

(** C7, evaluated where it fails.  The home page links to [/about] and
    [/blog]; the server answers both with status 404 and an error page.
    Neither secondary fetch looks at the status: the error page's
    paragraph becomes the About description and its heading becomes an
    article. *)
Theorem secondary_error_status_is_scraped :
  option_map (fun p => (description (about_us p), articles p))
    (scrape_company_profile (U := urllib_parse)
       Sample.acme_missing_pages Sample.home_url)
  = Some
      (Some "The page you are looking for has moved or never existed on this server.",
       [Article "Page not found" None]).
Proof. vm_compute. reflexivity. Qed.

(** ** Contact e-mail *)

Lemma is_placeholder_spec (e : string) :
  is_placeholder e = true <->
  exists d, In d placeholder_domains /\ contains d (lower e) = true.
Proof. unfold is_placeholder. apply existsb_exists. Qed.

Lemma filter_first {A : Type} (f : A -> bool) (before : list A) (x : A)
  (rest : list A) :
  forallb (fun y => negb (f y)) before = true -> f x = true ->
  filter f (before ++ x :: rest) = x :: filter f rest.
Proof.
  intros Hbefore Hx.
  induction before as [| y before IH]; simpl in *.
  - now rewrite Hx.
  - apply andb_true_iff in Hbefore. destruct Hbefore as [Hy Hbefore].
    destruct (f y); [discriminate | now apply IH].
Qed.

Lemma filter_none {A : Type} (f : A -> bool) (l : list A) :
  forallb (fun y => negb (f y)) l = true -> filter f l = [].
Proof.
  induction l as [| y l IH]; simpl; [reflexivity |].
  intro H. apply andb_true_iff in H. destruct H as [Hy Hl].
  destruct (f y); [discriminate | now apply IH].
Qed.

Lemma forallb_placeholder (l : list string) :
  forallb is_placeholder l = true ->
  forallb (fun y => negb (keep_email y)) l = true.
Proof.
  induction l as [| y l IH]; simpl; [reflexivity |].
  intro H. apply andb_true_iff in H. destruct H as [Hy Hl].
  apply andb_true_iff. split; [| now apply IH].
  unfold keep_email. fold (is_placeholder y).
  now rewrite Hy.
Qed.

Lemma email_after_phone (doc : node) (p : profile) :
  email (contact_info (extract_contact_info doc p)) =
  match find_emails (get_text false doc) with
  | e :: _ => Some e
  | [] => email (contact_info p)
  end.
Proof.
  unfold extract_contact_info.
  destruct (re_finditer phone_pattern _); destruct (find_emails _); reflexivity.
Qed.

(** C8, as the code has it.  The contact e-mail is the first address
    matched by the pattern in the page's text whose lowercased text holds
    none of "example.com", "domain.com", "email.com" as a substring; when
    every match holds one, the e-mail is left unset.  The text "Contact us
    at sales@acme.com today" gives "sales@acme.com"; a text whose only
    address is "example@example.com" gives none. *)
Theorem contact_email_is_first_unfiltered :
  (forall (doc : node) (p : profile) (before : list string) (e : string)
          (rest : list string),
     email_matches doc = (before ++ e :: rest)%list ->
     forallb is_placeholder before = true ->
     is_placeholder e = false ->
     email (contact_info (extract_contact_info doc p)) = Some e) /\
  (forall (doc : node) (p : profile),
     forallb is_placeholder (email_matches doc) = true ->
     email (contact_info (extract_contact_info doc p))
     = email (contact_info p)) /\
  email (contact_info
           (extract_contact_info
              (Sample.text_page "Contact us at sales@acme.com today")
              (initial_profile Sample.home_url)))
    = Some "sales@acme.com" /\
  email (contact_info
           (extract_contact_info
              (Sample.text_page "reach us at example@example.com")
              (initial_profile Sample.home_url)))
    = None.
Proof.
  split; [| split; [| split; vm_compute; reflexivity]].
  - intros doc p before e rest Hmatches Hbefore He.
    rewrite email_after_phone. unfold find_emails.
    fold (email_matches doc). rewrite Hmatches.
    rewrite filter_first; [reflexivity | now apply forallb_placeholder |].
    unfold keep_email. fold (is_placeholder e). now rewrite He.
  - intros doc p Hall.
    rewrite email_after_phone. unfold find_emails.
    fold (email_matches doc).
    now rewrite filter_none by now apply forallb_placeholder.
Qed.

(** C8 at a text with a placeholder address before a real one. *)
Lemma contact_email_is_first_unfiltered_witness :
  let doc :=
    Sample.text_page "Mail example@example.com or sales@acme.com today" in
  email_matches doc = (["example@example.com"] ++ "sales@acme.com" :: [])%list /\
  forallb is_placeholder ["example@example.com"] = true /\
  is_placeholder "sales@acme.com" = false /\
  email (contact_info
           (extract_contact_info doc (initial_profile Sample.home_url)))
    = Some "sales@acme.com".
Proof.
  intro doc.
  assert (Hm : email_matches doc
               = (["example@example.com"] ++ "sales@acme.com" :: [])%list)
    by (vm_compute; reflexivity).
  assert (Hb : forallb is_placeholder ["example@example.com"] = true)
    by (vm_compute; reflexivity).
  assert (He : is_placeholder "sales@acme.com" = false)
    by (vm_compute; reflexivity).
  split; [exact Hm |]. split; [exact Hb |]. split; [exact He |].
  exact (proj1 contact_email_is_first_unfiltered doc
           (initial_profile Sample.home_url) _ _ _ Hm Hb He).
Defined.

(** C8 as claimed fails: the filter is a substring test on the whole
    address, not a test of its domain.  The only address of the text is
    "info@myemail.com"; its domain "myemail.com" is no placeholder domain,
    so the claim selects it, but it holds "email.com" and is dropped. *)
Lemma email_domain_counterexample :
  email_domain "info@myemail.com" = "myemail.com" /\
  str_in "myemail.com" placeholder_domains = false /\
  spec_email "write to info@myemail.com" = Some "info@myemail.com" /\
  email (contact_info
           (extract_contact_info
              (Sample.text_page "write to info@myemail.com")
              (initial_profile Sample.home_url)))
    = None.
Proof. repeat split; vm_compute; reflexivity. Qed.

(** ** Process steps *)

Lemma long_is_truthy (s : string) (n : nat) :
  (n <? len s)%nat = true -> truthy s = true.
Proof.
  destruct s; simpl; [| reflexivity].
  intro H. apply Nat.ltb_lt in H. simpl in H. lia.
Qed.

Lemma steps_of_items (items : list (nat * node)) (found : list process_step) :
  fold_left
    (fun acc item =>
       let step_text := get_text true (snd item) in
       if truthy step_text && (5 <? len step_text)%nat
       then (acc ++ [ProcessStep (fst item) step_text])%list else acc)
    items found
  = (found
     ++ map (fun item => ProcessStep (fst item) (get_text true (snd item)))
          (filter (fun item => is_long_item (snd item)) items))%list.
Proof.
  revert found.
  induction items as [| item items IH]; intro found; cbn [fold_left filter].
  - cbn [map]. now rewrite app_nil_r.
  - rewrite IH. cbv zeta. unfold is_long_item at 2.
    destruct (5 <? len (get_text true (snd item)))%nat eqn:H5.
    + rewrite (long_is_truthy _ _ H5).
      cbn [andb map]. now rewrite <- app_assoc.
    + now rewrite andb_false_r.
Qed.

Lemma steps_from_list_positions (ol : node) (found : list process_step) :
  steps_from_list ol found
  = (found ++ positioned_steps (find_all ["li"] any_tag None ol))%list.
Proof. unfold steps_from_list, positioned_steps. apply steps_of_items. Qed.

Lemma in_enumerate {A : Type} (start i : nat) (x : A) (xs : list A) :
  In (i, x) (enumerate start xs) <->
  start <= i /\ nth_error xs (i - start) = Some x.
Proof.
  unfold enumerate. revert start.
  induction xs as [| y xs IH]; intro start; cbn [List.length seq combine].
  - split; [intros [] | intros [_ H]]. now destruct (i - start).
  - cbn [In]. rewrite IH. split.
    + intros [H | [Hle Hnth]].
      * injection H as <- <-. split; [lia |]. now rewrite Nat.sub_diag.
      * split; [lia |]. replace (i - start) with (S (i - S start)) by lia.
        exact Hnth.
    + intros [Hle Hnth]. destruct (i - start) as [| k] eqn:Hk.
      * left. injection Hnth as <-. f_equal. lia.
      * right. split; [lia |]. replace (i - S start) with k by lia.
        exact Hnth.
Qed.

Lemma positioned_steps_spec (items : list node) (st : process_step) :
  In st (positioned_steps items) <->
  exists i item,
    nth_error items i = Some item /\ 5 < len (get_text true item) /\
    st = ProcessStep (S i) (get_text true item).
Proof.
  unfold positioned_steps. rewrite in_map_iff. split.
  - intros ([i item] & <- & Hin). apply filter_In in Hin.
    destruct Hin as [Hin Hlong]. apply in_enumerate in Hin.
    destruct Hin as [Hle Hnth]. apply Nat.ltb_lt in Hlong.
    exists (i - 1), item. cbn [fst snd].
    repeat split; [exact Hnth | exact Hlong |]. f_equal. lia.
  - intros (i & item & Hnth & Hlong & ->). exists (S i, item).
    split; [reflexivity |]. apply filter_In. split.
    + apply in_enumerate. split; [lia |].
      now replace (S i - 1) with i by lia.
    + now apply Nat.ltb_lt.
Qed.

Lemma sorted_filter_seq {A : Type} (keep : nat * A -> bool) (xs : list A)
  (start : nat) :
  StronglySorted lt (map fst (filter keep (enumerate start xs))) /\
  Forall (fun i => start <= i) (map fst (filter keep (enumerate start xs))).
Proof.
  unfold enumerate. revert start.
  induction xs as [| x xs IH]; intro start; cbn [List.length seq combine filter].
  - split; constructor.
  - destruct (IH (S start)) as [Hsorted Hfrom].
    assert (Hlater : Forall (fun i => start < i)
              (map fst (filter keep (combine (seq (S start) (List.length xs)) xs))))
      by (eapply Forall_impl; [| exact Hfrom]; simpl; intros; lia).
    destruct (keep (start, x)); cbn [map fst].
    + split; constructor; try assumption; try lia.
      eapply Forall_impl; [| exact Hfrom]. simpl. intros. lia.
    + split; [assumption |].
      eapply Forall_impl; [| exact Hfrom]. simpl. intros. lia.
Qed.

Lemma positioned_steps_sorted (items : list node) :
  StronglySorted lt (map step (positioned_steps items)).
Proof.
  unfold positioned_steps. rewrite map_map. cbn [step].
  apply (sorted_filter_seq (fun item => is_long_item (snd item)) items 1).
Qed.

Lemma positioned_steps_all_long (items : list node) :
  (forall item, In item items -> 5 < len (get_text true item)) ->
  positioned_steps items = numbered_steps items.
Proof.
  intro Hlong. unfold positioned_steps, numbered_steps. f_equal.
  apply forallb_filter_id. apply forallb_forall.
  intros [i item] Hin. apply in_enumerate in Hin. destruct Hin as [_ Hnth].
  apply nth_error_In in Hnth. apply Nat.ltb_lt. now apply Hlong.
Qed.

Lemma fold_left_extends {A B : Type} (f : list A -> B -> list A)
  (l : list B) (a : list A) :
  (forall acc b, exists more, f acc b = (acc ++ more)%list) ->
  exists more, fold_left f l a = (a ++ more)%list.
Proof.
  intro Hf. revert a.
  induction l as [| b l IH]; simpl; intro a.
  - exists []. now rewrite app_nil_r.
  - destruct (Hf a b) as [m1 ->]. destruct (IH (a ++ m1)%list) as [m2 ->].
    exists (m1 ++ m2)%list. now rewrite app_assoc.
Qed.

Lemma keep_or_append {A : Type} (c : bool) (acc : list A) (x : A) :
  exists more, (if c then acc ++ [x] else acc)%list = (acc ++ more)%list.
Proof.
  destruct c; [now exists [x] | exists []; now rewrite app_nil_r].
Qed.

Lemma steps_from_divs_extends (parent : node) (found : list process_step) :
  exists more, steps_from_divs parent found = (found ++ more)%list.
Proof.
  unfold steps_from_divs. apply fold_left_extends.
  intros acc item. cbv zeta.
  destruct (_ && _); [| exists []; now rewrite app_nil_r].
  apply keep_or_append.
Qed.

Lemma steps_from_lists_extends (parent : node) (found : list process_step) :
  exists more, steps_from_lists parent found = (found ++ more)%list.
Proof.
  unfold steps_from_lists. apply fold_left_extends.
  intros acc ol. unfold steps_from_list. apply fold_left_extends.
  intros acc' item. cbv zeta. apply keep_or_append.
Qed.

Lemma process_section_extends (parent : node) (found : list process_step) :
  exists more, process_section parent found = (found ++ more)%list.
Proof.
  unfold process_section.
  destruct (steps_from_lists_extends parent found) as [m1 ->].
  destruct (steps_from_divs_extends parent (found ++ m1)%list) as [m2 ->].
  exists (m1 ++ m2)%list. now rewrite app_assoc.
Qed.

Lemma numbered_from (start : nat) (items : list node) :
  map step
    (map (fun item => ProcessStep (fst item) (get_text true (snd item)))
       (combine (seq start (List.length items)) items))
  = seq start (List.length items) /\
  map step_description
    (map (fun item => ProcessStep (fst item) (get_text true (snd item)))
       (combine (seq start (List.length items)) items))
  = map (get_text true) items.
Proof.
  revert start.
  induction items as [| li items IH]; simpl; intro start; [now split |].
  destruct (IH (S start)) as [H1 H2]. now rewrite H1, H2.
Qed.

(** C9.  Take any heading of the page whose text mentions a process
    keyword and whose container holds one ordered list.  The items of the
    list longer than 5 characters enter [process] one after the other, in
    list order, each described by its own text and numbered by its place
    among all the items of the list, the short ones counted: the item at
    index [i] becomes step [i + 1].  The numbers rise strictly, and they
    are 1..N when no item is short.  On the page with the heading
    "Our Process" and an ordered list of three long items, [process] is
    exactly these three steps, numbered 1, 2, 3. *)
Theorem list_items_are_numbered_by_position :
  (forall (doc : node) (p : profile) (heading : node)
          (ancestors : list node) (parent ol : node),
     In (heading, ancestors) (find_all_located headings doc) ->
     any_in process_keywords (lower (get_text true heading)) = true ->
     find_parent containers ancestors = Some parent ->
     find_all ["ol"] any_tag None parent = [ol] ->
     let items := find_all ["li"] any_tag None ol in
     (exists earlier later,
        process (extract_process doc p)
        = (earlier ++ positioned_steps items ++ later)%list) /\
     (forall st,
        In st (positioned_steps items) <->
        exists i item,
          nth_error items i = Some item /\ 5 < len (get_text true item) /\
          st = ProcessStep (S i) (get_text true item)) /\
     StronglySorted lt (map step (positioned_steps items)) /\
     ((forall item, In item items -> 5 < len (get_text true item)) ->
      map step (positioned_steps items) = seq 1 (List.length items) /\
      map step_description (positioned_steps items)
      = map (get_text true) items)) /\
  process
    (extract_process Sample.process_page (initial_profile Sample.home_url))
  = [ ProcessStep 1 "Discover needs"; ProcessStep 2 "Design solution";
      ProcessStep 3 "Deliver results" ].
Proof.
  split; [| vm_compute; reflexivity].
  intros doc p heading ancestors parent ol Hin Hkey Hparent Hol items.
  split; [| split; [apply positioned_steps_spec |
            split; [apply positioned_steps_sorted |]]].
  - unfold extract_process, set_process. cbn [process].
    unfold for_keyword_headings.
    apply in_split in Hin. destruct Hin as (before & after & ->).
    rewrite fold_left_app. cbn [fold_left fst snd]. rewrite Hkey, Hparent.
    set (start := fold_left _ before (process p)).
    unfold process_section at 2. unfold steps_from_lists at 1.
    rewrite Hol. cbn [fold_left]. rewrite (steps_from_list_positions ol start).
    fold items.
    destruct (steps_from_divs_extends parent
                (start ++ positioned_steps items)%list) as [m1 ->].
    match goal with
    | |- exists _ _, fold_left ?f after ?a = _ =>
        destruct (fold_left_extends f after a) as [m2 ->]
    end.
    + intros acc h.
      destruct (any_in process_keywords (lower (get_text true (fst h))));
        [| exists []; now rewrite app_nil_r].
      destruct (find_parent containers (snd h));
        [| exists []; now rewrite app_nil_r].
      apply process_section_extends.
    + exists start, (m1 ++ m2)%list. now rewrite <- !app_assoc.
  - intro Hlong. rewrite (positioned_steps_all_long items Hlong).
    apply numbered_from.
Qed.

(** The number of a step is the place of its item in the list: an item of
    five characters or fewer is passed over and leaves a gap. *)
Lemma short_item_leaves_gap :
  steps_from_list
    (Tag "ol" []
       [Sample.li "Discover needs"; Sample.li "Plan"; Sample.li "Deliver results"])
    []
  = [ProcessStep 1 "Discover needs"; ProcessStep 3 "Deliver results"].
Proof. vm_compute. reflexivity. Qed.

(** C9 as claimed fails: with a short item in the list, the long items
    are not numbered 1..N.  The container of "Our Process" holds one
    ordered list of three items, the second of four characters; the two
    long items become steps 1 and 3. *)
Lemma short_item_breaks_numbering_counterexample :
  let heading := Tag "h2" [] [Sample.txt "Our Process"] in
  let items := find_all ["li"] any_tag None Sample.gap_list in
  let found :=
    process (extract_process Sample.gap_page
               (initial_profile Sample.home_url)) in
  In heading (map fst (find_all_located headings Sample.gap_page)) /\
  any_in process_keywords (lower (get_text true heading)) = true /\
  find_all ["ol"] any_tag None Sample.gap_container = [Sample.gap_list] /\
  filter is_long_item items
  = [Sample.li "Discover needs"; Sample.li "Deliver results"] /\
  found = [ProcessStep 1 "Discover needs"; ProcessStep 3 "Deliver results"] /\
  map step found <> seq 1 (List.length (filter is_long_item items)).
Proof.
  intros heading items found.
  split; [vm_compute; left; reflexivity |].
  split; [vm_compute; reflexivity |].
  split; [vm_compute; reflexivity |].
  split; [vm_compute; reflexivity |].
  split; [vm_compute; reflexivity |].
  vm_compute. intro H. discriminate H.
Qed.

(** C9 at the page whose list has a short item. *)
Lemma list_items_are_numbered_by_position_witness :
  let heading := Tag "h2" [] [Sample.txt "Our Process"] in
  let parent := Sample.gap_container in
  let ancestors :=
    [ parent;
      Tag "body" [] [parent];
      Tag "html" [] [Tag "head" [] []; Tag "body" [] [parent]];
      Sample.gap_page ] in
  let items := find_all ["li"] any_tag None Sample.gap_list in
  In (heading, ancestors) (find_all_located headings Sample.gap_page) /\
  any_in process_keywords (lower (get_text true heading)) = true /\
  find_parent containers ancestors = Some parent /\
  find_all ["ol"] any_tag None parent = [Sample.gap_list] /\
  (exists earlier later,
     process (extract_process Sample.gap_page
                (initial_profile Sample.home_url))
     = (earlier ++ positioned_steps items ++ later)%list) /\
  (forall st,
     In st (positioned_steps items) <->
     exists i item,
       nth_error items i = Some item /\ 5 < len (get_text true item) /\
       st = ProcessStep (S i) (get_text true item)) /\
  StronglySorted lt (map step (positioned_steps items)) /\
  ((forall item, In item items -> 5 < len (get_text true item)) ->
   map step (positioned_steps items) = seq 1 (List.length items) /\
   map step_description (positioned_steps items)
   = map (get_text true) items).
Proof.
  intros heading parent ancestors items.
  assert (Hin : In (heading, ancestors)
                  (find_all_located headings Sample.gap_page))
    by (vm_compute; left; reflexivity).
  assert (Hkey : any_in process_keywords (lower (get_text true heading))
                 = true) by (vm_compute; reflexivity).
  assert (Hparent : find_parent containers ancestors = Some parent)
    by (vm_compute; reflexivity).
  assert (Hol : find_all ["ol"] any_tag None parent = [Sample.gap_list])
    by (vm_compute; reflexivity).
  split; [exact Hin |]. split; [exact Hkey |]. split; [exact Hparent |].
  split; [exact Hol |].
  exact (proj1 list_items_are_numbered_by_position
           Sample.gap_page (initial_profile Sample.home_url)
           heading ancestors parent Sample.gap_list Hin Hkey Hparent Hol).
Defined.

(** ** The About page *)

Section AboutResolver.

Context {U : UrlLib}.

(** On links whose href is their path, the loop of lines 166-169 is the
    search for the shortest href. *)
Lemma find_about_shortest (all_links : list link_entry)
  (best : option link_entry) :
  (forall l, In l all_links -> about_like l = true -> href_is_path l) ->
  (forall b, best = Some b -> href_is_path b) ->
  find_about all_links (option_map link_url best)
  = Some (option_map link_url (shortest_about all_links best)).
Proof.
  revert best.
  induction all_links as [| link links IH]; simpl; intros best Hlinks Hbest;
    [reflexivity |].
  assert (Hrest : forall l, In l links -> about_like l = true -> href_is_path l)
    by (intros l Hl; apply Hlinks; now right).
  destruct (about_like link) eqn:Hlike; [| now apply IH].
  unfold about_replaces, bind.
  assert (Hnew : forall b, Some link = Some b -> href_is_path b).
  { intros b Hb. injection Hb as <-. apply Hlinks; [now left | exact Hlike]. }
  destruct best as [b |]; simpl.
  - destruct (Hbest b eq_refl) as (Hurl & pth & Hpath & Hlen).
    rewrite Hurl, Hpath. simpl. rewrite Hlen.
    destruct (len (link_href link) <? len (link_href b))%nat.
    + now rewrite <- (IH (Some link)).
    + now rewrite <- (IH (Some b)).
  - now rewrite <- (IH (Some link)).
Qed.

Lemma shortest_about_from (all_links : list link_entry) (b : link_entry) :
  exists r,
    shortest_about all_links (Some b) = Some r /\
    len (link_href r) <= len (link_href b) /\
    forall l, In l all_links -> about_like l = true ->
              len (link_href r) <= len (link_href l).
Proof.
  revert b.
  induction all_links as [| link links IH]; simpl; intro b.
  - exists b. repeat split; [lia | intros l []].
  - destruct (about_like link) eqn:Hlike.
    + destruct (len (link_href link) <? len (link_href b))%nat eqn:Hlt.
      * apply Nat.ltb_lt in Hlt.
        destruct (IH link) as (r & Hr & Hle & Hall).
        exists r. repeat split; [exact Hr | lia |].
        intros l [<- | Hl] Hal; [exact Hle | now apply Hall].
      * apply Nat.ltb_ge in Hlt.
        destruct (IH b) as (r & Hr & Hle & Hall).
        exists r. repeat split; [exact Hr | exact Hle |].
        intros l [<- | Hl] Hal; [lia | now apply Hall].
    + destruct (IH b) as (r & Hr & Hle & Hall).
      exists r. repeat split; [exact Hr | exact Hle |].
      intros l [<- | Hl] Hal; [congruence | now apply Hall].
Qed.

(** When every about-like href is its own path, the page chosen has the
    fewest characters among the about-like links of the whole catalog. *)
Lemma about_page_is_shortest_path_href (all_links : list link_entry)
  (candidate : link_entry) :
  (forall l, In l all_links -> about_like l = true -> href_is_path l) ->
  In candidate all_links -> about_like candidate = true ->
  exists chosen,
    find_about all_links None = Some (Some (link_url chosen)) /\
    len (link_href chosen) <= len (link_href candidate).
Proof.
  intros Hpaths Hin Hlike.
  assert (Hfind : find_about all_links None
                  = Some (option_map link_url (shortest_about all_links None)))
    by (apply (find_about_shortest all_links None Hpaths); discriminate).
  rewrite Hfind. clear Hpaths Hfind. revert Hin.
  induction all_links as [| link links IH]; simpl; [intros [] |].
  intros [-> | Hin].
  - rewrite Hlike.
    destruct (shortest_about_from links candidate) as (r & -> & Hle & _).
    now exists r.
  - destruct (about_like link) eqn:Hl; [| now apply IH].
    destruct (shortest_about_from links link) as (r & -> & _ & Hall).
    exists r. split; [reflexivity | now apply Hall].
Qed.

End AboutResolver.

(** The two links of the example, [/about-us/our-story] and then [/about]:
    the second replaces the first. *)
Lemma about_example_selects_shorter :
  catalog (U := urllib_parse) Sample.home_url Sample.about_relative
    = Some [ LinkEntry "https://acme.com/about-us/our-story" "our story"
               "/about-us/our-story";
             LinkEntry "https://acme.com/about" "about" "/about" ] /\
  option_map (fun p => page_url (about_us p))
    (scrape_company_profile (U := urllib_parse)
       (Sample.only_main 200 Sample.about_relative) Sample.home_url)
    = Some (Some "https://acme.com/about").
Proof. split; vm_compute; reflexivity. Qed.

(** C4, evaluated where it fails.  The same two pages are linked by
    absolute hrefs.  Line 168 compares the length of the whole href, 22
    for [https://acme.com/about], with the length of the path of the page
    chosen so far, 19 for [/about-us/our-story]; the candidate is not
    shorter, so the page with the longer path is kept although the path of
    the candidate, [/about], has only 6 characters. *)
Theorem about_resolver_keeps_longer_path :
  catalog (U := urllib_parse) Sample.home_url Sample.about_absolute
    = Some [ LinkEntry "https://acme.com/about-us/our-story" "our story"
               "https://acme.com/about-us/our-story";
             LinkEntry "https://acme.com/about" "about"
               "https://acme.com/about" ] /\
  urlparse_path (UrlLib := urllib_parse) "https://acme.com/about-us/our-story"
    = Some "/about-us/our-story" /\
  urlparse_path (UrlLib := urllib_parse) "https://acme.com/about"
    = Some "/about" /\
  option_map (fun p => page_url (about_us p))
    (scrape_company_profile (U := urllib_parse)
       (Sample.only_main 200 Sample.about_absolute) Sample.home_url)
    = Some (Some "https://acme.com/about-us/our-story").
Proof. repeat split; vm_compute; reflexivity. Qed.

(** When both secondary fetches raise, the run still returns: the profile
    of the sample web without its articles and its About description. *)
Lemma secondary_network_failure_run :
  scrape_company_profile (U := urllib_parse) Sample.acme_offline_pages
    "http://acme.com"
  = Some (set_about_description None (set_articles [] Sample.acme_profile)).
Proof. vm_compute. reflexivity. Qed.

(** * Further properties of the run *)

(** ** Each stage on an explicit record *)

Lemma phone_after_email (doc : node) (p : profile) :
  phone (contact_info (extract_contact_info doc p)) =
  match re_finditer phone_pattern (get_text false doc) with
  | m :: _ => Some (format_phone m)
  | [] => phone (contact_info p)
  end.
Proof.
  unfold extract_contact_info.
  destruct (re_finditer phone_pattern _); destruct (find_emails _); reflexivity.
Qed.

Lemma found_or_none (found : option string) : found_or found None = found.
Proof. destruct found; reflexivity. Qed.

Lemma extract_company_name_initial (doc : node) (target : string) :
  extract_company_name doc (initial_profile target)
  = set_company_name
      (company_name (extract_company_name doc (initial_profile target)))
      (initial_profile target).
Proof.
  unfold extract_company_name.
  destruct (find_tag ["title"] any_tag doc);
    destruct (find_tag ["meta"] is_og_site_name doc) as [og |];
    try destruct (truthy_opt (get "content" og));
    destruct (find_tag ["img"] alt_has_logo doc) as [logo |];
    try destruct (truthy_opt (get "alt" logo));
    reflexivity.
Qed.

Lemma extract_contact_info_record (doc : node) (n : option string)
  (t : string) (a : about_us_t) (sv cl : list string)
  (pr : list process_step) (ar : list article) (cp : option string)
  (c : careers_t) (po : policies_t) :
  extract_contact_info doc
    (Profile n t a sv cl pr ar (ContactInfo cp None None None) c po)
  = Profile n t a sv cl pr ar
      (ContactInfo cp
         (email (contact_info (extract_contact_info doc (initial_profile t))))
         (phone (contact_info (extract_contact_info doc (initial_profile t))))
         None)
      c po.
Proof.
  rewrite email_after_phone, phone_after_email.
  unfold extract_contact_info.
  destruct (find_emails (get_text false doc));
    destruct (re_finditer phone_pattern (get_text false doc)); reflexivity.
Qed.

Lemma extract_lists_record (doc : node) (n : option string) (t : string)
  (a : about_us_t) (ar : list article) (ci : contact_info_t) (c : careers_t)
  (po : policies_t) :
  extract_process doc
    (extract_clients doc
       (extract_services doc (Profile n t a [] [] [] ar ci c po)))
  = Profile n t a
      (services (extract_services doc (initial_profile t)))
      (clients (extract_clients doc (initial_profile t)))
      (process (extract_process doc (initial_profile t)))
      ar ci c po.
Proof. reflexivity. Qed.

Section Stages.

Context {U : UrlLib}.

Lemma find_key_pages_record (all_links : list link_entry)
  (n : option string) (t : string) (sv cl : list string)
  (pr : list process_step) (ar : list article) (p' : profile) :
  find_key_pages all_links
    (Profile n t (AboutUs None None) sv cl pr ar
       (ContactInfo None None None None) (Careers None)
       (Policies None None None))
  = Some p' ->
  exists about,
    find_about all_links None = Some about /\
    p' = Profile n t (AboutUs None about) sv cl pr ar
           (ContactInfo (first_link is_contact all_links) None None None)
           (Careers (first_link is_careers all_links))
           (Policies (first_link is_privacy all_links)
              (first_link is_returns all_links)
              (first_link is_terms all_links)).
Proof.
  unfold find_key_pages, bind. cbn [about_us page_url].
  destruct (find_about all_links None) as [about |]; [| discriminate].
  intro H. injection H as <-. exists about. split; [reflexivity |].
  destruct (first_link is_contact all_links);
    destruct (first_link is_careers all_links);
    destruct (first_link is_privacy all_links);
    destruct (first_link is_returns all_links);
    destruct (first_link is_terms all_links); reflexivity.
Qed.

Lemma articles_depend_on_articles (w : web) (all_links : list link_entry)
  (p q : profile) :
  articles p = articles q ->
  articles (extract_articles w all_links p)
  = articles (extract_articles w all_links q).
Proof.
  intro H. unfold extract_articles.
  destruct (map link_url _) as [| blog_url rest]; [exact H |].
  destruct (fetch_blog w blog_url); [exact H |].
  cbn [articles set_articles]. now rewrite H.
Qed.

Lemma extract_articles_record (w : web) (all_links : list link_entry)
  (n : option string) (t : string) (a : about_us_t) (sv cl : list string)
  (pr : list process_step) (ci : contact_info_t) (c : careers_t)
  (po : policies_t) :
  extract_articles w all_links (Profile n t a sv cl pr [] ci c po)
  = Profile n t a sv cl pr
      (articles (extract_articles w all_links (initial_profile t))) ci c po.
Proof.
  rewrite (articles_depend_on_articles w all_links (initial_profile t)
             (Profile n t a sv cl pr [] ci c po) eq_refl).
  unfold extract_articles.
  destruct (map link_url _) as [| blog_url rest]; [reflexivity |].
  destruct (fetch_blog w blog_url); reflexivity.
Qed.

Lemma description_depends_on_about (w : web) (p q : profile) :
  about_us p = about_us q ->
  description (about_us (scrape_about_page w p))
  = description (about_us (scrape_about_page w q)).
Proof.
  intro H. unfold scrape_about_page. rewrite H.
  destruct (truthy_opt _); [| now rewrite H].
  destruct (fetch_about w _) as [| ? ? about_soup]; [now rewrite H |].
  destruct (about_description about_soup); [reflexivity | now rewrite H].
Qed.

Lemma scrape_about_page_record (w : web) (n : option string) (t : string)
  (about : option string) (sv cl : list string) (pr : list process_step)
  (ar : list article) (ci : contact_info_t) (c : careers_t) (po : policies_t) :
  scrape_about_page w (Profile n t (AboutUs None about) sv cl pr ar ci c po)
  = Profile n t
      (AboutUs
         (description
            (about_us
               (scrape_about_page w
                  (set_about_page_url about (initial_profile t)))))
         about)
      sv cl pr ar ci c po.
Proof.
  rewrite (description_depends_on_about w
             (set_about_page_url about (initial_profile t))
             (Profile n t (AboutUs None about) sv cl pr ar ci c po) eq_refl).
  unfold scrape_about_page. cbn [about_us page_url].
  destruct (truthy_opt about); [| reflexivity].
  destruct (fetch_about w (or_empty about)) as [| ? ? about_soup];
    [reflexivity |].
  destruct (about_description about_soup); reflexivity.
Qed.

(** The record that the stages build from the initial profile. *)
Lemma extract_profile_record (w : web) (target : string) (p : profile)
  (final_url : string) (doc : node) :
  extract_profile w final_url doc (initial_profile target) = Some p ->
  exists all_links about,
    catalog final_url doc = Some all_links /\
    find_about all_links None = Some about /\
    p = Profile
          (company_name (extract_company_name doc (initial_profile target)))
          target
          (AboutUs
             (description
                (about_us
                   (scrape_about_page w
                      (set_about_page_url about (initial_profile target)))))
             about)
          (services (extract_services doc (initial_profile target)))
          (clients (extract_clients doc (initial_profile target)))
          (process (extract_process doc (initial_profile target)))
          (articles (extract_articles w all_links (initial_profile target)))
          (ContactInfo (first_link is_contact all_links)
             (email (contact_info
                       (extract_contact_info doc (initial_profile target))))
             (phone (contact_info
                       (extract_contact_info doc (initial_profile target))))
             None)
          (Careers (first_link is_careers all_links))
          (Policies (first_link is_privacy all_links)
             (first_link is_returns all_links)
             (first_link is_terms all_links)).
Proof.
  intro Hrun. unfold extract_profile, bind in Hrun.
  fold (catalog final_url doc) in Hrun.
  destruct (catalog final_url doc) as [all_links |]; [| discriminate].
  rewrite extract_company_name_initial in Hrun.
  generalize dependent
    (company_name (extract_company_name doc (initial_profile target))).
  intros name Hrun.
  change (set_company_name name (initial_profile target))
    with (Profile name target (AboutUs None None) [] [] [] []
            (ContactInfo None None None None) (Careers None)
            (Policies None None None)) in Hrun.
  destruct (find_key_pages all_links _) as [p2 |] eqn:Hkey; [| discriminate].
  apply find_key_pages_record in Hkey. destruct Hkey as (about & Habout & ->).
  exists all_links, about. split; [reflexivity |]. split; [exact Habout |].
  injection Hrun as <-.
  rewrite extract_lists_record, extract_articles_record,
    extract_contact_info_record, scrape_about_page_record.
  reflexivity.
Qed.

(** A run whose primary fetch succeeds is the run of the stages. *)
Lemma run_is_extract_profile (w : web) (target : string) (p : profile)
  (status_code : Z) (final_url : string) (doc : node) :
  fetch_main w target = Response status_code final_url doc ->
  raises_for_status status_code = false ->
  scrape_company_profile w target = Some p ->
  extract_profile w final_url doc (initial_profile target) = Some p.
Proof.
  intros Hmain Hstatus Hrun.
  unfold scrape_company_profile in Hrun. now rewrite Hmain, Hstatus in Hrun.
Qed.

(** X1.  The stages do not interfere.  A run whose primary fetch succeeds
    and that returns, returns the record in which every key holds what its
    own extractor computes from the initial profile, the main page and the
    link catalog: no extractor changes what another one wrote.  [website]
    is the URL asked for, not the final URL of the response, and
    [address] is [None]. *)
Theorem stages_are_independent (w : web) (target : string) (p : profile)
  (status_code : Z) (final_url : string) (doc : node) :
  fetch_main w target = Response status_code final_url doc ->
  raises_for_status status_code = false ->
  scrape_company_profile w target = Some p ->
  exists all_links about,
    catalog final_url doc = Some all_links /\
    find_about all_links None = Some about /\
    p = Profile
          (company_name (extract_company_name doc (initial_profile target)))
          target
          (AboutUs
             (description
                (about_us
                   (scrape_about_page w
                      (set_about_page_url about (initial_profile target)))))
             about)
          (services (extract_services doc (initial_profile target)))
          (clients (extract_clients doc (initial_profile target)))
          (process (extract_process doc (initial_profile target)))
          (articles (extract_articles w all_links (initial_profile target)))
          (ContactInfo (first_link is_contact all_links)
             (email (contact_info
                       (extract_contact_info doc (initial_profile target))))
             (phone (contact_info
                       (extract_contact_info doc (initial_profile target))))
             None)
          (Careers (first_link is_careers all_links))
          (Policies (first_link is_privacy all_links)
             (first_link is_returns all_links)
             (first_link is_terms all_links)).
Proof.
  intros Hmain Hstatus Hrun.
  unfold scrape_company_profile in Hrun.
  rewrite Hmain, Hstatus in Hrun.
  destruct (extract_profile_record w target p final_url doc Hrun)
    as (all_links & about & Hcat & Habout & Hp).
  exists all_links, about. now repeat split.
Qed.

End Stages.

(** X1 at the sample web. *)
Lemma stages_are_independent_witness :
  fetch_main Sample.acme "http://acme.com"
    = Response 200 Sample.home_url Sample.home /\
  raises_for_status 200 = false /\
  scrape_company_profile (U := urllib_parse) Sample.acme "http://acme.com"
    = Some Sample.acme_profile /\
  exists all_links about,
    catalog (U := urllib_parse) Sample.home_url Sample.home = Some all_links /\
    find_about (U := urllib_parse) all_links None = Some about /\
    Sample.acme_profile
    = Profile
        (company_name
           (extract_company_name Sample.home (initial_profile "http://acme.com")))
        "http://acme.com"
        (AboutUs
           (description
              (about_us
                 (scrape_about_page Sample.acme
                    (set_about_page_url about (initial_profile "http://acme.com")))))
           about)
        (services (extract_services Sample.home (initial_profile "http://acme.com")))
        (clients (extract_clients Sample.home (initial_profile "http://acme.com")))
        (process (extract_process Sample.home (initial_profile "http://acme.com")))
        (articles
           (extract_articles (U := urllib_parse) Sample.acme all_links
              (initial_profile "http://acme.com")))
        (ContactInfo (first_link is_contact all_links)
           (email (contact_info
                     (extract_contact_info Sample.home
                        (initial_profile "http://acme.com"))))
           (phone (contact_info
                     (extract_contact_info Sample.home
                        (initial_profile "http://acme.com"))))
           None)
        (Careers (first_link is_careers all_links))
        (Policies (first_link is_privacy all_links)
           (first_link is_returns all_links)
           (first_link is_terms all_links)).
Proof.
  assert (Hrun : scrape_company_profile (U := urllib_parse) Sample.acme
                   "http://acme.com" = Some Sample.acme_profile)
    by (vm_compute; reflexivity).
  split; [reflexivity |]. split; [reflexivity |]. split; [exact Hrun |].
  exact (stages_are_independent (U := urllib_parse) Sample.acme
           "http://acme.com" Sample.acme_profile 200 Sample.home_url
           Sample.home eq_refl eq_refl Hrun).
Defined.

Section RunShape.

Context {U : UrlLib}.

(** The two ways a run returns: the initial profile after a failed primary
    fetch, or the record of the stages. *)
Lemma run_cases (w : web) (target : string) (p : profile) :
  scrape_company_profile w target = Some p ->
  p = initial_profile target \/
  exists status_code final_url doc,
    fetch_main w target = Response status_code final_url doc /\
    raises_for_status status_code = false.
Proof.
  unfold scrape_company_profile.
  destruct (fetch_main w target) as [| status_code final_url doc].
  - intro H. injection H as <-. now left.
  - destruct (raises_for_status status_code) eqn:Hs.
    + intro H. injection H as <-. now left.
    + intros _. right. now exists status_code, final_url, doc.
Qed.

End RunShape.

(** ** The link catalog *)

Lemma lower_ascii_idempotent (c : ascii) :
  lower_ascii (lower_ascii c) = lower_ascii c.
Proof.
  destruct c as [[] [] [] [] [] [] [] []]; reflexivity.
Qed.

Lemma lower_idempotent (s : string) : lower (lower s) = lower s.
Proof.
  induction s as [| c s IH]; simpl; [reflexivity |].
  now rewrite lower_ascii_idempotent, IH.
Qed.

Section Catalog.

Context {U : UrlLib}.

Lemma collect_links_sound (final_url : string) (anchor_tags : list node)
  (acc all_links : list link_entry) :
  collect_links final_url anchor_tags acc = Some all_links ->
  forall entry, In entry all_links ->
    In entry acc \/
    exists a, In a anchor_tags /\ entry_of final_url a entry.
Proof.
  revert acc.
  induction anchor_tags as [| a rest IH]; simpl; intros acc Hrun entry Hin.
  - injection Hrun as <-. now left.
  - unfold bind in Hrun.
    destruct (urljoin final_url (get_or_empty "href" a)) as [full |] eqn:Hjoin;
      [| discriminate].
    destruct (same_domain final_url (get_or_empty "href" a) full)
      as [keep |] eqn:Hsame; [| discriminate].
    destruct (IH _ Hrun entry Hin) as [Hacc | (a' & Ha' & Hentry)].
    + destruct keep; [| now left].
      apply in_app_or in Hacc. destruct Hacc as [Hacc | [<- | []]];
        [now left |].
      right. exists a. split; [now left |]. now repeat split.
    + right. exists a'. split; [now right | exact Hentry].
Qed.

Lemma collect_links_keeps (final_url : string) (anchor_tags : list node)
  (acc all_links : list link_entry) :
  collect_links final_url anchor_tags acc = Some all_links ->
  forall entry, In entry acc -> In entry all_links.
Proof.
  revert acc.
  induction anchor_tags as [| a rest IH]; simpl; intros acc Hrun entry Hin.
  - now injection Hrun as <-.
  - unfold bind in Hrun.
    destruct (urljoin final_url (get_or_empty "href" a)) as [full |];
      [| discriminate].
    destruct (same_domain final_url (get_or_empty "href" a) full)
      as [keep |]; [| discriminate].
    apply (IH _ Hrun).
    destruct keep; [apply in_or_app; now left | exact Hin].
Qed.

Lemma collect_links_complete (final_url : string) (anchor_tags : list node)
  (acc all_links : list link_entry) :
  collect_links final_url anchor_tags acc = Some all_links ->
  forall a entry, In a anchor_tags -> entry_of final_url a entry ->
    In entry all_links.
Proof.
  revert acc.
  induction anchor_tags as [| a0 rest IH]; simpl;
    intros acc Hrun a entry Hin Hentry; [destruct Hin |].
  unfold bind in Hrun.
  destruct (urljoin final_url (get_or_empty "href" a0)) as [full |] eqn:Hjoin;
    [| discriminate].
  destruct (same_domain final_url (get_or_empty "href" a0) full)
    as [keep |] eqn:Hsame; [| discriminate].
  destruct Hin as [-> | Hin]; [| now apply (IH _ Hrun a)].
  destruct Hentry as (Hurl & Htext & Hhref & Hdom).
  rewrite Hurl in Hjoin. injection Hjoin as <-.
  rewrite Hdom in Hsame. injection Hsame as <-.
  apply (collect_links_keeps _ _ _ _ Hrun).
  apply in_or_app. right. left.
  destruct entry as [u t h]. simpl in *. now subst.
Qed.

Lemma collect_links_length (final_url : string) (anchor_tags : list node)
  (acc all_links : list link_entry) :
  collect_links final_url anchor_tags acc = Some all_links ->
  List.length all_links <= List.length acc + List.length anchor_tags.
Proof.
  revert acc.
  induction anchor_tags as [| a rest IH]; simpl; intros acc Hrun.
  - injection Hrun as <-. lia.
  - unfold bind in Hrun.
    destruct (urljoin final_url (get_or_empty "href" a)) as [full |];
      [| discriminate].
    destruct (same_domain final_url (get_or_empty "href" a) full)
      as [keep |]; [| discriminate].
    apply IH in Hrun. destruct keep; [| lia].
    rewrite length_app in Hrun. simpl in Hrun. lia.
Qed.

(** X2.  The link catalog holds exactly the anchors of the page that carry
    an href and pass the same-domain test: every entry is the entry of
    such an anchor (resolved URL, lowercased text, lowercased href), every
    such anchor has its entry, and no entry holds an upper-case ASCII
    letter in its text or href. *)
Theorem catalog_is_the_same_domain_anchors (final_url : string) (doc : node)
  (all_links : list link_entry) :
  catalog final_url doc = Some all_links ->
  (forall entry, In entry all_links ->
     (exists a, In a (anchors doc) /\ entry_of final_url a entry) /\
     lower (link_text entry) = link_text entry /\
     lower (link_href entry) = link_href entry) /\
  (forall a entry, In a (anchors doc) -> entry_of final_url a entry ->
     In entry all_links) /\
  List.length all_links <= List.length (anchors doc).
Proof.
  unfold catalog. fold (anchors doc). intro Hrun. repeat split.
  - destruct (collect_links_sound _ _ _ _ Hrun entry H) as [[] | Ha].
    exact Ha.
  - destruct (collect_links_sound _ _ _ _ Hrun entry H)
      as [[] | (a & _ & _ & -> & _)].
    apply lower_idempotent.
  - destruct (collect_links_sound _ _ _ _ Hrun entry H)
      as [[] | (a & _ & _ & _ & -> & _)].
    apply lower_idempotent.
  - intros a entry. now apply (collect_links_complete _ _ _ _ Hrun).
  - now apply collect_links_length in Hrun.
Qed.

(** A malformed href anywhere among the anchors makes the catalog raise. *)
Lemma collect_links_raises (final_url : string) (anchor_tags : list node)
  (acc : list link_entry) (a : node) :
  In a anchor_tags ->
  urljoin final_url (get_or_empty "href" a) = None ->
  collect_links final_url anchor_tags acc = None.
Proof.
  revert acc.
  induction anchor_tags as [| a0 rest IH]; simpl; intros acc Hin Hjoin;
    [destruct Hin |].
  unfold bind.
  destruct Hin as [-> | Hin]; [now rewrite Hjoin |].
  destruct (urljoin final_url (get_or_empty "href" a0)); [| reflexivity].
  destruct (same_domain final_url (get_or_empty "href" a0) s);
    [| reflexivity].
  now apply IH.
Qed.

(** X3.  One malformed href loses the whole profile: when the primary
    fetch succeeds and [urljoin] raises on the href of some anchor of the
    page, the exception leaves [scrape_company_profile] and no profile is
    returned, not even the fields already extracted. *)
Theorem malformed_href_aborts_the_run (w : web) (target : string)
  (status_code : Z) (final_url : string) (doc a : node) :
  fetch_main w target = Response status_code final_url doc ->
  raises_for_status status_code = false ->
  In a (anchors doc) ->
  urljoin final_url (get_or_empty "href" a) = None ->
  scrape_company_profile w target = None.
Proof.
  intros Hmain Hstatus Hin Hjoin.
  unfold scrape_company_profile. rewrite Hmain, Hstatus.
  unfold extract_profile, bind. fold (anchors doc).
  now rewrite (collect_links_raises final_url (anchors doc) [] a Hin Hjoin).
Qed.

End Catalog.

(** X2 at the sample home page. *)
Lemma catalog_is_the_same_domain_anchors_witness :
  catalog (U := urllib_parse) Sample.home_url Sample.home
    = Some Sample.home_links /\
  ((forall entry, In entry Sample.home_links ->
      (exists a, In a (anchors Sample.home) /\
                 entry_of (U := urllib_parse) Sample.home_url a entry) /\
      lower (link_text entry) = link_text entry /\
      lower (link_href entry) = link_href entry) /\
   (forall a entry, In a (anchors Sample.home) ->
      entry_of (U := urllib_parse) Sample.home_url a entry ->
      In entry Sample.home_links) /\
   List.length Sample.home_links <= List.length (anchors Sample.home)).
Proof.
  assert (H : catalog (U := urllib_parse) Sample.home_url Sample.home
              = Some Sample.home_links) by (vm_compute; reflexivity).
  split; [exact H |].
  exact (catalog_is_the_same_domain_anchors (U := urllib_parse)
           Sample.home_url Sample.home Sample.home_links H).
Defined.

(** X3 at a page with an unclosed bracket in one href. *)
Lemma malformed_href_aborts_the_run_witness :
  fetch_main (Sample.only_main 200 Sample.broken_link_page) Sample.home_url
    = Response 200 Sample.home_url Sample.broken_link_page /\
  raises_for_status 200 = false /\
  In Sample.broken_link (anchors Sample.broken_link_page) /\
  urljoin (UrlLib := urllib_parse) Sample.home_url
    (get_or_empty "href" Sample.broken_link) = None /\
  scrape_company_profile (U := urllib_parse)
    (Sample.only_main 200 Sample.broken_link_page) Sample.home_url = None.
Proof.
  assert (Hin : In Sample.broken_link (anchors Sample.broken_link_page))
    by (vm_compute; right; left; reflexivity).
  assert (Hjoin : urljoin (UrlLib := urllib_parse) Sample.home_url
                    (get_or_empty "href" Sample.broken_link) = None)
    by (vm_compute; reflexivity).
  split; [reflexivity |]. split; [reflexivity |].
  split; [exact Hin |]. split; [exact Hjoin |].
  exact (malformed_href_aborts_the_run (U := urllib_parse)
           (Sample.only_main 200 Sample.broken_link_page) Sample.home_url
           200 Sample.home_url Sample.broken_link_page Sample.broken_link
           eq_refl eq_refl Hin Hjoin).
Defined.

(** ** Key pages *)



Lemma first_link_url_of_link (test : link_entry -> bool)
  (all_links : list link_entry) (u : string) :
  first_link test all_links = Some u -> url_of_link test all_links u.
Proof.
  intro H. apply first_link_is_first_match in H.
  destruct H as (before & link & rest & -> & Hu & Ht & _).
  exists link. split; [| now split].
  apply in_or_app. right. now left.
Qed.

Section KeyPages.

Context {U : UrlLib}.

Lemma find_about_some (all_links : list link_entry)
  (chosen : option string) (u : string) :
  find_about all_links chosen = Some (Some u) ->
  chosen = Some u \/ url_of_link about_like all_links u.
Proof.
  revert chosen.
  induction all_links as [| link links IH]; simpl; intros chosen Hrun.
  - left. now injection Hrun.
  - assert (Hweaken : forall v, url_of_link about_like links v ->
                                url_of_link about_like (link :: links) v).
    { intros v (l & Hl & Hlike & Hv). exists l. split; [now right | now split]. }
    destruct (about_like link) eqn:Hlike.
    + unfold bind in Hrun.
      destruct (about_replaces link chosen) as [replace |]; [| discriminate].
      destruct (IH _ Hrun) as [Hc | Hu]; [| right; now apply Hweaken].
      destruct replace; [| now left].
      right. exists link. split; [now left |]. split; [exact Hlike |].
      now injection Hc.
    + destruct (IH _ Hrun) as [Hc | Hu]; [now left |].
      right. now apply Hweaken.
Qed.

Lemma find_about_none (all_links : list link_entry)
  (chosen : option string) :
  find_about all_links chosen = Some None ->
  chosen = None /\ forall l, In l all_links -> about_like l = false.
Proof.
  revert chosen.
  induction all_links as [| link links IH]; simpl; intros chosen Hrun.
  - split; [now injection Hrun | intros l []].
  - destruct (about_like link) eqn:Hlike.
    + unfold bind in Hrun.
      destruct (about_replaces link chosen) as [replace |] eqn:Hrep;
        [| discriminate].
      destruct (IH _ Hrun) as [Hc _].
      destruct replace; [discriminate |].
      subst chosen. discriminate Hrep.
    + destruct (IH _ Hrun) as [Hc Hall]. split; [exact Hc |].
      intros l [<- | Hl]; [exact Hlike | now apply Hall].
Qed.


(** X5.  The About page of a returned profile is set exactly when the
    catalog has a link whose href or text holds "about", and it is then
    the URL of such a link. *)
Theorem about_page_is_an_about_link (w : web) (target : string) (p : profile)
  (status_code : Z) (final_url : string) (doc : node)
  (all_links : list link_entry) :
  fetch_main w target = Response status_code final_url doc ->
  raises_for_status status_code = false ->
  scrape_company_profile w target = Some p ->
  catalog final_url doc = Some all_links ->
  match page_url (about_us p) with
  | Some u => url_of_link about_like all_links u
  | None => forall l, In l all_links -> about_like l = false
  end.
Proof.
  intros Hmain Hstatus Hrun Hcat.
  destruct (extract_profile_record w target p final_url doc
              (run_is_extract_profile w target p status_code final_url doc
                 Hmain Hstatus Hrun)) as (links & about & Hcat' & Habout & ->).
  rewrite Hcat in Hcat'. injection Hcat' as <-.
  cbn [about_us page_url].
  destruct about as [u |].
  - destruct (find_about_some _ _ _ Habout) as [Hc | Hu];
      [discriminate | exact Hu].
  - now destruct (find_about_none _ _ Habout).
Qed.

End KeyPages.


(** X5 at the sample web. *)
Lemma about_page_is_an_about_link_witness :
  fetch_main Sample.acme "http://acme.com"
    = Response 200 Sample.home_url Sample.home /\
  raises_for_status 200 = false /\
  scrape_company_profile (U := urllib_parse) Sample.acme "http://acme.com"
    = Some Sample.acme_profile /\
  catalog (U := urllib_parse) Sample.home_url Sample.home
    = Some Sample.home_links /\
  match page_url (about_us Sample.acme_profile) with
  | Some u => url_of_link about_like Sample.home_links u
  | None => forall l, In l Sample.home_links -> about_like l = false
  end.
Proof.
  assert (Hrun : scrape_company_profile (U := urllib_parse) Sample.acme
                   "http://acme.com" = Some Sample.acme_profile)
    by (vm_compute; reflexivity).
  assert (Hcat : catalog (U := urllib_parse) Sample.home_url Sample.home
                 = Some Sample.home_links) by (vm_compute; reflexivity).
  split; [reflexivity |]. split; [reflexivity |].
  split; [exact Hrun |]. split; [exact Hcat |].
  exact (about_page_is_an_about_link (U := urllib_parse) Sample.acme
           "http://acme.com" Sample.acme_profile 200 Sample.home_url
           Sample.home Sample.home_links eq_refl eq_refl Hrun Hcat).
Defined.

(** ** When the run returns *)

Section Returns.

Context {U : UrlLib}.





End Returns.


(** ** What the sequences hold *)

Lemma Forall_snoc {A : Type} (P : A -> Prop) (l : list A) (x : A) :
  Forall P l -> P x -> Forall P (l ++ [x]).
Proof.
  intros Hl Hx. apply Forall_app. split; [exact Hl | now constructor].
Qed.

Lemma slice_to_length (n : nat) (s : string) :
  len (slice_to n s) = Nat.min n (len s).
Proof.
  unfold slice_to, len. revert s.
  induction n as [| n IH]; intros [| c s]; simpl; try reflexivity.
  now rewrite IH.
Qed.

Lemma sub_empty_length (r : regex) (skip : nat) (p : option ascii)
  (s : string) :
  len (sub_empty r skip p s) <= len s.
Proof.
  revert skip p.
  induction s as [| c s IH]; simpl; intros skip p; [lia |].
  destruct skip as [| k].
  - destruct (match_at r p (String c s)) as [m |].
    + destruct (len (matched m)) as [| k]; simpl.
      * specialize (IH 0 (Some c)). unfold len in *. lia.
      * specialize (IH k (Some c)). unfold len in *. lia.
    + simpl. specialize (IH 0 (Some c)). unfold len in *. lia.
  - specialize (IH k (Some c)). unfold len in *. lia.
Qed.

Lemma services_are_long (doc : node) (p : profile) :
  Forall (fun s => 3 < len s) (services p) ->
  Forall (fun s => 3 < len s) (services (extract_services doc p)).
Proof.
  intro Hp. unfold extract_services, set_services. cbn [services].
  unfold services_from_text.
  apply fold_left_invariant.
  - apply for_keyword_headings_invariant; [exact Hp |].
    intros parent acc Hacc. unfold services_from_cards.
    apply fold_left_invariant.
    + unfold services_from_lists.
      apply fold_left_invariant; [exact Hacc |]. intros a ul Ha.
      apply fold_left_invariant; [exact Ha |]. intros b li Hb. cbv zeta.
      destruct (truthy (get_text true li)); cbn [andb]; [| exact Hb].
      destruct (3 <? len (get_text true li))%nat eqn:H3; cbn [andb];
        [| exact Hb].
      destruct (len (get_text true li) <? 200)%nat; [| exact Hb].
      destruct (negb _); [| exact Hb].
      apply Forall_snoc; [exact Hb | now apply Nat.ltb_lt].
    + intros a div Ha. cbv zeta.
      destruct (_ && _); [| exact Ha].
      destruct (find_tag inner_headings any_tag div) as [inner |];
        [| exact Ha].
      destruct (negb _); cbn [andb]; [| exact Ha].
      destruct (3 <? len (get_text true inner))%nat eqn:H3; [| exact Ha].
      apply Forall_snoc; [exact Ha | now apply Nat.ltb_lt].
  - intros a m Ha. cbv zeta.
    destruct (negb _); cbn [andb]; [| exact Ha].
    destruct (10 <? len (strip (group 2 (groups m))))%nat eqn:H10;
      [| exact Ha].
    apply Forall_snoc; [exact Ha |]. apply Nat.ltb_lt in H10. lia.
Qed.

Lemma clients_are_short (doc : node) (p : profile) :
  Forall (fun c => len c < 100) (clients p) ->
  Forall (fun c => len c < 100) (clients (extract_clients doc p)).
Proof.
  intro Hp. unfold extract_clients, set_clients. cbn [clients].
  apply for_keyword_headings_invariant; [exact Hp |].
  intros parent acc Hacc. unfold clients_from_text.
  apply fold_left_invariant.
  - unfold clients_from_images.
    apply fold_left_invariant; [exact Hacc |]. intros a img Ha. cbv zeta.
    set (name := if truthy (strip (get_or_empty "alt" img))
                 then strip (get_or_empty "alt" img)
                 else strip (get_or_empty "title" img)).
    destruct (truthy name); cbn [andb]; [| exact Ha].
    destruct (1 <? len name)%nat; cbn [andb]; [| exact Ha].
    destruct (len name <? 100)%nat eqn:H100; [| exact Ha].
    destruct (negb _); [| exact Ha].
    apply Forall_snoc; [exact Ha |].
    apply Nat.ltb_lt in H100.
    pose proof (sub_empty_length suffix_pattern 0 None name). lia.
  - intros a elem Ha. cbv zeta.
    destruct (2 <? len (get_text true elem))%nat; cbn [andb]; [| exact Ha].
    destruct (len (get_text true elem) <? 50)%nat eqn:H50; cbn [andb];
      [| exact Ha].
    destruct (negb _); [| exact Ha].
    apply Forall_snoc; [exact Ha |]. apply Nat.ltb_lt in H50. lia.
Qed.

Lemma steps_are_positive (doc : node) (p : profile) :
  Forall (fun st => 1 <= step st /\ 5 < len (step_description st)) (process p) ->
  Forall (fun st => 1 <= step st /\ 5 < len (step_description st))
    (process (extract_process doc p)).
Proof.
  intro Hp. unfold extract_process, set_process. cbn [process].
  apply for_keyword_headings_invariant; [exact Hp |].
  intros parent acc Hacc. unfold process_section, steps_from_divs.
  set (found := steps_from_lists parent acc).
  assert (Hfound : Forall (fun st => 1 <= step st /\ 5 < len (step_description st))
                     found).
  { unfold found, steps_from_lists.
    apply fold_left_invariant; [exact Hacc |]. intros a ol Ha.
    unfold steps_from_list.
    assert (Hfrom : forall items start acc0,
              1 <= start ->
              Forall (fun st => 1 <= step st /\ 5 < len (step_description st)) acc0 ->
              Forall (fun st => 1 <= step st /\ 5 < len (step_description st))
                (fold_left
                   (fun acc1 (item : nat * node) =>
                      let step_text := get_text true (snd item) in
                      if truthy step_text && (5 <? len step_text)%nat
                      then (acc1 ++ [ProcessStep (fst item) step_text])%list
                      else acc1)
                   (combine (seq start (List.length items)) items) acc0)).
    { induction items as [| li items IH]; simpl; intros start acc0 Hs H0;
        [exact H0 |].
      apply IH; [lia |].
      destruct (truthy (get_text true li)); cbn [andb]; [| exact H0].
      destruct (5 <? len (get_text true li))%nat eqn:H5; [| exact H0].
      apply Forall_snoc; [exact H0 |]. simpl.
      split; [exact Hs | now apply Nat.ltb_lt]. }
    apply Hfrom; [lia | exact Ha]. }
  assert (Hdivs : forall (items : list node) start acc0,
            1 <= start ->
            Forall (fun st => 1 <= step st /\ 5 < len (step_description st)) acc0 ->
            Forall (fun st => 1 <= step st /\ 5 < len (step_description st))
              (fold_left
                 (fun acc1 (item : nat * node) =>
                    let text := get_text true (snd item) in
                    if (10 <? len text)%nat && (len text <? 500)%nat then
                      if re_search number_pattern (slice_to 50 text)
                         || is_some (find_tag inner_headings any_tag (snd item))
                      then (acc1 ++ [ProcessStep (fst item) (slice_to 300 text)])%list
                      else acc1
                    else acc1)
                 (combine (seq start (List.length items)) items) acc0)).
  { induction items as [| div items IH]; simpl; intros start acc0 Hs H0;
      [exact H0 |].
    apply IH; [lia |].
    destruct (10 <? len (get_text true div))%nat eqn:H10; cbn [andb];
      [| exact H0].
    destruct (len (get_text true div) <? 500)%nat; [| exact H0].
    destruct (_ || _); [| exact H0].
    apply Forall_snoc; [exact H0 |]. simpl.
    split; [exact Hs |]. rewrite slice_to_length.
    apply Nat.ltb_lt in H10. lia. }
  apply Hdivs; [lia | exact Hfound].
Qed.

Section Articles.

Context {U : UrlLib}.

Lemma scan_articles_bounds (blog_url : string) (elems : list node)
  (found : list article) :
  Forall (fun a => 5 < len (title a) < 200) found ->
  Forall (fun a => 5 < len (title a) < 200)
    (scan_articles blog_url elems found) /\
  List.length (scan_articles blog_url elems found)
  <= List.length found + List.length elems.
Proof.
  revert found.
  induction elems as [| elem elems IH]; simpl; intros found Hfound.
  - split; [exact Hfound | lia].
  - destruct (find_tag title_tags any_tag elem) as [title_elem |].
    2: { destruct (IH found Hfound). split; [assumption | lia]. }
    destruct (truthy (get_text true title_elem)); cbn [andb].
    2: { destruct (IH found Hfound). split; [assumption | lia]. }
    destruct (5 <? len (get_text true title_elem))%nat eqn:H5; cbn [andb].
    2: { destruct (IH found Hfound). split; [assumption | lia]. }
    destruct (len (get_text true title_elem) <? 200)%nat eqn:H200.
    2: { destruct (IH found Hfound). split; [assumption | lia]. }
    match goal with
    | |- context [match ?r with Some _ => _ | None => _ end] =>
        destruct r as [target |]
    end.
    2: { split; [exact Hfound | lia]. }
    destruct (negb _).
    + destruct (IH (found ++ [Article (get_text true title_elem) target])%list)
        as [Hall Hlen].
      { apply Forall_snoc; [exact Hfound |]. simpl.
        apply Nat.ltb_lt in H5, H200. lia. }
      split; [exact Hall |]. rewrite length_app in Hlen. simpl in Hlen. lia.
    + destruct (IH found Hfound). split; [assumption | lia].
Qed.

Lemma find_all_limit (names : list string) (test : node -> bool) (k : nat)
  (root : node) :
  List.length (find_all names test (Some k) root) <= k.
Proof. unfold find_all, limited. apply firstn_le_length. Qed.

Lemma articles_are_bounded (w : web) (all_links : list link_entry)
  (target : string) :
  Forall (fun a => 5 < len (title a) < 200)
    (articles (extract_articles w all_links (initial_profile target))) /\
  List.length (articles (extract_articles w all_links (initial_profile target)))
  <= 15.
Proof.
  unfold extract_articles.
  destruct (map link_url _) as [| blog_url rest];
    [split; [constructor | simpl; lia] |].
  destruct (fetch_blog w blog_url) as [| ? ? blog_soup];
    [split; [constructor | simpl; lia] |].
  cbn [articles set_articles initial_profile].
  destruct (scan_articles_bounds blog_url
              (find_all ["article"; "div"] (has_attr "class") (Some 15) blog_soup)
              [] (Forall_nil _)) as [Hall Hlen].
  split; [exact Hall |].
  pose proof (find_all_limit ["article"; "div"] (has_attr "class") 15 blog_soup).
  change (List.length (@nil article)) with 0 in Hlen. lia.
Qed.

(** X7.  In every returned profile: each service is longer than 3
    characters; each client is shorter than 100 characters; each process
    step has a number of at least 1 and a description longer than 5
    characters; there are at most 15 articles, each with a title of more
    than 5 and fewer than 200 characters. *)
Theorem sequences_hold_bounded_entries (w : web) (target : string)
  (p : profile) :
  scrape_company_profile w target = Some p ->
  Forall (fun s => 3 < len s) (services p) /\
  Forall (fun c => len c < 100) (clients p) /\
  Forall (fun st => 1 <= step st /\ 5 < len (step_description st)) (process p) /\
  Forall (fun a => 5 < len (title a) < 200) (articles p) /\
  List.length (articles p) <= 15.
Proof.
  intro Hrun.
  destruct (run_cases w target p Hrun)
    as [-> | (status_code & final_url & doc & Hmain & Hstatus)].
  - simpl. repeat split; try constructor. lia.
  - destruct (extract_profile_record w target p final_url doc
                (run_is_extract_profile w target p status_code final_url doc
                   Hmain Hstatus Hrun)) as (links & about & _ & _ & ->).
    cbn [services clients process articles].
    split; [apply services_are_long; constructor |].
    split; [apply clients_are_short; constructor |].
    split; [apply steps_are_positive; constructor |].
    apply articles_are_bounded.
Qed.

End Articles.

(** X7 at the sample web. *)
Lemma sequences_hold_bounded_entries_witness :
  scrape_company_profile (U := urllib_parse) Sample.acme "http://acme.com"
    = Some Sample.acme_profile /\
  (Forall (fun s => 3 < len s) (services Sample.acme_profile) /\
   Forall (fun c => len c < 100) (clients Sample.acme_profile) /\
   Forall (fun st => 1 <= step st /\ 5 < len (step_description st))
     (process Sample.acme_profile) /\
   Forall (fun a => 5 < len (title a) < 200) (articles Sample.acme_profile) /\
   List.length (articles Sample.acme_profile) <= 15).
Proof.
  assert (Hrun : scrape_company_profile (U := urllib_parse) Sample.acme
                   "http://acme.com" = Some Sample.acme_profile)
    by (vm_compute; reflexivity).
  split; [exact Hrun |].
  exact (sequences_hold_bounded_entries (U := urllib_parse) Sample.acme
           "http://acme.com" Sample.acme_profile Hrun).
Defined.

(** ** The matcher against the meaning of patterns *)

(** Whatever the matcher answers is reached through a position that the
    pattern relates to the start. *)
Lemma rmatch_sound (r : regex) :
  forall (st : mstate) (k : mstate -> option mstate) (res : mstate),
    rmatch r st k = Some res ->
    exists st', sem r st st' /\ k st' = Some res.
Proof.
  induction r as [| p | r1 IH1 r2 IH2 | r1 IH1 r2 IH2 | lo hi r0 IH
                  | i r0 IH | |]; intros st k res Hrun.
  - exists st. now split.
  - simpl in Hrun. destruct st as [pv [| c s] cp]; simpl in *;
      [discriminate |].
    destruct (p c) eqn:Hp; [| discriminate].
    exists (MState (Some c) s cp). split; [| exact Hrun].
    now exists c, s.
  - simpl in Hrun. apply IH1 in Hrun. destruct Hrun as (m & Hm & Hrun).
    apply IH2 in Hrun. destruct Hrun as (st' & Hst' & Hk).
    exists st'. split; [now exists m | exact Hk].
  - simpl in Hrun. destruct (rmatch r1 st k) as [x |] eqn:H1.
    + injection Hrun as ->. apply IH1 in H1. destruct H1 as (st' & Hs & Hk).
      exists st'. split; [now left | exact Hk].
    + apply IH2 in Hrun. destruct Hrun as (st' & Hs & Hk).
      exists st'. split; [now right | exact Hk].
  - cbn [rmatch] in Hrun.
    match type of Hrun with
    | ?f _ _ _ = _ => set (rep := f) in Hrun
    end.
    assert (Hgen : forall fuel cnt st0,
              within cnt hi ->
              rep fuel cnt st0 = Some res ->
              exists n st',
                lo <= cnt + n /\ within (cnt + n) hi /\
                iter n (sem r0) st0 st' /\ k st' = Some res).
    { assert (Hstop : forall cnt st0,
                within cnt hi ->
                (if (lo <=? cnt)%nat then k st0 else None) = Some res ->
                exists n st',
                  lo <= cnt + n /\ within (cnt + n) hi /\
                  iter n (sem r0) st0 st' /\ k st' = Some res).
      { intros cnt st0 Hw Hk.
        destruct (lo <=? cnt)%nat eqn:Hlo; [| discriminate].
        apply Nat.leb_le in Hlo. exists 0, st0.
        rewrite Nat.add_0_r. now repeat split. }
      induction fuel as [| fuel IHf]; intros cnt st0 Hw Hrep;
        unfold rep in Hrep; cbn beta iota zeta in Hrep; fold rep in Hrep.
      - now apply Hstop.
      - destruct (below cnt hi) eqn:Hbelow; [| now apply Hstop].
        destruct (rmatch r0 st0 _) as [x |] eqn:Hbody; [| now apply Hstop].
        injection Hrep as ->.
        apply IH in Hbody. destruct Hbody as (m & Hm & Hnext).
        destruct (len (rest m) <? len (rest st0))%nat; [| discriminate].
        apply IHf in Hnext.
        + destruct Hnext as (n & st' & Hlo & Hhi & Hiter & Hk).
          exists (S n), st'. rewrite Nat.add_succ_r.
          repeat split; [exact Hlo | exact Hhi | | exact Hk].
          simpl. now exists m.
        + destruct hi as [h |]; simpl in *; [| exact I].
          apply Nat.ltb_lt in Hbelow. lia. }
    destruct (Hgen _ _ _ (match hi with Some _ => Nat.le_0_l _ | None => I end)
                Hrun) as (n & st' & Hlo & Hhi & Hiter & Hk).
    exists st'. split; [| exact Hk]. now exists n.
  - simpl in Hrun. apply IH in Hrun. destruct Hrun as (m & Hm & Hk).
    eexists. split; [| exact Hk]. now exists m.
  - simpl in Hrun. destruct (xorb _ _) eqn:Hx; [| discriminate].
    exists st. now repeat split.
  - simpl in Hrun. destruct (_ || _) eqn:Hx; [| discriminate].
    exists st. now repeat split.
Qed.

Lemma len_append (a b : string) : len (a ++ b) = len a + len b.
Proof.
  unfold len. induction a as [| x a IH]; simpl; [reflexivity | now rewrite IH].
Qed.

Lemma substring_prefix (w s : string) :
  String.substring 0 (String.length w) (w ++ s) = w.
Proof.
  induction w as [| c w IH]; simpl; [now destruct s | now rewrite IH].
Qed.

Lemma consumed_prefix (st st' : mstate) (w : string) :
  rest st = w ++ rest st' -> consumed st st' = w.
Proof.
  unfold consumed. intros ->. rewrite len_append.
  replace (len w + len (rest st') - len (rest st')) with (String.length w)
    by (unfold len; lia).
  apply substring_prefix.
Qed.

Lemma append_assoc (a b c : string) : (a ++ b) ++ c = a ++ b ++ c.
Proof. induction a as [| x a IH]; simpl; [reflexivity | now rewrite IH]. Qed.


Lemma all_chars_append (p : ascii -> bool) (a b : string) :
  all_chars p (a ++ b) = all_chars p a && all_chars p b.
Proof.
  unfold all_chars. induction a as [| x a IH]; simpl; [reflexivity |].
  now rewrite IH, andb_assoc.
Qed.

(** A run of single characters consumes a word over the class. *)
Lemma iter_chr (p : ascii -> bool) (n : nat) (st st' : mstate) :
  iter n (sem (Chr p)) st st' ->
  exists w,
    rest st = w ++ rest st' /\ len w = n /\ all_chars p w = true /\
    caps st' = caps st.
Proof.
  revert st.
  induction n as [| n IH]; simpl; intros st Hiter.
  - subst st'. now exists "".
  - destruct Hiter as (m & (c & s & Hrest & Hp & ->) & Hiter).
    apply IH in Hiter. destruct Hiter as (w & Hw & Hlen & Hall & Hcaps).
    simpl in *. exists (String c w). rewrite Hrest, Hw.
    repeat split; [now rewrite <- Hlen | | exact Hcaps].
    unfold all_chars in *. simpl. now rewrite Hp.
Qed.

(** A pattern without groups leaves the captures as they were. *)
Lemma plain_caps (r : regex) :
  plain r = true -> forall st st', sem r st st' -> caps st' = caps st.
Proof.
  induction r as [| p | r1 IH1 r2 IH2 | r1 IH1 r2 IH2 | lo hi r0 IH
                  | i r0 IH | |]; simpl; intros Hplain st st' Hsem.
  - now subst.
  - destruct Hsem as (c & s & _ & _ & ->). reflexivity.
  - apply andb_true_iff in Hplain. destruct Hplain as [H1 H2].
    destruct Hsem as (m & Hm & Hst').
    rewrite (IH2 H2 _ _ Hst'). now apply IH1.
  - apply andb_true_iff in Hplain. destruct Hplain as [H1 H2].
    destruct Hsem as [Hsem | Hsem]; [now apply IH1 | now apply IH2].
  - destruct Hsem as (n & _ & _ & Hiter). revert st Hiter.
    induction n as [| n IHn]; simpl; intros st Hiter; [now subst |].
    destruct Hiter as (m & Hm & Hiter).
    rewrite (IHn _ Hiter). now apply IH.
  - discriminate.
  - now destruct Hsem as [-> _].
  - now destruct Hsem as [-> _].
Qed.

(** What a pattern consumes is a prefix of the text at the start. *)
Lemma sem_rest (r : regex) :
  forall st st', sem r st st' -> exists w, rest st = w ++ rest st'.
Proof.
  induction r as [| p | r1 IH1 r2 IH2 | r1 IH1 r2 IH2 | lo hi r0 IH
                  | i r0 IH | |]; simpl; intros st st' Hsem.
  - subst. now exists "".
  - destruct Hsem as (c & s & Hrest & _ & ->). simpl.
    now exists (String c "").
  - destruct Hsem as (m & Hm & Hst').
    destruct (IH1 _ _ Hm) as [w1 H1]. destruct (IH2 _ _ Hst') as [w2 H2].
    exists (w1 ++ w2). now rewrite H1, H2, append_assoc.
  - destruct Hsem as [Hsem | Hsem]; [now apply IH1 | now apply IH2].
  - destruct Hsem as (n & _ & _ & Hiter). revert st Hiter.
    induction n as [| n IHn]; simpl; intros st Hiter.
    + subst. now exists "".
    + destruct Hiter as (m & Hm & Hiter).
      destruct (IH _ _ Hm) as [w1 H1]. destruct (IHn _ Hiter) as [w2 H2].
      exists (w1 ++ w2). now rewrite H1, H2, append_assoc.
  - destruct Hsem as (m & Hm & ->). simpl. now apply IH.
  - destruct Hsem as [-> _]. now exists "".
  - destruct Hsem as [-> _]. now exists "".
Qed.

(** A match of a search is a match of the pattern at some position. *)
Lemma match_at_sound (r : regex) (p : option ascii) (s : string)
  (m : rmatch_result) :
  match_at r p s = Some m ->
  exists st',
    sem r (MState p s []) st' /\
    matched m = consumed (MState p s []) st' /\ groups m = caps st'.
Proof.
  unfold match_at. intro H.
  destruct (rmatch r (MState p s []) (fun st' => Some st')) as [x |] eqn:Hrun;
    [| discriminate].
  injection H as <-.
  apply rmatch_sound in Hrun. destruct Hrun as (st' & Hsem & Hk).
  injection Hk as ->. now exists x.
Qed.

Lemma finditer_sound (r : regex) (s : string) :
  forall (skip : nat) (p : option ascii) (m : rmatch_result),
    In m (finditer r skip p s) ->
    exists p' s', match_at r p' s' = Some m.
Proof.
  induction s as [| c s IH]; intros skip p m Hin.
  - destruct skip as [| k]; simpl in Hin; [| destruct Hin].
    destruct (match_at r p "") as [m0 |] eqn:Hm; [| destruct Hin].
    destruct Hin as [<- | []]. now exists p, "".
  - destruct skip as [| k]; simpl in Hin; [| now apply IH in Hin].
    destruct (match_at r p (String c s)) as [m0 |] eqn:Hm;
      [| now apply IH in Hin].
    destruct Hin as [<- | Hin]; [now exists p, (String c s) |].
    now apply IH in Hin.
Qed.

(** A group of exactly [n] characters of a class captures such a word. *)
Lemma digit_group (i n : nat) (p : ascii -> bool) (st st' : mstate) :
  sem (Grp i (times n (Chr p))) st st' ->
  exists g,
    caps st' = (i, g) :: caps st /\ len g = n /\ all_chars p g = true.
Proof.
  simpl. intros (m & (k & Hlo & Hhi & Hiter) & ->).
  assert (k = n) by lia. subst k.
  apply iter_chr in Hiter. destruct Hiter as (w & Hw & Hlen & Hall & Hcaps).
  exists w. simpl. rewrite (consumed_prefix _ _ _ Hw), Hcaps.
  now repeat split.
Qed.

Lemma three_chars (s : string) :
  len s = 3 -> exists a b c, s = String a (String b (String c "")).
Proof.
  destruct s as [| a [| b [| c [| d s]]]]; try discriminate.
  intros _. now exists a, b, c.
Qed.

Lemma four_chars (s : string) :
  len s = 4 -> exists a b c d, s = String a (String b (String c (String d ""))).
Proof.
  destruct s as [| a [| b [| c [| d [| e s]]]]]; try discriminate.
  intros _. now exists a, b, c, d.
Qed.

(** Every match of the phone pattern formats to [ddd-ddd-dddd]. *)
Lemma phone_match_shaped (p : option ascii) (s : string) (m : rmatch_result) :
  match_at phone_pattern p s = Some m -> phone_shaped (format_phone m) = true.
Proof.
  intro Hm. apply match_at_sound in Hm.
  destruct Hm as (st' & Hsem & _ & Hgroups).
  unfold phone_pattern, cat in Hsem. cbn [fold_right] in Hsem.
  destruct Hsem as (m1 & H1 & m2 & H2 & m3 & H3 & m4 & H4 & m5 & H5
                    & m6 & H6 & m7 & H7 & m8 & H8 & Hend).
  simpl in Hend. subst st'.
  apply plain_caps in H1; [| reflexivity].
  apply plain_caps in H2; [| reflexivity].
  apply plain_caps in H4; [| reflexivity].
  apply plain_caps in H5; [| reflexivity].
  apply plain_caps in H7; [| reflexivity].
  apply digit_group in H3, H6, H8.
  destruct H3 as (g1 & C3 & L1 & D1).
  destruct H6 as (g2 & C6 & L2 & D2).
  destruct H8 as (g3 & C8 & L3 & D3).
  unfold format_phone. rewrite Hgroups, C8, H7, C6, H5, H4, C3.
  cbn [group Nat.eqb].
  apply three_chars in L1, L2. apply four_chars in L3.
  destruct L1 as (a1 & a2 & a3 & ->). destruct L2 as (b1 & b2 & b3 & ->).
  destruct L3 as (c1 & c2 & c3 & c4 & ->).
  unfold all_chars in D1, D2, D3. simpl in D1, D2, D3.
  repeat match goal with
         | H : _ && _ = true |- _ => apply andb_true_iff in H; destruct H
         end.
  unfold phone_shaped. cbn -[isdigit].
  repeat match goal with
         | H : isdigit _ = true |- _ => rewrite H; clear H
         end.
  reflexivity.
Qed.

Lemma chr_step (c : ascii) (st st' : mstate) :
  sem (chr c) st st' ->
  rest st = String c (rest st') /\ caps st' = caps st.
Proof.
  simpl. intros (x & s & Hrest & Heq & ->). simpl.
  apply Ascii.eqb_eq in Heq. subst x. now split.
Qed.

Lemma class_run (lo : nat) (p : ascii -> bool) (st st' : mstate) :
  sem (Rep lo None (Chr p)) st st' ->
  exists w, rest st = w ++ rest st' /\ lo <= len w /\ all_chars p w = true.
Proof.
  simpl. intros (n & Hlo & _ & Hiter).
  apply iter_chr in Hiter. destruct Hiter as (w & Hw & Hlen & Hall & _).
  exists w. repeat split; [exact Hw | lia | exact Hall].
Qed.

(** Every match of the e-mail pattern has the shape of an address. *)
Lemma email_match_shaped (p : option ascii) (s : string) (m : rmatch_result) :
  match_at email_pattern p s = Some m -> email_shaped (matched m).
Proof.
  intro Hm. apply match_at_sound in Hm.
  destruct Hm as (st' & Hsem & Hmatched & _).
  unfold email_pattern, cat in Hsem. cbn [fold_right] in Hsem.
  destruct Hsem as (m1 & H1 & m2 & H2 & m3 & H3 & m4 & H4 & m5 & H5
                    & m6 & H6 & m7 & H7 & Hend).
  simpl in Hend. subst st'.
  destruct H1 as [-> _]. destruct H7 as [-> _].
  apply class_run in H2, H4, H6. apply chr_step in H3, H5.
  destruct H2 as (l & Hl & Ll & Al). destruct H4 as (d & Hd & Ld & Ad).
  destruct H6 as (t & Ht & Lt & At). destruct H3 as [H3 _].
  destruct H5 as [H5 _].
  assert (Hall : rest (MState p s []) = (l ++ "@" ++ d ++ "." ++ t) ++ rest m6).
  { rewrite Hl, H3, Hd, H5, Ht. simpl.
    repeat (rewrite append_assoc; simpl). reflexivity. }
  rewrite (consumed_prefix _ _ _ Hall) in Hmatched.
  exists l, d, t. now repeat split.
Qed.

(** ** Contact details *)

Section ContactDetails.

Context {U : UrlLib}.

Lemma returned_contact (w : web) (target : string) (p : profile) :
  scrape_company_profile w target = Some p ->
  (email (contact_info p) = None /\ phone (contact_info p) = None) \/
  exists doc,
    email (contact_info p)
    = email (contact_info (extract_contact_info doc (initial_profile target))) /\
    phone (contact_info p)
    = phone (contact_info (extract_contact_info doc (initial_profile target))).
Proof.
  intro Hrun.
  destruct (run_cases w target p Hrun)
    as [-> | (status_code & final_url & doc & Hmain & Hstatus)].
  - left. now split.
  - destruct (extract_profile_record w target p final_url doc
                (run_is_extract_profile w target p status_code final_url doc
                   Hmain Hstatus Hrun)) as (links & about & _ & _ & ->).
    right. exists doc. now split.
Qed.

(** X8.  A phone number in a returned profile always has the shape
    [ddd-ddd-dddd]: twelve characters, ten digits and two dashes, whatever
    text the number was found in. *)
Theorem phone_has_the_dashed_shape (w : web) (target : string) (p : profile)
  (number : string) :
  scrape_company_profile w target = Some p ->
  phone (contact_info p) = Some number ->
  phone_shaped number = true.
Proof.
  intros Hrun Hphone.
  destruct (returned_contact w target p Hrun) as [[_ Hnone] | (doc & _ & Heq)];
    [congruence |].
  rewrite Heq, phone_after_email in Hphone.
  destruct (re_finditer phone_pattern (get_text false doc)) as [| m ms] eqn:Hms;
    [discriminate |].
  injection Hphone as <-.
  assert (Hin : In m (re_finditer phone_pattern (get_text false doc)))
    by (rewrite Hms; now left).
  apply finditer_sound in Hin. destruct Hin as (p' & s' & Hm).
  now apply phone_match_shaped in Hm.
Qed.

(** X9.  An e-mail address in a returned profile always has the shape
    [local@domain.label], with a non-empty local part and domain, a last
    label of at least two characters, and only characters of the classes
    of the pattern; and it never holds "example.com", "domain.com" or
    "email.com", in any letter case. *)
Theorem email_is_shaped_and_no_placeholder (w : web) (target : string)
  (p : profile) (e : string) :
  scrape_company_profile w target = Some p ->
  email (contact_info p) = Some e ->
  email_shaped e /\ is_placeholder e = false.
Proof.
  intros Hrun Hemail.
  destruct (returned_contact w target p Hrun) as [[Hnone _] | (doc & Heq & _)];
    [congruence |].
  rewrite Heq, email_after_phone in Hemail. unfold find_emails in Hemail.
  destruct (filter keep_email _) as [| e0 es] eqn:Hes; [discriminate |].
  injection Hemail as <-.
  assert (Hin : In e0 (filter keep_email
                         (map matched
                            (re_finditer email_pattern (get_text false doc)))))
    by (rewrite Hes; now left).
  apply filter_In in Hin. destruct Hin as [Hin Hkeep].
  apply in_map_iff in Hin. destruct Hin as (m & <- & Hm).
  apply finditer_sound in Hm. destruct Hm as (p' & s' & Hm).
  split; [now apply email_match_shaped in Hm |].
  unfold keep_email in Hkeep. fold (is_placeholder (matched m)) in Hkeep.
  now apply negb_true_iff in Hkeep.
Qed.

End ContactDetails.

(** X8 at the sample web. *)
Lemma phone_has_the_dashed_shape_witness :
  scrape_company_profile (U := urllib_parse) Sample.acme "http://acme.com"
    = Some Sample.acme_profile /\
  phone (contact_info Sample.acme_profile) = Some "555-123-4567" /\
  phone_shaped "555-123-4567" = true.
Proof.
  assert (Hrun : scrape_company_profile (U := urllib_parse) Sample.acme
                   "http://acme.com" = Some Sample.acme_profile)
    by (vm_compute; reflexivity).
  split; [exact Hrun |]. split; [reflexivity |].
  exact (phone_has_the_dashed_shape (U := urllib_parse) Sample.acme
           "http://acme.com" Sample.acme_profile "555-123-4567" Hrun eq_refl).
Defined.

(** X9 at the sample web. *)
Lemma email_is_shaped_and_no_placeholder_witness :
  scrape_company_profile (U := urllib_parse) Sample.acme "http://acme.com"
    = Some Sample.acme_profile /\
  email (contact_info Sample.acme_profile) = Some "sales@acme.com" /\
  (email_shaped "sales@acme.com" /\ is_placeholder "sales@acme.com" = false).
Proof.
  assert (Hrun : scrape_company_profile (U := urllib_parse) Sample.acme
                   "http://acme.com" = Some Sample.acme_profile)
    by (vm_compute; reflexivity).
  split; [exact Hrun |]. split; [reflexivity |].
  exact (email_is_shaped_and_no_placeholder (U := urllib_parse) Sample.acme
           "http://acme.com" Sample.acme_profile "sales@acme.com" Hrun eq_refl).
Defined.

(** ** The About description *)

Lemma node_induction (P : node -> Prop) :
  (forall name attrs contents,
     Forall P contents -> P (Tag name attrs contents)) ->
  (forall text, P (NavigableString text)) ->
  (forall text, P (Comment text)) ->
  forall n, P n.
Proof.
  intros Htag Hstring Hcomment. fix IH 1.
  intros [name attrs contents | text | text];
    [| apply Hstring | apply Hcomment].
  apply Htag. induction contents as [| c cs IHcs]; constructor;
    [apply IH | exact IHcs].
Qed.

Lemma decompose_all_tag (names : list string) (name : string)
  (attrs : list (string * string)) (contents : list node) :
  decompose_all names (Tag name attrs contents)
  = Tag name attrs
      (map (decompose_all names)
         (filter (fun c => negb (is_tag names c)) contents)).
Proof.
  simpl. f_equal.
  induction contents as [| c cs IH]; simpl; [reflexivity |].
  destruct (is_tag names c); simpl; now rewrite IH.
Qed.

Lemma decompose_all_keeps_name (names : list string) (n : node) :
  is_tag names (decompose_all names n) = is_tag names n.
Proof. destruct n; reflexivity. Qed.

(** X10.  After [decompose] has run over the elements named in a list, no
    element with one of those names is left anywhere in the tree: the
    About description never reads a paragraph of a script, style, nav,
    footer or header element. *)
Theorem decompose_leaves_no_such_element (names : list string) (root n : node) :
  In n (descendants (decompose_all names root)) -> is_tag names n = false.
Proof.
  revert n. induction root as [name attrs contents IH | text | text]
    using node_induction; intros n Hin; [| destruct Hin | destruct Hin].
  rewrite decompose_all_tag in Hin. simpl in Hin.
  apply in_flat_map in Hin. destruct Hin as (c' & Hc' & Hn).
  apply in_map_iff in Hc'. destruct Hc' as (c & <- & Hc).
  apply filter_In in Hc. destruct Hc as [Hc Hnot].
  rewrite Forall_forall in IH.
  destruct Hn as [<- | Hn].
  - rewrite decompose_all_keeps_name. now apply negb_true_iff in Hnot.
  - now apply (IH c Hc).
Qed.

Lemma meaningful_paragraphs_spec (ps : list node) (acc : list string) :
  List.length acc < 3 ->
  exists more,
    meaningful_paragraphs ps acc = (acc ++ more)%list /\
    List.length (acc ++ more) <= 3 /\
    Forall (fun t => 50 < len t /\
                     exists pn, In pn ps /\ t = get_text true pn) more.
Proof.
  revert acc.
  induction ps as [| pn ps IH]; cbn [meaningful_paragraphs]; intros acc Hacc.
  - exists []. rewrite app_nil_r. repeat split; [lia | constructor].
  - assert (Hweak : forall more,
              Forall (fun t => 50 < len t /\
                               exists q, In q ps /\ t = get_text true q) more ->
              Forall (fun t => 50 < len t /\
                               exists q, (pn = q \/ In q ps) /\ t = get_text true q)
                more).
    { intros more Hm. eapply Forall_impl; [| exact Hm].
      intros t (Ht & q & Hq & Heq). split; [exact Ht |].
      exists q. split; [now right | exact Heq]. }
    destruct (50 <? len (get_text true pn))%nat eqn:H50.
    + apply Nat.ltb_lt in H50.
      destruct (3 <=? List.length (acc ++ [get_text true pn]))%nat eqn:H3.
      * exists [get_text true pn].
        split; [reflexivity |].
        split; [rewrite length_app; cbn [List.length]; lia |].
        constructor; [| constructor].
        split; [exact H50 |]. exists pn. split; [now left | reflexivity].
      * apply Nat.leb_gt in H3. destruct (IH _ H3) as (more & Heq & Hlen & Hall).
        exists (get_text true pn :: more).
        rewrite <- app_assoc in Heq, Hlen.
        split; [exact Heq |]. split; [exact Hlen |].
        constructor; [| now apply Hweak].
        split; [exact H50 |]. exists pn. split; [now left | reflexivity].
    + destruct (IH _ Hacc) as (more & -> & Hlen & Hall).
      exists more. repeat split; [exact Hlen | now apply Hweak].
Qed.

Lemma join_first_length (sep first : string) (others : list string) :
  len first <= len (join sep (first :: others)).
Proof.
  unfold join. simpl. destruct others; [lia |].
  rewrite len_append. lia.
Qed.

Section AboutDescription.

Context {U : UrlLib}.

(** X11.  An About description in a returned profile comes from the
    response to the About page, whatever its status: it is one to three
    paragraphs joined by single spaces, each longer than 50 characters and
    each the text of a [p] element left after the removal of scripts,
    styles and page furniture; so the description itself is longer than
    50 characters, and it is set only when the About page is. *)
Theorem description_is_joined_paragraphs (w : web) (target : string)
  (p : profile) (d : string) :
  scrape_company_profile w target = Some p ->
  description (about_us p) = Some d ->
  50 < len d /\
  exists u status_code final_url about_soup paragraphs,
    page_url (about_us p) = Some u /\
    fetch_about w u = Response status_code final_url about_soup /\
    d = join " " paragraphs /\
    1 <= List.length paragraphs <= 3 /\
    Forall (fun t =>
              50 < len t /\
              exists pn,
                In pn (find_all ["p"] any_tag None
                         (decompose_all removed_tags about_soup)) /\
                t = get_text true pn)
      paragraphs.
Proof.
  intros Hrun Hd.
  destruct (run_cases w target p Hrun)
    as [-> | (status_code & final_url & doc & Hmain & Hstatus)];
    [discriminate |].
  destruct (extract_profile_record w target p final_url doc
              (run_is_extract_profile w target p status_code final_url doc
                 Hmain Hstatus Hrun)) as (links & about & _ & _ & ->).
  cbn [about_us description page_url] in *.
  unfold scrape_about_page in Hd. cbn [about_us page_url set_about_page_url
    initial_profile description] in Hd.
  destruct about as [u |]; cbn [truthy_opt or_empty] in Hd; [| discriminate].
  destruct (truthy u); [| discriminate].
  destruct (fetch_about w u) as [| s f about_soup] eqn:Hfetch;
    [discriminate |].
  destruct (about_description about_soup) as [text |] eqn:Habout;
    [| discriminate].
  cbn [about_us description set_about_description] in Hd.
  injection Hd as <-.
  unfold about_description in Habout. fold removed_tags in Habout.
  destruct (meaningful_paragraphs_spec
              (find_all ["p"] any_tag None
                 (decompose_all removed_tags about_soup)) [])
    as (more & Heq & Hlen & Hall); [simpl; lia |].
  rewrite Heq in Habout. cbn [app] in Habout, Hlen.
  destruct more as [| first others]; [discriminate |].
  injection Habout as <-.
  split.
  - inversion Hall as [| ? ? [H50 _] _]; subst.
    pose proof (join_first_length " " first others).
    change (50 < len (join " " (first :: others))). lia.
  - exists u, s, f, about_soup, (first :: others).
    split; [reflexivity |]. split; [exact Hfetch |].
    split; [reflexivity |].
    split; [split; [cbn [List.length]; lia | exact Hlen] | exact Hall].
Qed.

Lemma extract_articles_articles_only (w : web)
  (all_links : list link_entry) (p : profile) :
  set_articles [] (extract_articles w all_links p) = set_articles [] p.
Proof.
  unfold extract_articles.
  destruct (map link_url _) as [| blog_url rest]; [reflexivity |].
  destruct (fetch_blog w blog_url); reflexivity.
Qed.

(** X12.  The secondary pages decide the articles and the About
    description and nothing else: two runs served the same main page
    agree on every other key, and both return or both raise, whatever
    their blog and About fetches give.  A secondary fetch never aborts a
    run. *)
Theorem secondary_pages_touch_two_keys (w1 w2 : web) (target : string) :
  fetch_main w1 target = fetch_main w2 target ->
  option_map without_secondary (scrape_company_profile w1 target)
  = option_map without_secondary (scrape_company_profile w2 target).
Proof.
  intro Hmain. unfold scrape_company_profile. rewrite Hmain.
  destruct (fetch_main w2 target) as [| status_code final_url doc];
    [reflexivity |].
  destruct (raises_for_status status_code); [reflexivity |].
  destruct (extract_profile w1 final_url doc (initial_profile target))
    as [p1 |] eqn:H1;
    destruct (extract_profile w2 final_url doc (initial_profile target))
      as [p2 |] eqn:H2.
  - apply extract_profile_record in H1, H2.
    destruct H1 as (l1 & a1 & Hc1 & Ha1 & ->).
    destruct H2 as (l2 & a2 & Hc2 & Ha2 & ->).
    rewrite Hc1 in Hc2. injection Hc2 as <-.
    rewrite Ha1 in Ha2. injection Ha2 as <-.
    reflexivity.
  - exfalso. unfold extract_profile, bind in H1, H2.
    destruct (collect_links final_url _ []) as [links |]; [| discriminate].
    destruct (find_key_pages links _); discriminate.
  - exfalso. unfold extract_profile, bind in H1, H2.
    destruct (collect_links final_url _ []) as [links |]; [| discriminate].
    destruct (find_key_pages links _); discriminate.
  - reflexivity.
Qed.

End AboutDescription.

(** X10 at the sample About page: the paragraph kept is no page
    furniture. *)
Lemma decompose_leaves_no_such_element_witness :
  let kept :=
    Tag "p" []
      [Sample.txt "Acme Corp has been building rockets and anvils for coyotes since 1949."] in
  In kept (descendants (decompose_all removed_tags Sample.about)) /\
  is_tag removed_tags kept = false.
Proof.
  intro kept.
  assert (Hin : In kept (descendants (decompose_all removed_tags Sample.about)))
    by (vm_compute; left; reflexivity).
  split; [exact Hin |].
  exact (decompose_leaves_no_such_element removed_tags Sample.about kept Hin).
Defined.

(** X11 at the sample web. *)
Lemma description_is_joined_paragraphs_witness :
  let d :=
    "Acme Corp has been building rockets and anvils for coyotes since 1949." in
  scrape_company_profile (U := urllib_parse) Sample.acme "http://acme.com"
    = Some Sample.acme_profile /\
  description (about_us Sample.acme_profile) = Some d /\
  (50 < len d /\
   exists u status_code final_url about_soup paragraphs,
     page_url (about_us Sample.acme_profile) = Some u /\
     fetch_about Sample.acme u = Response status_code final_url about_soup /\
     d = join " " paragraphs /\
     1 <= List.length paragraphs <= 3 /\
     Forall (fun t =>
               50 < len t /\
               exists pn,
                 In pn (find_all ["p"] any_tag None
                          (decompose_all removed_tags about_soup)) /\
                 t = get_text true pn)
       paragraphs).
Proof.
  intro d.
  assert (Hrun : scrape_company_profile (U := urllib_parse) Sample.acme
                   "http://acme.com" = Some Sample.acme_profile)
    by (vm_compute; reflexivity).
  split; [exact Hrun |]. split; [reflexivity |].
  exact (description_is_joined_paragraphs (U := urllib_parse) Sample.acme
           "http://acme.com" Sample.acme_profile d Hrun eq_refl).
Defined.

(** X12 at the sample web, with and without its secondary pages. *)
Lemma secondary_pages_touch_two_keys_witness :
  fetch_main Sample.acme "http://acme.com"
    = fetch_main Sample.acme_offline_pages "http://acme.com" /\
  option_map without_secondary
    (scrape_company_profile (U := urllib_parse) Sample.acme "http://acme.com")
  = option_map without_secondary
      (scrape_company_profile (U := urllib_parse) Sample.acme_offline_pages
         "http://acme.com").
Proof.
  split; [reflexivity |].
  exact (secondary_pages_touch_two_keys (U := urllib_parse) Sample.acme
           Sample.acme_offline_pages "http://acme.com" eq_refl).
Defined.

(** ** The company name *)

Lemma lstrip_starts (s : string) :
  lstrip s = "" \/
  exists c r, lstrip s = String c r /\ isspace c = false.
Proof.
  induction s as [| c s IH]; simpl; [now left |].
  destruct (isspace c) eqn:Hc; [exact IH |].
  right. now exists c, s.
Qed.

Lemma rstrip_idempotent (s : string) : rstrip (rstrip s) = rstrip s.
Proof.
  induction s as [| c s IH]; simpl; [reflexivity |].
  destruct (rstrip s) as [| d r] eqn:Hr.
  - destruct (isspace c) eqn:Hc; simpl; [reflexivity | now rewrite Hc].
  - simpl in *. now rewrite IH.
Qed.

Lemma rstrip_keeps_start (c : ascii) (r : string) :
  isspace c = false -> rstrip (String c r) = String c (rstrip r).
Proof. intro Hc. simpl. destruct (rstrip r); [now rewrite Hc | reflexivity]. Qed.

(** [strip] leaves nothing to strip. *)
Lemma strip_idempotent (s : string) : strip (strip s) = strip s.
Proof.
  unfold strip.
  destruct (lstrip_starts s) as [-> | (c & r & -> & Hc)]; [reflexivity |].
  rewrite (rstrip_keeps_start c r Hc). simpl. rewrite Hc.
  rewrite (rstrip_keeps_start c _ Hc). now rewrite rstrip_idempotent.
Qed.

Lemma all_chars_cons (p : ascii -> bool) (c : ascii) (s : string) :
  all_chars p (String c s) = p c && all_chars p s.
Proof. reflexivity. Qed.

Lemma split_head_keeps (p : ascii -> bool) (sep s : string) :
  all_chars p s = true -> all_chars p (split_head sep s) = true.
Proof.
  induction s as [| c s IH]; cbn [split_head]; [reflexivity |].
  rewrite all_chars_cons. intro H. apply andb_true_iff in H.
  destruct H as [Hc Hs].
  destruct (String.prefix sep (String c s)); [reflexivity |].
  rewrite all_chars_cons, Hc. now apply IH.
Qed.

Lemma split_head_char (c : ascii) (s : string) :
  all_chars (fun x => negb (Ascii.eqb x c)) (split_head (String c "") s) = true.
Proof.
  induction s as [| x s IH]; cbn [split_head]; [reflexivity |].
  destruct (String.prefix (String c "") (String x s)) eqn:Hp; [reflexivity |].
  rewrite all_chars_cons, IH, andb_true_r.
  apply negb_true_iff, Ascii.eqb_neq. intros ->.
  simpl in Hp. destruct (ascii_dec c c) as [_ | Hne]; [| now apply Hne].
  destruct s; discriminate.
Qed.

Lemma lstrip_keeps (p : ascii -> bool) (s : string) :
  all_chars p s = true -> all_chars p (lstrip s) = true.
Proof.
  induction s as [| c s IH]; simpl; [reflexivity |].
  rewrite all_chars_cons. intro H.
  destruct (isspace c); [| now rewrite all_chars_cons].
  apply andb_true_iff in H. now apply IH.
Qed.

Lemma rstrip_keeps (p : ascii -> bool) (s : string) :
  all_chars p s = true -> all_chars p (rstrip s) = true.
Proof.
  induction s as [| c s IH]; simpl; [reflexivity |].
  rewrite all_chars_cons. intro H. apply andb_true_iff in H.
  destruct H as [Hc Hs]. specialize (IH Hs).
  destruct (rstrip s) as [| d r].
  - destruct (isspace c); [reflexivity |].
    now rewrite all_chars_cons, Hc.
  - now rewrite all_chars_cons, Hc, IH.
Qed.

Lemma all_chars_and (p q : ascii -> bool) (s : string) :
  all_chars p s = true -> all_chars q s = true ->
  all_chars (fun c => p c && q c) s = true.
Proof.
  induction s as [| c s IH]; [reflexivity |].
  rewrite !all_chars_cons. intros Hp Hq.
  apply andb_true_iff in Hp, Hq. destruct Hp as [Hp Hps], Hq as [Hq Hqs].
  now rewrite Hp, Hq, IH.
Qed.

(** A name cut from the title holds neither bar nor hyphen. *)
Lemma name_from_title_separators (title_tag : node) :
  all_chars (fun c => negb (Ascii.eqb c "|") && negb (Ascii.eqb c "-"))
    (name_from_title title_tag) = true.
Proof.
  unfold name_from_title, strip.
  apply rstrip_keeps, lstrip_keeps, split_head_keeps.
  apply all_chars_and.
  - apply split_head_keeps, split_head_char.
  - apply split_head_char.
Qed.

Section CompanyName.

Context {U : UrlLib}.

(** X14.  A company name in a returned profile never begins or ends with
    whitespace.  When the page has neither a usable [og:site_name] nor a
    logo image, so that the name comes from the title, it holds no bar and
    no hyphen: the title is cut at the first of either. *)
Theorem company_name_is_stripped (w : web) (target : string) (p : profile)
  (name : string) :
  scrape_company_profile w target = Some p ->
  company_name p = Some name ->
  strip name = name /\
  forall status_code final_url doc,
    fetch_main w target = Response status_code final_url doc ->
    og_candidate doc = None ->
    find_tag ["img"] alt_has_logo doc = None ->
    all_chars (fun c => negb (Ascii.eqb c "|") && negb (Ascii.eqb c "-")) name
    = true.
Proof.
  intros Hrun Hname.
  destruct (run_cases w target p Hrun)
    as [-> | (status_code & final_url & doc & Hmain & Hstatus)];
    [discriminate |].
  destruct (extract_profile_record w target p final_url doc
              (run_is_extract_profile w target p status_code final_url doc
                 Hmain Hstatus Hrun)) as (links & about & _ & _ & ->).
  cbn [company_name] in Hname.
  unfold extract_company_name in Hname.
  split.
  - destruct (find_tag ["img"] alt_has_logo doc) as [logo |].
    + destruct (truthy_opt (get "alt" logo)).
      * injection Hname as <-. apply strip_idempotent.
      * destruct (find_tag ["meta"] is_og_site_name doc) as [og |];
          [destruct (truthy_opt (get "content" og)) |];
          destruct (find_tag ["title"] any_tag doc);
          try discriminate; injection Hname as <-; apply strip_idempotent.
    + destruct (find_tag ["meta"] is_og_site_name doc) as [og |];
        [destruct (truthy_opt (get "content" og)) |];
        destruct (find_tag ["title"] any_tag doc);
        try discriminate; injection Hname as <-; apply strip_idempotent.
  - intros s f doc' Hmain' Hog Hlogo.
    rewrite Hmain in Hmain'. injection Hmain' as <- <- <-.
    rewrite Hlogo in Hname. unfold og_candidate in Hog.
    destruct (find_tag ["meta"] is_og_site_name doc) as [og |].
    + destruct (truthy_opt (get "content" og)); [discriminate |].
      destruct (find_tag ["title"] any_tag doc); [| discriminate].
      injection Hname as <-. apply name_from_title_separators.
    + destruct (find_tag ["title"] any_tag doc); [| discriminate].
      injection Hname as <-. apply name_from_title_separators.
Qed.

End CompanyName.

(** X14 at a page titled "Acme Corp | Solutions". *)
Lemma company_name_is_stripped_witness :
  scrape_company_profile (U := urllib_parse)
    (Sample.only_main 200 Sample.titled) Sample.home_url
    = Some (set_company_name (Some "Acme Corp")
              (initial_profile Sample.home_url)) /\
  company_name (set_company_name (Some "Acme Corp")
                  (initial_profile Sample.home_url)) = Some "Acme Corp" /\
  (strip "Acme Corp" = "Acme Corp" /\
   forall status_code final_url doc,
     fetch_main (Sample.only_main 200 Sample.titled) Sample.home_url
       = Response status_code final_url doc ->
     og_candidate doc = None ->
     find_tag ["img"] alt_has_logo doc = None ->
     all_chars (fun c => negb (Ascii.eqb c "|") && negb (Ascii.eqb c "-"))
       "Acme Corp" = true).
Proof.
  assert (Hrun : scrape_company_profile (U := urllib_parse)
                   (Sample.only_main 200 Sample.titled) Sample.home_url
                 = Some (set_company_name (Some "Acme Corp")
                           (initial_profile Sample.home_url)))
    by (vm_compute; reflexivity).
  split; [exact Hrun |]. split; [reflexivity |].
  exact (company_name_is_stripped (U := urllib_parse)
           (Sample.only_main 200 Sample.titled) Sample.home_url _
           "Acme Corp" Hrun eq_refl).
Defined.

(** ** The report *)







(** ** The About page among root-relative links *)

Lemma shortest_about_split (all_links : list link_entry) (b : link_entry) :
  exists r,
    shortest_about all_links (Some b) = Some r /\
    ((r = b /\
      forall l, In l all_links -> about_like l = true ->
                len (link_href b) <= len (link_href l)) \/
     (len (link_href r) < len (link_href b) /\
      first_shortest_about all_links r)).
Proof.
  revert b.
  induction all_links as [| link links IH]; intro b; cbn [shortest_about].
  - exists b. split; [reflexivity |]. left. split; [reflexivity | intros l []].
  - destruct (about_like link) eqn:Hlike.
    + destruct (len (link_href link) <? len (link_href b))%nat eqn:Hlt.
      * apply Nat.ltb_lt in Hlt.
        destruct (IH link) as (r & Hr & [[-> Hall] | [Hless Hfirst]]).
        -- exists link. split; [exact Hr |]. right. split; [exact Hlt |].
           split; [exact Hlike |]. exists [], links.
           split; [reflexivity |]. split; [intros l [] | exact Hall].
        -- destruct Hfirst as (Hr_like & before & after & -> & Hbefore & Hafter).
           exists r. split; [exact Hr |]. right. split; [lia |].
           split; [exact Hr_like |]. exists (link :: before), after.
           split; [reflexivity |]. split; [| exact Hafter].
           intros l [<- | Hl] Hl_like; [exact Hless | now apply Hbefore].
      * apply Nat.ltb_ge in Hlt.
        destruct (IH b) as (r & Hr & [[-> Hall] | [Hless Hfirst]]).
        -- exists b. split; [exact Hr |]. left. split; [reflexivity |].
           intros l [<- | Hl] Hl_like; [exact Hlt | now apply Hall].
        -- destruct Hfirst as (Hr_like & before & after & -> & Hbefore & Hafter).
           exists r. split; [exact Hr |]. right. split; [exact Hless |].
           split; [exact Hr_like |]. exists (link :: before), after.
           split; [reflexivity |]. split; [| exact Hafter].
           intros l [<- | Hl] Hl_like; [lia | now apply Hbefore].
    + destruct (IH b) as (r & Hr & [[-> Hall] | [Hless Hfirst]]).
      * exists b. split; [exact Hr |]. left. split; [reflexivity |].
        intros l [<- | Hl] Hl_like; [congruence | now apply Hall].
      * destruct Hfirst as (Hr_like & before & after & -> & Hbefore & Hafter).
        exists r. split; [exact Hr |]. right. split; [exact Hless |].
        split; [exact Hr_like |]. exists (link :: before), after.
        split; [reflexivity |]. split; [| exact Hafter].
        intros l [<- | Hl] Hl_like; [congruence | now apply Hbefore].
Qed.

Lemma shortest_about_is_first_shortest (all_links : list link_entry)
  (candidate : link_entry) :
  In candidate all_links -> about_like candidate = true ->
  exists chosen,
    shortest_about all_links None = Some chosen /\
    first_shortest_about all_links chosen.
Proof.
  induction all_links as [| link links IH]; cbn [shortest_about];
    [intros [] |].
  intros Hin Hlike. destruct (about_like link) eqn:Hlink.
  - destruct (shortest_about_split links link)
      as (r & Hr & [[-> Hall] | [Hless Hfirst]]).
    + exists link. split; [exact Hr |]. split; [exact Hlink |].
      exists [], links. split; [reflexivity |].
      split; [intros l [] | exact Hall].
    + destruct Hfirst as (Hr_like & before & after & -> & Hbefore & Hafter).
      exists r. split; [exact Hr |]. split; [exact Hr_like |].
      exists (link :: before), after. split; [reflexivity |].
      split; [| exact Hafter].
      intros l [<- | Hl] Hl_like; [exact Hless | now apply Hbefore].
  - destruct Hin as [-> | Hin]; [congruence |].
    destruct (IH Hin Hlike) as (r & Hr & Hr_like & before & after & -> & Hbefore & Hafter).
    exists r. split; [exact Hr |]. split; [exact Hr_like |].
    exists (link :: before), after. split; [reflexivity |].
    split; [| exact Hafter].
    intros l [<- | Hl] Hl_like; [congruence | now apply Hbefore].
Qed.

Lemma first_shortest_is_least (all_links : list link_entry)
  (chosen l : link_entry) :
  first_shortest_about all_links chosen ->
  In l all_links -> about_like l = true ->
  len (link_href chosen) <= len (link_href l).
Proof.
  intros (_ & before & after & -> & Hbefore & Hafter) Hin Hlike.
  apply in_app_or in Hin. destruct Hin as [Hin | [<- | Hin]].
  - specialize (Hbefore l Hin Hlike). lia.
  - lia.
  - now apply Hafter.
Qed.

(** X13.  When every about-like link of the catalog has an href that is,
    in length, the path of its own URL (a root-relative href without query
    or fragment), the About page of a returned profile is the URL of the
    about-like link of the catalog with the shortest href, the earliest
    one among equals: the whole catalog is scanned, every about-like link
    before the chosen one has a longer href and none after it a shorter
    one. *)
Theorem about_page_has_the_shortest_href {U : UrlLib} (w : web)
  (target : string) (p : profile) (status_code : Z) (final_url : string)
  (doc : node) (all_links : list link_entry) (candidate : link_entry) :
  fetch_main w target = Response status_code final_url doc ->
  raises_for_status status_code = false ->
  scrape_company_profile w target = Some p ->
  catalog final_url doc = Some all_links ->
  (forall l, In l all_links -> about_like l = true -> href_is_path l) ->
  In candidate all_links -> about_like candidate = true ->
  exists chosen,
    first_shortest_about all_links chosen /\
    page_url (about_us p) = Some (link_url chosen) /\
    In chosen all_links /\
    forall l, In l all_links -> about_like l = true ->
              len (link_href chosen) <= len (link_href l).
Proof.
  intros Hmain Hstatus Hrun Hcat Hpaths Hin Hlike.
  destruct (extract_profile_record w target p final_url doc
              (run_is_extract_profile w target p status_code final_url doc
                 Hmain Hstatus Hrun)) as (links & about & Hcat' & Habout & ->).
  rewrite Hcat in Hcat'. injection Hcat' as <-.
  assert (Hfind : find_about all_links None
                  = Some (option_map link_url (shortest_about all_links None)))
    by (apply (find_about_shortest all_links None Hpaths); discriminate).
  destruct (shortest_about_is_first_shortest all_links candidate Hin Hlike)
    as (chosen & Hchosen & Hfirst).
  rewrite Hchosen in Hfind. rewrite Hfind in Habout. injection Habout as <-.
  exists chosen. split; [exact Hfirst |]. split; [reflexivity |].
  split.
  - destruct Hfirst as (_ & before & after & -> & _).
    apply in_or_app. right. now left.
  - intros l Hl Hl_like.
    exact (first_shortest_is_least all_links chosen l Hfirst Hl Hl_like).
Qed.

(** X13 at the sample web: "/about" is preferred to
    "/about-us/our-story". *)
Lemma about_page_has_the_shortest_href_witness :
  let story :=
    LinkEntry "https://acme.com/about-us/our-story" "our story"
      "/about-us/our-story" in
  fetch_main Sample.acme "http://acme.com"
    = Response 200 Sample.home_url Sample.home /\
  raises_for_status 200 = false /\
  scrape_company_profile (U := urllib_parse) Sample.acme "http://acme.com"
    = Some Sample.acme_profile /\
  catalog (U := urllib_parse) Sample.home_url Sample.home
    = Some Sample.home_links /\
  (forall l, In l Sample.home_links -> about_like l = true ->
             href_is_path (U := urllib_parse) l) /\
  In story Sample.home_links /\ about_like story = true /\
  exists chosen,
    first_shortest_about Sample.home_links chosen /\
    page_url (about_us Sample.acme_profile) = Some (link_url chosen) /\
    In chosen Sample.home_links /\
    forall l, In l Sample.home_links -> about_like l = true ->
              len (link_href chosen) <= len (link_href l).
Proof.
  intro story.
  assert (Hrun : scrape_company_profile (U := urllib_parse) Sample.acme
                   "http://acme.com" = Some Sample.acme_profile)
    by (vm_compute; reflexivity).
  assert (Hcat : catalog (U := urllib_parse) Sample.home_url Sample.home
                 = Some Sample.home_links) by (vm_compute; reflexivity).
  assert (Hpaths : forall l, In l Sample.home_links -> about_like l = true ->
                             href_is_path (U := urllib_parse) l).
  { intros l [<- | [<- | [<- | [<- | [<- | []]]]]] Hlike;
      try (vm_compute in Hlike; discriminate Hlike);
      (split; [reflexivity |]);
      eexists; (split; [vm_compute; reflexivity | reflexivity]). }
  assert (Hin : In story Sample.home_links) by (left; reflexivity).
  split; [reflexivity |]. split; [reflexivity |]. split; [exact Hrun |].
  split; [exact Hcat |]. split; [exact Hpaths |]. split; [exact Hin |].
  split; [reflexivity |].
  exact (about_page_has_the_shortest_href (U := urllib_parse) Sample.acme
           "http://acme.com" Sample.acme_profile 200 Sample.home_url
           Sample.home Sample.home_links story
           eq_refl eq_refl Hrun Hcat Hpaths Hin eq_refl).
Defined.

(** ** The saved file *)

Lemma append_cancel (l x y : string) : l ++ x = l ++ y -> x = y.
Proof.
  induction l as [|c l IH]; simpl; intros H; [exact H|].
  injection H as H. now apply IH.
Qed.

Lemma unescape_escape_char (c : ascii) (s : string) :
  unescape_char (escape_char c ++ s) = Some (c, s).
Proof.
  destruct c as [[] [] [] [] [] [] [] []]; reflexivity.
Qed.

Lemma unescape_quote (s : string) : unescape_char (quote ++ s) = None.
Proof. reflexivity. Qed.

Lemma escape_delimited (a b s t : string) :
  escape a ++ quote ++ s = escape b ++ quote ++ t -> a = b /\ s = t.
Proof.
  revert b; induction a as [|c a IH]; intros [|d b] H.
  - split; [reflexivity|]. exact (append_cancel quote s t H).
  - apply (f_equal unescape_char) in H. cbn [escape] in H.
    rewrite append_assoc, unescape_escape_char in H.
    change (append EmptyString (quote ++ s)) with (quote ++ s) in H.
    rewrite unescape_quote in H. discriminate H.
  - apply (f_equal unescape_char) in H. cbn [escape] in H.
    rewrite append_assoc, unescape_escape_char in H.
    change (append EmptyString (quote ++ t)) with (quote ++ t) in H.
    rewrite unescape_quote in H. discriminate H.
  - pose proof (f_equal unescape_char H) as Hu. cbn [escape] in Hu.
    rewrite !append_assoc, !unescape_escape_char in Hu.
    injection Hu as Hc Hrest. subst d.
    destruct (IH b Hrest) as [-> ->]. split; reflexivity.
Qed.

Lemma json_string_self_delimiting : self_delimiting json_string.
Proof.
  intros a b s t H. unfold json_string in H.
  rewrite !append_assoc in H.
  apply append_cancel in H.
  exact (escape_delimited a b s t H).
Qed.

Lemma json_optional_self_delimiting : self_delimiting json_optional.
Proof.
  intros [a|] [b|] s t H.
  - destruct (json_string_self_delimiting a b s t H) as [-> ->]. now split.
  - discriminate H.
  - discriminate H.
  - split; [reflexivity|]. exact (append_cancel "null" s t H).
Qed.

Lemma uint_delimited (d e : Decimal.uint) (s t : string) :
  NilEmpty.string_of_uint d ++ "," ++ s = NilEmpty.string_of_uint e ++ "," ++ t ->
  d = e /\ s = t.
Proof.
  revert e; induction d as [|d IH|d IH|d IH|d IH|d IH|d IH|d IH|d IH|d IH|d IH];
    intros [|e|e|e|e|e|e|e|e|e|e] H; simpl in H; try discriminate H;
    injection H as H;
    try (destruct (IH e H) as [-> ->]); now split.
Qed.

Lemma str_of_nat_delimited (n m : nat) (s t : string) :
  str_of_nat n ++ "," ++ s = str_of_nat m ++ "," ++ t -> n = m /\ s = t.
Proof.
  intro H. destruct (uint_delimited _ _ _ _ H) as [Hd Hs].
  split; [exact (Unsigned.to_uint_inj n m Hd) | exact Hs].
Qed.

Lemma json_items_self_delimiting {A : Type} (item : A -> string)
  (inner outer : string) :
  self_delimiting item -> self_delimiting (json_items item inner outer).
Proof.
  intros Hitem a; induction a as [|x a IH]; intros [|y b] s t H.
  - split; [reflexivity|]. exact (append_cancel _ s t H).
  - discriminate H.
  - discriminate H.
  - cbn [json_items] in H. rewrite !append_assoc in H.
    do 3 apply append_cancel in H.
    destruct (Hitem _ _ _ _ H) as [-> H'].
    destruct (IH _ _ _ H') as [-> ->]. now split.
Qed.

Lemma json_list_self_delimiting {A : Type} (item : A -> string)
  (inner outer : string) :
  self_delimiting item -> self_delimiting (json_list item inner outer).
Proof.
  intros Hitem [|x a] [|y b] s t H.
  - split; [reflexivity|]. exact (append_cancel _ s t H).
  - discriminate H.
  - discriminate H.
  - cbn [json_list] in H. rewrite !append_assoc in H.
    do 3 apply append_cancel in H.
    destruct (Hitem _ _ _ _ H) as [-> H'].
    destruct (json_items_self_delimiting item inner outer Hitem _ _ _ _ H')
      as [-> ->].
    now split.
Qed.

(** One step of reading an equation between two dumps from the left: a
    common literal is dropped, a field is read back. *)
Ltac read_field H :=
  first
    [ apply append_cancel in H
    | let E := fresh "E" in
      let H' := fresh "H" in
      first
        [ destruct (json_optional_self_delimiting _ _ _ _ H) as [E H']
        | destruct (json_string_self_delimiting _ _ _ _ H) as [E H']
        | destruct (str_of_nat_delimited _ _ _ _ H) as [E H'] ];
      clear H; rename H' into H ].

Lemma json_step_self_delimiting : self_delimiting json_step.
Proof.
  intros [n d] [m e] s t H. unfold json_step, json_key in H.
  cbn [step step_description] in H.
  rewrite !append_assoc in H.
  repeat read_field H.
  subst. now split.
Qed.

Lemma json_article_self_delimiting : self_delimiting json_article.
Proof.
  intros [n d] [m e] s t H. unfold json_article, json_key in H.
  cbn [title url] in H.
  rewrite !append_assoc in H.
  repeat read_field H.
  subst. now split.
Qed.

(** X16. The text that [save_to_json] writes determines the profile: two
    profiles that differ in any key (a name, a list entry, a step number,
    [None] against a string, even against an empty string) are saved as
    different texts, so the file can be read back without loss. *)
Theorem saved_file_determines_the_profile (p q : profile) :
  save_to_json p = save_to_json q -> p = q.
Proof.
  destruct p as [n1 w1 [d1 u1] s1 c1 pr1 a1 [cp1 e1 ph1 ad1] [cr1] [pp1 rp1 tp1]].
  destruct q as [n2 w2 [d2 u2] s2 c2 pr2 a2 [cp2 e2 ph2 ad2] [cr2] [pp2 rp2 tp2]].
  unfold save_to_json, json_key.
  cbn [company_name website about_us description page_url services clients
       process articles contact_info contact_page email phone address careers
       careers_page_url policies privacy_policy returns_policy
       terms_of_service].
  intro H. rewrite !append_assoc in H.
  repeat first
    [ read_field H
    | let E := fresh "E" in
      let H' := fresh "H" in
      first
        [ destruct (json_list_self_delimiting json_string _ _
                      json_string_self_delimiting _ _ _ _ H) as [E H']
        | destruct (json_list_self_delimiting json_step _ _
                      json_step_self_delimiting _ _ _ _ H) as [E H']
        | destruct (json_list_self_delimiting json_article _ _
                      json_article_self_delimiting _ _ _ _ H) as [E H'] ];
      clear H; rename H' into H ].
  subst. reflexivity.
Qed.

Lemma saved_file_determines_the_profile_witness :
  save_to_json Sample.odd_profile = save_to_json Sample.odd_profile /\
  Sample.odd_profile = Sample.odd_profile.
Proof.
  split; [reflexivity |].
  exact (saved_file_determines_the_profile Sample.odd_profile
           Sample.odd_profile eq_refl).
Defined.
